(** * WebTicker: history merge engine and windowed aggregation

    A shallow embedding of [webticker_lib.py], [TKB-WebTicker.py] and
    [TKB-WebTicker-initial.py].

    Modelling conventions
    - Python [dict]s that are JSON objects (log payloads, stored history
      records) are [gmap string json]; dicts with a fixed set of keys built
      by the program itself (normalized records, materialized trades,
      summaries) are records.
    - A Python [float] is an IEEE 754 binary64 number.  Its finite values
      are rationals, so floats are carried by [Q]; an arithmetic operation
      returns the double nearest to its exact result, ties to even
      ([round_double]).  The model has no NaN and no infinity: results
      beyond the largest double are outside it.  [round(x, n)] is the
      decimal number Python prints for its result.
    - An aware UTC [datetime] is the number of microseconds since the epoch;
      the clock reading [datetime.now] is an argument.
    - [str] objects are byte strings with ASCII case mapping and whitespace.
    - Exceptions are explicit: fallible functions return [result].
    - [str] and [float] conversions of the Python runtime that the model
      does not define ([str] of a float, [float] of a string,
      [datetime.fromisoformat]) are the fields of a [Runtime] parameter. *)

From Stdlib Require Import QArith Qround Qabs Qpower Lqa Ascii String.
From stdpp Require Import gmap strings list sorting pretty.

Local Open Scope string_scope.
Local Open Scope list_scope.
Local Open Scope Z_scope.

(** ** Python values and exceptions *)

Inductive exn : Type :=
  | TypeError
  | ValueError
  | KeyError
  | AttributeError
  | ZeroDivisionError
  | OverflowError.

Inductive result (A : Type) : Type :=
  | Ok (a : A)
  | Raise (e : exn).
Arguments Ok {A} a.
Arguments Raise {A} e.

(** The error monad; [x ← m; k] is stdpp's bind notation. *)
Global Instance result_bind : MBind result := λ A B k m,
  match m with
  | Ok a => k a
  | Raise e => Raise e
  end.

(** Flat JSON values as [json.loads] produces them (integers and floats are
    distinct in Python).  Nested arrays and objects as field values are not
    modelled. *)
Inductive json : Type :=
  | JNull
  | JBool (b : bool)
  | JInt (n : Z)
  | JFloat (q : Q)
  | JStr (s : string).

Global Instance Q_eq_dec : EqDecision Q.
Proof. solve_decision. Defined.

Global Instance json_eq_dec : EqDecision json.
Proof. solve_decision. Defined.

Global Instance Q_countable : Countable Q.
Proof.
  refine (inj_countable' (λ q, (Qnum q, Qden q)) (λ p, Qmake p.1 p.2) _).
  by intros [].
Defined.

Global Instance json_countable : Countable json.
Proof.
  refine (inj_countable'
    (λ j, match j with
          | JNull => inl ()
          | JBool b => inr (inl b)
          | JInt n => inr (inr (inl n))
          | JFloat q => inr (inr (inr (inl q)))
          | JStr s => inr (inr (inr (inr s)))
          end)
    (λ c, match c with
          | inl _ => JNull
          | inr (inl b) => JBool b
          | inr (inr (inl n)) => JInt n
          | inr (inr (inr (inl q))) => JFloat q
          | inr (inr (inr (inr s))) => JStr s
          end) _).
  by intros [].
Defined.

(** A JSON object. *)
Abbreviation dict := (gmap string json).

(** [d.get(k)]: an absent key and a stored [null] both give [None]. *)
Definition py_get (d : dict) (k : string) : json := default JNull (d !! k).

(** [d.get(k, dflt)]: only an absent key gives the default. *)
Definition py_get_default (d : dict) (k : string) (dflt : json) : json :=
  default dflt (d !! k).

(** Truth value of a Python object ([if value], [not value], [a or b]). *)
Definition truthy (v : json) : bool :=
  match v with
  | JNull => false
  | JBool b => b
  | JInt n => negb (n =? 0)
  | JFloat q => negb (Qnum q =? 0)
  | JStr s => negb (String.eqb s "")
  end.

(** [a or b] *)
Definition py_or (a b : json) : json := if truthy a then a else b.

(** The numeric value of [bool], [int] and [float] objects. *)
Definition num_of (v : json) : option Q :=
  match v with
  | JBool b => Some (if b then 1%Q else 0%Q)
  | JInt n => Some (inject_Z n)
  | JFloat q => Some q
  | _ => None
  end.

Definition Qltb (x y : Q) : bool := negb (Qle_bool y x).

(** [a < b]: strings compare lexicographically, numbers numerically; every
    other pairing (in particular anything against [None]) raises. *)
Definition py_lt (a b : json) : result bool :=
  match a, b with
  | JStr s, JStr t => Ok (String.ltb s t)
  | _, _ =>
      match num_of a, num_of b with
      | Some x, Some y => Ok (Qltb x y)
      | _, _ => Raise TypeError
      end
  end.

(** ** [list.sort(key=...)] and [sorted(..., key=..., reverse=...)]

    Python's sort is stable and uses only [<] on the keys.  It is modelled
    by a stable insertion sort in the error monad: the result, when there is
    one, is the unique stable ordering, and a [TypeError] is raised as soon
    as two keys that cannot be ordered are compared.  Every element of a list
    of two or more takes part in at least one comparison. *)
Section py_sort.
Context {A : Type} (key : A → json).

Fixpoint sort_insert (reverse : bool) (x : A) (l : list A) : result (list A) :=
  match l with
  | [] => Ok [x]
  | y :: l' =>
      c ← (if reverse then py_lt (key x) (key y) else py_lt (key y) (key x)) ;
      if c : bool then (r ← sort_insert reverse x l' ; Ok (y :: r))
      else Ok (x :: y :: l')
  end.

Fixpoint py_sorted (reverse : bool) (l : list A) : result (list A) :=
  match l with
  | [] => Ok []
  | x :: l' => r ← py_sorted reverse l' ; sort_insert reverse x r
  end.
End py_sort.

(** ** Rounding: [round(x, ndigits)] rounds half to even *)

Definition round_half_even (q : Q) : Z :=
  let f := Qfloor q in
  match Qcompare (q - inject_Z f) (1 # 2) with
  | Lt => f
  | Gt => f + 1
  | Eq => if Z.even f then f else f + 1
  end.

Definition py_round (q : Q) (ndigits : Z) : Q :=
  let scale := inject_Z (10 ^ ndigits) in
  Qred (inject_Z (round_half_even (q * scale)) / scale).

(** ** Float arithmetic: binary64, round to nearest, ties to even *)

Definition pow2 (e : Z) : Q := Qpower 2 e.

(** The exponent [e] of a positive rational: [2^e <= a < 2^(e+1)]. *)
Definition double_exponent (a : Q) : Z :=
  let e0 := Z.log2 (Qnum a) - Z.log2 (Zpos (Qden a)) in
  if Qle_bool (pow2 e0) a then e0 else e0 - 1.

(** The double nearest to [q]: a significand of 53 bits, or of fewer bits
    at the smallest exponent (subnormal numbers), chosen by rounding half
    to even. *)
Definition round_double (q : Q) : Q :=
  if Qnum q =? 0 then 0%Q
  else
    let a := Qabs q in
    let shift := Z.max (double_exponent a - 52) (-1074) in
    let m := round_half_even (a / pow2 shift) in
    Qred ((if 0 <? Qnum q then 1 else -1) * inject_Z m * pow2 shift).

Arguments pow2 : simpl never.
Arguments round_double : simpl never.

(** [x + y] and [x * y] on floats. *)
Definition float_add (x y : Q) : Q := round_double (x + y).
Definition float_mul (x y : Q) : Q := round_double (x * y).

(** [float(n)] of an [int]: the nearest double, and [OverflowError] when
    that is beyond the largest double. *)
Definition float_of_int (n : Z) : result Q :=
  let x := round_double (inject_Z n) in
  if Qle_bool (pow2 1024) (Qabs x) then Raise OverflowError else Ok x.

(** ** Timestamps *)

(** An aware UTC datetime: microseconds since 1970-01-01T00:00:00Z. *)
Definition datetime : Type := Z.

(** [timedelta(days=n)] *)
Definition timedelta_days (n : Z) : Z := n * 86400 * 1000000.

(** [value.replace(microsecond=0)] *)
Definition replace_microsecond0 (t : datetime) : datetime := t - t mod 1000000.

Definition digit (n : Z) : ascii :=
  ascii_of_N (48 + Z.to_N (n mod 10)).

Definition pad2 (n : Z) : string :=
  String (digit (n / 10)) (String (digit n) "").

Definition pad4 (n : Z) : string :=
  String (digit (n / 1000)) (String (digit (n / 100)) (pad2 n)).

Definition pad6 (n : Z) : string :=
  String (digit (n / 100000)) (String (digit (n / 10000)) (pad4 n)).

(** Proleptic Gregorian date of a day number counted from 1970-01-01. *)
Definition civil_from_days (days : Z) : Z * Z * Z :=
  let z := days + 719468 in
  let era := z / 146097 in
  let doe := z - era * 146097 in
  let yoe := (doe - doe / 1460 + doe / 36524 - doe / 146096) / 365 in
  let doy := doe - (365 * yoe + yoe / 4 - yoe / 100) in
  let mp := (5 * doy + 2) / 153 in
  let d := doy - (153 * mp + 2) / 5 + 1 in
  let m := if mp <? 10 then mp + 3 else mp - 9 in
  let y := yoe + era * 400 + (if m <=? 2 then 1 else 0) in
  (y, m, d).

(** [datetime.isoformat()] of a UTC datetime with the [+00:00] offset
    already written as [Z]: the fraction is printed only when the
    microsecond field is not zero. *)
Definition datetime_isoformat_z (t : datetime) : string :=
  let secs := t / 1000000 in
  let us := t mod 1000000 in
  let '(y, m, d) := civil_from_days (secs / 86400) in
  let sod := secs mod 86400 in
  pad4 y +:+ "-" +:+ pad2 m +:+ "-" +:+ pad2 d +:+ "T" +:+
  pad2 (sod / 3600) +:+ ":" +:+ pad2 (sod / 60 mod 60) +:+ ":" +:+ pad2 (sod mod 60) +:+
  (if us =? 0 then "" else "." +:+ pad6 us) +:+ "Z".

(** [isoformat(value)] of [webticker_lib]:
    [value.astimezone(utc).replace(microsecond=0).isoformat().replace("+00:00", "Z")] *)
Definition isoformat (value : datetime) : string :=
  datetime_isoformat_z (replace_microsecond0 value).


(** ** Canonical records ([webticker_lib.py]) *)

Definition HISTORY_VERSION : Z := 1.

(** The dict returned by [normalize_trade]: [ticket] is a [str], [volume]
    and [profit] are floats, [closed_at] is a datetime and [opened_at] a
    datetime or [None]; the other fields are passed through from the log
    payload. *)
Record NTrade : Type := {
  nt_ticket : string;
  nt_symbol : json;
  nt_volume : Q;
  nt_profit : Q;
  nt_order_type : json;
  nt_comment : json;
  nt_opened_at : option datetime;
  nt_closed_at : datetime;
  nt_tp_label : json;
  nt_sl_label : json;
}.

(** The dict returned by [normalize_snapshot]. *)
Record NSnapshot : Type := {
  ns_timestamp : datetime;
  ns_balance : Q;
  ns_equity : Q;
  ns_floating : Q;
}.

Definition serialize_trade (trade : NTrade) : dict :=
  list_to_map [
    ("ticket", JStr (nt_ticket trade));
    ("symbol", nt_symbol trade);
    ("volume", JFloat (py_round (nt_volume trade) 5));
    ("profit", JFloat (py_round (nt_profit trade) 5));
    ("order_type", nt_order_type trade);
    ("comment", nt_comment trade);
    ("opened_at", match nt_opened_at trade with
                  | Some t => JStr (isoformat t)
                  | None => JNull
                  end);
    ("closed_at", JStr (isoformat (nt_closed_at trade)));
    ("tp_label", nt_tp_label trade);
    ("sl_label", nt_sl_label trade)
  ].

Definition serialize_snapshot (snapshot : NSnapshot) : dict :=
  list_to_map [
    ("timestamp", JStr (isoformat (ns_timestamp snapshot)));
    ("balance", JFloat (py_round (ns_balance snapshot) 2));
    ("equity", JFloat (py_round (ns_equity snapshot) 2));
    ("floating", JFloat (py_round (ns_floating snapshot) 2))
  ].

(** ** The merge engine ([merge_history] of [TKB-WebTicker.py]) *)

(** The history as [load_history] returns it: the stored records are the
    JSON objects of the history file. *)
Record History : Type := {
  h_version : json;
  h_trades : list dict;
  h_snapshots : list dict;
}.

(** State of either loop: the stored list, the set of seen keys and the
    [appended] flag. *)
Definition merge_state : Type := list dict * gset json * bool.

(** One iteration of [for trade in trades].  [str(trade.get("ticket"))] is
    the ticket itself, a normalized ticket being a [str]. *)
Definition trade_step (st : merge_state) (trade : NTrade) : merge_state :=
  let '(stored, existing_tickets, appended) := st in
  let ticket := JStr (nt_ticket trade) in
  if negb (truthy ticket) || bool_decide (ticket ∈ existing_tickets) then st
  else (stored ++ [serialize_trade trade], {[ticket]} ∪ existing_tickets, true).

(** One iteration of [for snap in snapshots]. *)
Definition snapshot_step (st : merge_state) (snap : NSnapshot) : merge_state :=
  let '(stored, existing_snaps, appended) := st in
  let serialized := serialize_snapshot snap in
  let stamp := py_get serialized "timestamp" in
  if negb (truthy stamp) || bool_decide (stamp ∈ existing_snaps) then st
  else (stored ++ [serialized], {[stamp]} ∪ existing_snaps, true).

Definition trade_sort_key (item : dict) : json :=
  py_get_default item "closed_at" (JStr "").

Definition snapshot_sort_key (item : dict) : json :=
  py_get_default item "timestamp" (JStr "").

(** [merge_history] updates [history] in place and returns [None]; the
    model returns the updated history, or the exception raised by a sort. *)
Definition merge_history (history : History) (trades : list NTrade)
    (snapshots : list NSnapshot) : result History :=
  let existing_tickets : gset json :=
    list_to_set ((λ entry, py_get entry "ticket") <$> h_trades history) in
  let '(stored_trades, _, appended) :=
    foldl trade_step (h_trades history, existing_tickets, false) trades in
  new_trades ←
    (if appended : bool then py_sorted trade_sort_key false stored_trades
     else Ok stored_trades);
  let existing_snaps : gset json :=
    list_to_set ((λ entry, py_get entry "timestamp") <$> h_snapshots history) in
  let '(stored_snaps, _, appended) :=
    foldl snapshot_step (h_snapshots history, existing_snaps, false) snapshots in
  new_snaps ←
    (if appended : bool then py_sorted snapshot_sort_key false stored_snaps
     else Ok stored_snaps);
  Ok {| h_version := JInt HISTORY_VERSION;
        h_trades := new_trades;
        h_snapshots := new_snaps |}.

(** The empty history [load_history] starts from when there is no file. *)
Definition empty_history : History :=
  {| h_version := JInt HISTORY_VERSION; h_trades := []; h_snapshots := [] |}.

(** ** Text helpers

    [str] objects are modelled as byte strings; case mapping and whitespace
    are those of ASCII. *)

Definition is_space (c : ascii) : bool :=
  let n := N_of_ascii c in
  ((9 <=? n) && (n <=? 13) || (28 <=? n) && (n <=? 32))%N.

Fixpoint py_lstrip (s : string) : string :=
  match s with
  | String c s' => if is_space c then py_lstrip s' else s
  | EmptyString => EmptyString
  end.

(** [s.strip()] *)
Definition py_strip (s : string) : string :=
  String.rev (py_lstrip (String.rev (py_lstrip s))).

Definition lower_ascii (c : ascii) : ascii :=
  let n := N_of_ascii c in
  if ((65 <=? n) && (n <=? 90))%N then ascii_of_N (n + 32) else c.

Definition upper_ascii (c : ascii) : ascii :=
  let n := N_of_ascii c in
  if ((97 <=? n) && (n <=? 122))%N then ascii_of_N (n - 32) else c.

Fixpoint map_string (f : ascii → ascii) (s : string) : string :=
  match s with
  | String c s' => String (f c) (map_string f s')
  | EmptyString => EmptyString
  end.

(** [s.lower()] and [s.upper()] *)
Definition py_lower : string → string := map_string lower_ascii.
Definition py_upper : string → string := map_string upper_ascii.

(** [sub in s] *)
Fixpoint py_in (sub s : string) : bool :=
  String.prefix sub s ||
  match s with
  | String _ s' => py_in sub s'
  | EmptyString => false
  end.

(** [s.endswith("Z")] *)
Fixpoint endswith_Z (s : string) : bool :=
  match s with
  | EmptyString => false
  | String c EmptyString => Ascii.eqb c "Z"
  | String _ s' => endswith_Z s'
  end.

(** [s.replace("Z", "+00:00")]: every occurrence is replaced. *)
Fixpoint replace_Z (s : string) : string :=
  match s with
  | EmptyString => EmptyString
  | String c s' =>
      if Ascii.eqb c "Z" then "+00:00" +:+ replace_Z s' else String c (replace_Z s')
  end.

(** ** The normalizer ([webticker_lib.py])

    Three builtins of the Python runtime are taken as parameters:
    [float_repr x] is [str(x)] of a float, [float_of_string s] is [float(s)]
    of a [str] and [fromisoformat s] is
    [datetime.fromisoformat(s).astimezone(timezone.utc)]; the last two give
    [None] where Python raises [ValueError]. *)
Record Runtime : Type := {
  float_repr : Q → string;
  float_of_string : string → option Q;
  fromisoformat : string → option datetime;
}.

(** A payload of the state log with the timestamp of its line, which
    [load_state_entries] stores under [_log_timestamp]. *)
Record LogEntry : Type := {
  payload : dict;
  log_timestamp : datetime;
}.

Section normalizer.
Context (rt : Runtime).

(** [str(value)] *)
Definition py_str (value : json) : string :=
  match value with
  | JNull => "None"
  | JBool b => if b then "True" else "False"
  | JInt n => pretty n
  | JFloat q => float_repr rt q
  | JStr s => s
  end.

(** [float(value)] *)
Definition py_float (value : json) : result Q :=
  match value with
  | JNull => Raise TypeError
  | JBool b => Ok (if b then 1%Q else 0%Q)
  | JInt n => float_of_int n
  | JFloat q => Ok q
  | JStr s =>
      match float_of_string rt s with
      | Some q => Ok q
      | None => Raise ValueError
      end
  end.

Definition parse_iso_datetime (value : json) : result (option datetime) :=
  if negb (truthy value) then Ok None
  else
    match value with
    | JStr s =>
        let cleaned := py_strip s in
        let cleaned := if endswith_Z cleaned then replace_Z cleaned else cleaned in
        match fromisoformat rt cleaned with
        | Some t => Ok (Some t)
        | None => Raise ValueError
        end
    | _ => Raise AttributeError
    end.

Definition normalize_trade (entry : LogEntry) : result NTrade :=
  parsed ← parse_iso_datetime (py_get (payload entry) "closed_at");
  let closed_at := default (log_timestamp entry) parsed in
  opened_at ← parse_iso_datetime (py_get (payload entry) "opened_at");
  let comment := py_or (py_get (payload entry) "comment") (py_get (payload entry) "label") in
  let order_type :=
    py_or (py_or (py_get (payload entry) "order_type")
                 (py_get (payload entry) "direction"))
          (py_get (payload entry) "side") in
  let ticket := py_str (py_get (payload entry) "ticket") in
  volume ← py_float (py_get_default (payload entry) "volume" (JFloat 0));
  profit ← py_float (py_get_default (payload entry) "profit" (JFloat 0));
  Ok {| nt_ticket := ticket;
        nt_symbol := py_get_default (payload entry) "symbol" (JStr "UNKNOWN");
        nt_volume := volume;
        nt_profit := profit;
        nt_order_type := order_type;
        nt_comment := comment;
        nt_opened_at := opened_at;
        nt_closed_at := closed_at;
        nt_tp_label := py_get (payload entry) "tp_label";
        nt_sl_label := py_get (payload entry) "sl_label" |}.

Definition normalize_snapshot (entry : LogEntry) : result NSnapshot :=
  parsed ← parse_iso_datetime (py_get (payload entry) "timestamp");
  let stamp := default (log_timestamp entry) parsed in
  balance ← py_float (py_get_default (payload entry) "balance" (JFloat 0));
  equity ← py_float (py_get_default (payload entry) "equity" (JFloat 0));
  floating ← py_float (py_get_default (payload entry) "floating" (JFloat 0));
  Ok {| ns_timestamp := stamp;
        ns_balance := balance;
        ns_equity := equity;
        ns_floating := floating |}.
End normalizer.

(** ** The aggregation engine ([TKB-WebTicker.py]) *)

(** A trade as [_materialize_trades] builds it: [volume] and [profit] are
    floats, [closed_at] is a datetime, and the text fields hold what the
    history file documents for them, a string or [null]. *)
Record MTrade : Type := {
  mt_ticket : option string;
  mt_symbol : option string;
  mt_volume : Q;
  mt_profit : Q;
  mt_order_type : option string;
  mt_comment : option string;
  mt_opened_at : option datetime;
  mt_closed_at : datetime;
  mt_tp_label : option string;
  mt_sl_label : option string;
  mt_exit_reason : option string;
}.

(** Truth value of a [str | None] field. *)
Definition present (value : option string) : bool :=
  match value with
  | Some s => negb (String.eqb s "")
  | None => false
  end.

Record Summary : Type := {
  s_profit : Q;
  s_trades : Z;
  s_wins : Z;
  s_losses : Z;
  s_win_rate : Q;
}.

(** [sum(...)] of floats and of ones: the items are added from the left,
    starting from [0] (CPython up to 3.11; later versions compensate the
    rounding errors of a float sum). *)
Definition py_sum (l : list Q) : Q := foldl float_add 0%Q l.
Definition py_count {A} (l : list A) : Z := foldl Z.add 0 ((λ _, 1) <$> l).

(** [x / y] on two [int]s: the double nearest to the quotient; it raises
    when the divisor is zero. *)
Definition py_truediv (x y : Z) : result Q :=
  if y =? 0 then Raise ZeroDivisionError
  else Ok (round_double (inject_Z x / inject_Z y)).

Definition empty_summary : Summary :=
  {| s_profit := 0; s_trades := 0; s_wins := 0; s_losses := 0; s_win_rate := 0 |}.

Definition summarize_trades (trades : list MTrade) : result Summary :=
  match trades with
  | [] => Ok empty_summary
  | _ =>
      let profit := py_sum (mt_profit <$> trades) in
      let wins := py_count (List.filter (λ trade, Qltb 0 (mt_profit trade)) trades) in
      let losses := py_count (List.filter (λ trade, Qltb (mt_profit trade) 0) trades) in
      let total := Z.of_nat (length trades) in
      win_rate ←
        (if negb (total =? 0)
         then ratio ← py_truediv wins total;
              Ok (py_round (float_mul ratio 100) 2)
         else Ok 0%Q);
      Ok {| s_profit := py_round profit 2;
            s_trades := total;
            s_wins := wins;
            s_losses := losses;
            s_win_rate := win_rate |}
  end.

Definition _canonical_side (order_type : option string) : string :=
  if negb (present order_type) then ""
  else
    let side := py_upper (default "" order_type) in
    if py_in "BUY" side then "BUY"
    else if py_in "SELL" side then "SELL"
    else side.

(** *** Exit classifier *)

Definition EXIT_LABELS : gmap string string :=
  list_to_map [("tp", "Exit: TP"); ("sl", "Exit: SL"); ("manual", "Exit Manual")].

Definition _DEFAULT_EXIT_TYPE : string := "manual".

Definition _TP_REASON_HINTS : list string :=
  ["deal_reason_tp"; "tp_hit"; "takeprofit"; "take profit"; "target_tp"].
Definition _SL_REASON_HINTS : list string :=
  ["deal_reason_sl"; "sl_hit"; "stoploss"; "stop loss"; "target_sl"].
Definition _TP_COMMENT_HINTS : list string :=
  ["[tp"; " tp"; "tp "; "tp:"; "tp-"; "tp hit"; "take profit"].
Definition _SL_COMMENT_HINTS : list string :=
  ["[sl"; " sl"; "sl "; "sl:"; "sl-"; "sl hit"; "stop loss"].

Definition _normalize_text (value : string) : string :=
  py_lower (py_strip value).

Definition _contains_hint (value : option string) (hints : list string) : bool :=
  if negb (present value) then false
  else
    let text := _normalize_text (default "" value) in
    existsb (λ hint, py_in hint text) hints.

Definition determine_exit_type (trade : option MTrade) : string :=
  match trade with
  | None => _DEFAULT_EXIT_TYPE
  | Some trade =>
      if present (mt_tp_label trade) then "tp"
      else if _contains_hint (mt_exit_reason trade) _TP_REASON_HINTS then "tp"
      else if _contains_hint (mt_comment trade) _TP_COMMENT_HINTS then "tp"
      else if present (mt_sl_label trade) then "sl"
      else if _contains_hint (mt_exit_reason trade) _SL_REASON_HINTS then "sl"
      else if _contains_hint (mt_comment trade) _SL_COMMENT_HINTS then "sl"
      else _DEFAULT_EXIT_TYPE
  end.

Definition _build_exit_label (exit_type : string) : string :=
  default (default "" (EXIT_LABELS !! _DEFAULT_EXIT_TYPE)) (EXIT_LABELS !! exit_type).

(** The dict returned by [summarize_single_trade]; [ts_comment] is [None]
    when the key has been popped. *)
Record TSummary : Type := {
  ts_ticket : option string;
  ts_symbol : option string;
  ts_profit : Q;
  ts_volume : Q;
  ts_order_type : string;
  ts_closed_at : option string;
  ts_exit : string;
  ts_exit_type : string;
  ts_comment : option (option string);
}.

Definition summarize_single_trade (trade : option MTrade) (include_comment : bool)
    : option TSummary :=
  match trade with
  | None => None
  | Some t =>
      let exit_type := determine_exit_type trade in
      Some {| ts_ticket := mt_ticket t;
              ts_symbol := mt_symbol t;
              ts_profit := py_round (mt_profit t) 2;
              ts_volume := py_round (mt_volume t) 2;
              ts_order_type := _canonical_side (mt_order_type t);
              ts_closed_at := Some (isoformat (mt_closed_at t));
              ts_exit := _build_exit_label exit_type;
              ts_exit_type := exit_type;
              ts_comment := if include_comment then Some (mt_comment t) else None |}
  end.

(** *** Rolling windows *)

Definition WINDOWS : list (string * (Z * string)) :=
  [("7d", (7, "Letzte 7 Tage")); ("30d", (30, "Letzte 30 Tage"));
   ("365d", (365, "Letzte 365 Tage"))].

(** [max(l, key=f, default=None)] and [min(l, key=f, default=None)]: the
    candidate is replaced only by a strictly better element, so the first
    of several extremal elements is returned. *)
Section extremum.
Context {A : Type} (f : A → Q).

Fixpoint max_from (best : A) (l : list A) : A :=
  match l with
  | [] => best
  | x :: l' => max_from (if Qltb (f best) (f x) then x else best) l'
  end.

Fixpoint min_from (best : A) (l : list A) : A :=
  match l with
  | [] => best
  | x :: l' => min_from (if Qltb (f x) (f best) then x else best) l'
  end.

Definition py_max (l : list A) : option A :=
  match l with
  | [] => None
  | x :: l' => Some (max_from x l')
  end.

Definition py_min (l : list A) : option A :=
  match l with
  | [] => None
  | x :: l' => Some (min_from x l')
  end.
End extremum.

(** The summary dict of one window, with its two added keys. *)
Record WSummary : Type := {
  w_summary : Summary;
  w_best_trade : option TSummary;
  w_worst_trade : option TSummary;
}.

Definition window_trades (now : datetime) (days : Z) (trades : list MTrade)
    : list MTrade :=
  let cutoff := now - timedelta_days days in
  filter (λ trade, cutoff ≤ mt_closed_at trade) trades.

(** The body of the loop of [build_windows]. *)
Definition build_window (now : datetime) (days : Z) (trades : list MTrade)
    : result WSummary :=
  let selected := window_trades now days trades in
  summary ← summarize_trades selected;
  let best_trade := py_max mt_profit selected in
  let worst_trade := py_min mt_profit selected in
  Ok {| w_summary := summary;
        w_best_trade := summarize_single_trade best_trade false;
        w_worst_trade := summarize_single_trade worst_trade false |}.

(** [build_windows]; the clock reading [datetime.now(timezone.utc)] is the
    argument [now]. *)
Definition build_windows (now : datetime) (trades : list MTrade)
    : result (gmap string WSummary) :=
  foldl (λ acc '(key, (days, _)),
           windows ← acc;
           summary ← build_window now days trades;
           Ok (<[key := summary]> windows))
        (Ok ∅) WINDOWS.

(** *** Per-symbol ranking *)

Record Bucket : Type := {
  b_symbol : option string;
  b_profit : Q;
  b_trades : Z;
  b_wins : Z;
  b_losses : Z;
}.

(** A bucket after [entry["rank"] = idx]. *)
Record RankedBucket : Type := {
  rb_bucket : Bucket;
  rb_rank : Z;
}.

Definition add_trade (trade : MTrade) (bucket : Bucket) : Bucket :=
  {| b_symbol := b_symbol bucket;
     b_profit := float_add (b_profit bucket) (mt_profit trade);
     b_trades := b_trades bucket + 1;
     b_wins := if Qltb 0 (mt_profit trade) then b_wins bucket + 1 else b_wins bucket;
     b_losses :=
       if Qltb 0 (mt_profit trade) then b_losses bucket
       else if Qltb (mt_profit trade) 0 then b_losses bucket + 1
       else b_losses bucket |}.

(** [stats] is a dict, which keeps its keys in insertion order:
    [stats.setdefault(symbol, fresh)] followed by the update of the bucket.
    A materialized trade always has the key [symbol], so
    [trade.get("symbol", "UNKWN")] is the stored symbol, [None] included. *)
Fixpoint stats_update (stats : list (option string * Bucket)) (trade : MTrade)
    : list (option string * Bucket) :=
  let symbol := mt_symbol trade in
  match stats with
  | [] =>
      [(symbol, add_trade trade
          {| b_symbol := symbol; b_profit := 0; b_trades := 0; b_wins := 0; b_losses := 0 |})]
  | (k, bucket) :: rest =>
      if decide (k = symbol) then (k, add_trade trade bucket) :: rest
      else (k, bucket) :: stats_update rest trade
  end.

Definition build_symbol_lists (trades : list MTrade)
    : result (list RankedBucket * list RankedBucket) :=
  let stats := foldl stats_update [] trades in
  ordered ← py_sorted (λ item, JFloat (b_profit item)) true (stats.*2);
  let ordered :=
    imap (λ idx entry, {| rb_bucket := entry; rb_rank := Z.of_nat idx + 1 |}) ordered in
  let top := take 5 ordered in
  let bottom_slice := drop (length ordered - 5) ordered in
  bottom ← py_sorted (λ item, JInt (rb_rank item)) false bottom_slice;
  Ok (top, bottom).

(** ** The remaining aggregations ([TKB-WebTicker.py]) *)

(** [l[start:]] for a possibly negative [start]. *)
Definition py_slice_from {A} (start : Z) (l : list A) : list A :=
  let n := Z.of_nat (length l) in
  let first := if start <? 0 then Z.max 0 (n + start) else Z.min start n in
  drop (Z.to_nat first) l.

(** [build_recent_trades(trades, limit)]: [trades[-limit:][::-1]], each
    trade summarized with its comment; a summary is appended when it is
    truthy, which every summary of a trade is. *)
Definition build_recent_trades (trades : list MTrade) (limit : Z) : list TSummary :=
  let recent := reverse (py_slice_from (- limit) trades) in
  omap (λ trade, summarize_single_trade (Some trade) true) recent.

(** One bucket of the daily breakdown. *)
Record DayBucket : Type := {
  d_date : string;
  d_profit : Q;
  d_trades : Z;
}.

(** [value.date().isoformat()] of a UTC datetime. *)
Definition date_isoformat (t : datetime) : string :=
  let '(y, m, d) := civil_from_days (t / 1000000 / 86400) in
  pad4 y +:+ "-" +:+ pad2 m +:+ "-" +:+ pad2 d.

(** [buckets.setdefault(key, fresh)] followed by the update of the bucket;
    [buckets] keeps its keys in insertion order. *)
Fixpoint daily_update (buckets : list (string * DayBucket)) (key : string)
    (profit : Q) : list (string * DayBucket) :=
  match buckets with
  | [] => [(key, {| d_date := key; d_profit := float_add 0 profit; d_trades := 0 + 1 |})]
  | (k, bucket) :: rest =>
      if decide (k = key)
      then (k, {| d_date := d_date bucket;
                  d_profit := float_add (d_profit bucket) profit;
                  d_trades := d_trades bucket + 1 |}) :: rest
      else (k, bucket) :: daily_update rest key profit
  end.

Definition daily_step (cutoff : datetime) (buckets : list (string * DayBucket))
    (trade : MTrade) : list (string * DayBucket) :=
  if decide (mt_closed_at trade < cutoff) then buckets
  else daily_update buckets (date_isoformat (mt_closed_at trade)) (mt_profit trade).

(** [build_daily_breakdown(trades, days)]; the clock reading is the argument
    [now]. *)
Definition build_daily_breakdown (now : datetime) (trades : list MTrade) (days : Z)
    : result (list DayBucket) :=
  let cutoff := now - timedelta_days days in
  let buckets := foldl (daily_step cutoff) [] trades in
  py_sorted (λ item, JStr (d_date item)) false (buckets.*2).

(** *** Reading the history back ([_materialize_trades],
    [_materialize_snapshots])

    The materialized trade keeps the text fields of the stored record as the
    JSON values they are. *)
Record Materialized : Type := {
  m_ticket : json;
  m_symbol : json;
  m_volume : Q;
  m_profit : Q;
  m_order_type : json;
  m_comment : json;
  m_opened_at : option datetime;
  m_closed_at : datetime;
  m_tp_label : json;
  m_sl_label : json;
  m_exit_reason : json;
}.

(** A [for] loop whose body may raise. *)
Fixpoint result_foldl {A B : Type} (f : B → A → result B) (b : B) (l : list A)
    : result B :=
  match l with
  | [] => Ok b
  | x :: l' => b' ← f b x; result_foldl f b' l'
  end.

Section materializer.
Context (rt : Runtime).

(** One iteration of [for entry in history.get("trades", [])].  Both
    timestamps are parsed before the [closed_at] test; a parsed datetime is
    always true, so [not closed_at] holds exactly for [None]. *)
Definition materialize_trade (trades : list Materialized) (entry : dict)
    : result (list Materialized) :=
  closed_at ← parse_iso_datetime rt (py_get entry "closed_at");
  opened_at ← parse_iso_datetime rt (py_get entry "opened_at");
  match closed_at with
  | None => Ok trades
  | Some closed =>
      volume ← py_float rt (py_get_default entry "volume" (JFloat 0));
      profit ← py_float rt (py_get_default entry "profit" (JFloat 0));
      Ok (trades ++ [{| m_ticket := py_get entry "ticket";
                        m_symbol := py_get entry "symbol";
                        m_volume := volume;
                        m_profit := profit;
                        m_order_type := py_get entry "order_type";
                        m_comment := py_get entry "comment";
                        m_opened_at := opened_at;
                        m_closed_at := closed;
                        m_tp_label := py_get entry "tp_label";
                        m_sl_label := py_get entry "sl_label";
                        m_exit_reason := py_get entry "exit_reason" |}])
  end.

(** Datetimes are ordered by their instant; as a sort key the instant is
    its number of microseconds. *)
Definition _materialize_trades (history : History) : result (list Materialized) :=
  trades ← result_foldl materialize_trade [] (h_trades history);
  py_sorted (λ trade, JInt (m_closed_at trade)) false trades.

(** One iteration of [for entry in history.get("snapshots", [])]; the
    result has the fields of a normalized snapshot. *)
Definition materialize_snapshot (snaps : list NSnapshot) (entry : dict)
    : result (list NSnapshot) :=
  timestamp ← parse_iso_datetime rt (py_get entry "timestamp");
  match timestamp with
  | None => Ok snaps
  | Some stamp =>
      balance ← py_float rt (py_get_default entry "balance" (JFloat 0));
      equity ← py_float rt (py_get_default entry "equity" (JFloat 0));
      floating ← py_float rt (py_get_default entry "floating" (JFloat 0));
      Ok (snaps ++ [{| ns_timestamp := stamp;
                        ns_balance := balance;
                        ns_equity := equity;
                        ns_floating := floating |}])
  end.

Definition _materialize_snapshots (history : History) : result (list NSnapshot) :=
  snaps ← result_foldl materialize_snapshot [] (h_snapshots history);
  py_sorted (λ snap, JInt (ns_timestamp snap)) false snaps.
End materializer.

(** *** The payload ([build_payload])

    [project] is the section [config.get("project", {})] of the
    configuration, a flat JSON object.  The clock is read three times: by
    [build_payload] itself, by [build_windows] and by
    [build_daily_breakdown]. *)
Record Account : Type := {
  a_balance : Q;
  a_equity : Q;
  a_floating : Q;
  a_snapshot_at : option string;
}.

(** The [meta] dict; the last three keys are set only while trading is
    paused. *)
Record Meta : Type := {
  meta_bot : json;
  meta_generated_at : string;
  meta_snapshot_at : option string;
  meta_trade_active : bool;
  meta_status : option string;
  meta_pause_message : option json;
  meta_pause_since : option string;
}.

Record Payload : Type := {
  p_meta : Meta;
  p_account : Account;
  p_overall : Summary;
  p_windows : gmap string WSummary;
  p_top_symbols : list RankedBucket;
  p_bottom_symbols : list RankedBucket;
  p_recent_trades : list TSummary;
  p_daily_breakdown : list DayBucket;
  p_history : History;
}.

Definition build_payload (history : History) (trades : list MTrade)
    (snapshots : list NSnapshot) (project : dict) (trade_active : bool)
    (pause_message : json) (now now_windows now_daily : datetime) : result Payload :=
  let project_name := py_get_default project "name" (JStr "Sharrow") in
  let latest_snapshot := last snapshots in
  let account :=
    {| a_balance := from_option (λ snap, py_round (ns_balance snap) 2) 0%Q latest_snapshot;
       a_equity := from_option (λ snap, py_round (ns_equity snap) 2) 0%Q latest_snapshot;
       a_floating := from_option (λ snap, py_round (ns_floating snap) 2) 0%Q latest_snapshot;
       a_snapshot_at := (λ snap, isoformat (ns_timestamp snap)) <$> latest_snapshot |} in
  overall ← summarize_trades trades;
  windows ← build_windows now_windows trades;
  lists ← build_symbol_lists trades;
  let recent_trades := build_recent_trades trades 10 in
  daily_breakdown ← build_daily_breakdown now_daily trades 7;
  let meta :=
    {| meta_bot := project_name;
       meta_generated_at := isoformat now;
       meta_snapshot_at := a_snapshot_at account;
       meta_trade_active := trade_active;
       meta_status := if trade_active then None else Some "paused";
       meta_pause_message :=
         if trade_active then None
         else Some (py_or pause_message (JStr "Handel aktuell ausgesetzt."));
       meta_pause_since := if trade_active then None else Some (isoformat now) |} in
  Ok {| p_meta := meta;
        p_account := account;
        p_overall := overall;
        p_windows := windows;
        p_top_symbols := lists.1;
        p_bottom_symbols := lists.2;
        p_recent_trades := recent_trades;
        p_daily_breakdown := daily_breakdown;
        p_history := history |}.

(** *** Rows of the recent-trade feed ([chunked] of [render_html]) *)

(** [range(start, stop, step)]: the step must not be zero; the number of
    elements is that of Python's [range] object. *)
Fixpoint range_from (count : nat) (start step : Z) : list Z :=
  match count with
  | O => []
  | S count' => start :: range_from count' (start + step) step
  end.

Definition py_range (start stop step : Z) : result (list Z) :=
  if step =? 0 then Raise ValueError
  else
    let count :=
      if 0 <? step then (stop - start + step - 1) / step
      else (start - stop - step - 1) / (- step) in
    Ok (range_from (Z.to_nat count) start step).

(** [items[lo:hi]] for [0 <= lo]. *)
Definition py_slice {A} (items : list A) (lo hi : Z) : list A :=
  let n := Z.of_nat (length items) in
  let last := if hi <? 0 then Z.max 0 (n + hi) else Z.min hi n in
  take (Z.to_nat (last - lo)) (drop (Z.to_nat lo) items).

Definition chunked {A} (items : list A) (size : Z) : result (list (list A)) :=
  match py_range 0 (Z.of_nat (length items)) size with
  | Ok indices => Ok ((λ idx, py_slice items idx (idx + size)) <$> indices)
  | Raise e => Raise e
  end.

(** ** The initial import ([TKB-WebTicker-initial.py])

    [merge_trades] receives the trades of the account statement and the
    normalized trades of the state log.  In both, [ticket] is a [str],
    [volume] and [profit] are floats, [closed_at] is a datetime and
    [opened_at] a datetime or [None], so they are modelled by the record of
    normalized trades; the statement rows carry no [tp_label] and
    [sl_label].  With such inputs neither [isinstance(..., str)] test holds
    and [closed_at] is always true. *)

(** [d[k] = v] on a dict in insertion order: a key already present keeps
    its place. *)
Fixpoint dict_assign {V : Type} (d : list (string * V)) (k : string) (v : V)
    : list (string * V) :=
  match d with
  | [] => [(k, v)]
  | (k', v') :: rest =>
      if decide (k' = k) then (k', v) :: rest else (k', v') :: dict_assign rest k v
  end.

(** One iteration of [for trade in trades].  The dict stored under the
    ticket has no [tp_label] and [sl_label] keys; [serialize_trade] reads
    them with [get], which gives [None]. *)
Definition merge_trades_step (merged : list (string * NTrade)) (trade : NTrade)
    : list (string * NTrade) :=
  let ticket := nt_ticket trade in
  if negb (truthy (JStr ticket)) then merged
  else dict_assign merged ticket
         {| nt_ticket := ticket;
            nt_symbol := nt_symbol trade;
            nt_volume := nt_volume trade;
            nt_profit := nt_profit trade;
            nt_order_type := nt_order_type trade;
            nt_comment := nt_comment trade;
            nt_opened_at := nt_opened_at trade;
            nt_closed_at := nt_closed_at trade;
            nt_tp_label := JNull;
            nt_sl_label := JNull |}.

Definition merge_trades (trade_lists : list (list NTrade)) : result (list NTrade) :=
  let merged := foldl (foldl merge_trades_step) [] trade_lists in
  let normalized := merged.*2 in
  py_sorted (λ trade, JInt (nt_closed_at trade)) false normalized.

Definition build_history (trades : list NTrade) (snapshots : list NSnapshot) : History :=
  {| h_version := JInt HISTORY_VERSION;
     h_trades := serialize_trade <$> trades;
     h_snapshots := serialize_snapshot <$> snapshots |}.

(** *** The account statement ([parse_statement_html])

    The HTML report is taken as parsed: [table] is [None] when the document
    has no table, and otherwise lists, for each [tr] of the first table, the
    stripped texts of its [td] and [th] cells.  [strptime s] is
    [datetime.strptime(s, "%Y.%m.%d %H:%M:%S").replace(tzinfo=timezone.utc)],
    [None] where Python raises [ValueError]. *)

(** The characters [re.sub(r"[^\d\-\.]", "", s)] keeps. *)
Definition is_number_char (c : ascii) : bool :=
  let n := N_of_ascii c in
  ((48 <=? n) && (n <=? 57) || (n =? 45) || (n =? 46))%N.

Fixpoint string_filter (f : ascii → bool) (s : string) : string :=
  match s with
  | EmptyString => EmptyString
  | String c s' => if f c then String c (string_filter f s') else string_filter f s'
  end.

(** [value.replace(",", ".")] *)
Definition replace_comma : string → string :=
  map_string (λ c, if Ascii.eqb c "," then "."%char else c).

Definition _parse_float (rt : Runtime) (value : string) : Q :=
  let cleaned := string_filter is_number_char (replace_comma value) in
  match float_of_string rt cleaned with
  | Some q => q
  | None => 0
  end.

(** [len(cells) >= 7 and cells[0].lower().startswith("zeit")] *)
Definition is_header (cells : list string) : bool :=
  (7 <=? length cells)%nat &&
  match cells with
  | first :: _ => String.prefix "zeit" (py_lower first)
  | [] => false
  end.

(** The index of the column row: the first row that passes the test. *)
Fixpoint column_row_idx (rows : list (list string)) (idx : nat) : option nat :=
  match rows with
  | [] => None
  | cells :: rest => if is_header cells then Some idx else column_row_idx rest (S idx)
  end.

Section statement.
Context (rt : Runtime) (strptime : string → option datetime).

(** The loop over the rows below the column row, with its two [break]s and
    two [continue]s. *)
Fixpoint statement_rows (rows : list (list string)) (trades : list NTrade)
    : list NTrade :=
  match rows with
  | [] => trades
  | cells :: rest =>
      match cells with
      | [] => trades
      | first :: _ =>
          if String.prefix "Ergebnisse" first || String.prefix "Balanceoperationen" first
          then trades
          else if (length cells <? 14)%nat then statement_rows rest trades
          else
            let open_time := first in
            let ticket := default "" (cells !! 1%nat) in
            let symbol := default "" (cells !! 2%nat) in
            let order_type := default "" (cells !! 3%nat) in
            let comment := default "" (cells !! 4%nat) in
            let volume := _parse_float rt (default "" (cells !! 5%nat)) in
            let close_time := default "" (cells !! 9%nat) in
            let profit := _parse_float rt (default "" (last cells)) in
            match strptime open_time, strptime close_time with
            | Some opened_at, Some closed_at =>
                statement_rows rest
                  (trades ++ [{| nt_ticket := ticket;
                                 nt_symbol := JStr symbol;
                                 nt_volume := volume;
                                 nt_profit := profit;
                                 nt_order_type := JStr order_type;
                                 nt_comment := JStr comment;
                                 nt_opened_at := Some opened_at;
                                 nt_closed_at := closed_at;
                                 nt_tp_label := JNull;
                                 nt_sl_label := JNull |}])
            | _, _ => statement_rows rest trades
            end
      end
  end.

Definition parse_statement_html (table : option (list (list string)))
    : result (list NTrade) :=
  match table with
  | None => Raise ValueError
  | Some rows =>
      match column_row_idx rows 0 with
      | None => Raise ValueError
      | Some idx => Ok (statement_rows (drop (S idx) rows) [])
      end
  end.
End statement.

(** ** Specification-level definitions *)

(** Both loops of [merge_history] are instances of one deduplicating step,
    and [accepted] lists the inputs that such a loop appends. *)
Section dedup.
Context {A : Type} (key : A → json) (ser : A → dict).

Definition dedup_step (st : merge_state) (x : A) : merge_state :=
  let '(stored, seen, appended) := st in
  if negb (truthy (key x)) || bool_decide (key x ∈ seen) then st
  else (stored ++ [ser x], {[key x]} ∪ seen, true).

Fixpoint accepted (seen : gset json) (xs : list A) : list A :=
  match xs with
  | [] => []
  | x :: xs' =>
      if negb (truthy (key x)) || bool_decide (key x ∈ seen) then accepted seen xs'
      else x :: accepted ({[key x]} ∪ seen) xs'
  end.
End dedup.

Definition ticket_key (trade : NTrade) : json := JStr (nt_ticket trade).
Definition stamp_key (snap : NSnapshot) : json :=
  py_get (serialize_snapshot snap) "timestamp".

Definition stored_tickets (stored : list dict) : gset json :=
  list_to_set ((λ entry, py_get entry "ticket") <$> stored).
Definition stored_stamps (stored : list dict) : gset json :=
  list_to_set ((λ entry, py_get entry "timestamp") <$> stored).

(** The trades and snapshots that a merge appends to a history. *)
Definition appended_trades (history : History) (trades : list NTrade) : list NTrade :=
  accepted ticket_key (stored_tickets (h_trades history)) trades.
Definition appended_snapshots (history : History) (snapshots : list NSnapshot)
    : list NSnapshot :=
  accepted stamp_key (stored_stamps (h_snapshots history)) snapshots.

(** [a <= b] on sort keys: the comparison [b < a] is defined and false. *)
Definition key_le (a b : json) : Prop := py_lt b a = Ok false.

(** A stored list is non-decreasing by the key its sort uses. *)
Definition sorted_by (key : dict → json) (l : list dict) : Prop :=
  StronglySorted (λ a b, key_le (key a) (key b)) l.

(** The order a sort establishes: ascending, or descending with
    [reverse=True]. *)
Definition sort_order {A : Type} (key : A → json) (reverse : bool) (a b : A) : Prop :=
  if reverse then key_le (key b) (key a) else key_le (key a) (key b).

(** The stored list a loop followed by its conditional sort produces. *)
Definition sort_if_appended {A} (key : dict → json) (news : list A)
    (stored : list dict) : result (list dict) :=
  if bool_decide (news ≠ []) then py_sorted key false stored else Ok stored.

(** Two datetimes in the same UTC second. *)
Definition same_second (t1 t2 : datetime) : Prop :=
  t1 / 1000000 = t2 / 1000000.

(** *** Sample data for the merge engine *)

Definition sample_trade (ticket : string) (profit : Q) (closed_at : datetime) : NTrade :=
  {| nt_ticket := ticket; nt_symbol := JStr "XAUUSD"; nt_volume := 1 # 10;
     nt_profit := profit; nt_order_type := JStr "buy"; nt_comment := JNull;
     nt_opened_at := None; nt_closed_at := closed_at;
     nt_tp_label := JNull; nt_sl_label := JNull |}.

Definition sample_snapshot (timestamp : datetime) (balance : Q) : NSnapshot :=
  {| ns_timestamp := timestamp; ns_balance := balance;
     ns_equity := balance; ns_floating := 0 |}.

(** 2024-01-01T00:00:00Z and 2024-01-02T00:00:00Z *)
Definition jan1 : datetime := 1704067200000000.
Definition jan2 : datetime := 1704153600000000.

(** A history that holds trade [A] and a snapshot taken on January 1st. *)
Definition sample_history : History :=
  {| h_version := JNull;
     h_trades := [serialize_trade (sample_trade "A" 5 jan2)];
     h_snapshots := [serialize_snapshot (sample_snapshot jan1 400)] |}.

(** New trades: [B], [A] again with another profit, [B] again with another
    profit, and a trade with an empty ticket. *)
Definition sample_trades : list NTrade :=
  [sample_trade "B" 7 jan1; sample_trade "A" 99 jan1;
   sample_trade "B" 8 jan2; sample_trade "" 1 jan1].

(** New snapshots: two within one second of January 2nd, and one at the
    stored timestamp. *)
Definition sample_snapshots : list NSnapshot :=
  [sample_snapshot (jan2 + 250000) 1000; sample_snapshot (jan2 + 750000) 2000;
   sample_snapshot jan1 500].

Definition sample_merged : History :=
  {| h_version := JInt 1;
     h_trades := [serialize_trade (sample_trade "B" 7 jan1);
                  serialize_trade (sample_trade "A" 5 jan2)];
     h_snapshots := [serialize_snapshot (sample_snapshot jan1 400);
                     serialize_snapshot (sample_snapshot (jan2 + 250000) 1000)] |}.

(** A history file whose trades are not in order of [closed_at]. *)
Definition unsorted_history : History :=
  {| h_version := JInt 1;
     h_trades := [serialize_trade (sample_trade "A" 5 jan2);
                  serialize_trade (sample_trade "B" 7 jan1)];
     h_snapshots := [] |}.

(** *** Reference definitions for the aggregation engine *)

(** The reference definition of the overall summary, after the
    specification: count, sum of profit, win count ([profit > 0]), loss
    count ([profit < 0]), win rate = wins / count × 100 (0 when the count is
    0), profit and win rate rounded to 2 decimals.  Sum, quotient and
    product are those of floats: the profits are added one by one in the
    order of the list, each addition rounding to the nearest double. *)
Fixpoint sum_profit_from (acc : Q) (trades : list MTrade) : Q :=
  match trades with
  | [] => acc
  | trade :: rest => sum_profit_from (float_add acc (mt_profit trade)) rest
  end.

Definition sum_profit (trades : list MTrade) : Q := sum_profit_from 0 trades.

Definition count_if (P : MTrade → bool) (trades : list MTrade) : Z :=
  Z.of_nat (length (List.filter P trades)).

Definition summary_reference (trades : list MTrade) : Summary :=
  let count := Z.of_nat (length trades) in
  let wins := count_if (λ trade, Qltb 0 (mt_profit trade)) trades in
  let losses := count_if (λ trade, Qltb (mt_profit trade) 0) trades in
  {| s_profit := py_round (sum_profit trades) 2;
     s_trades := count;
     s_wins := wins;
     s_losses := losses;
     s_win_rate :=
       if count =? 0 then 0%Q
       else py_round
              (float_mul (round_double (inject_Z wins / inject_Z count)) 100) 2 |}.

(** [r] is the first element of [l] with the largest (smallest) value of
    [f]: every element before it is strictly smaller (larger), none after it
    is larger (smaller); there is none exactly when [l] is empty. *)
Definition is_first_max {A} (f : A → Q) (l : list A) (r : option A) : Prop :=
  match r with
  | None => l = []
  | Some b =>
      ∃ l1 l2, l = l1 ++ b :: l2 ∧
        Forall (λ x, (f x < f b)%Q) l1 ∧ Forall (λ x, (f x <= f b)%Q) l2
  end.

Definition is_first_min {A} (f : A → Q) (l : list A) (r : option A) : Prop :=
  match r with
  | None => l = []
  | Some b =>
      ∃ l1 l2, l = l1 ++ b :: l2 ∧
        Forall (λ x, (f b < f x)%Q) l1 ∧ Forall (λ x, (f b <= f x)%Q) l2
  end.

(** The entry a window shows for its best or worst trade [r]: none when
    there is no such trade, and otherwise the summary of that trade, with
    its ticket, symbol, rounded profit and volume, side, closing time and
    exit classification, and without a comment. *)
Definition shows_trade (r : option MTrade) (entry : option TSummary) : Prop :=
  match r with
  | None => entry = None
  | Some trade =>
      ∃ summary, entry = Some summary ∧
        ts_ticket summary = mt_ticket trade ∧
        ts_symbol summary = mt_symbol trade ∧
        ts_profit summary = py_round (mt_profit trade) 2 ∧
        ts_volume summary = py_round (mt_volume trade) 2 ∧
        ts_order_type summary = _canonical_side (mt_order_type trade) ∧
        ts_closed_at summary = Some (isoformat (mt_closed_at trade)) ∧
        ts_exit_type summary = determine_exit_type (Some trade) ∧
        EXIT_LABELS !! ts_exit_type summary = Some (ts_exit summary) ∧
        ts_comment summary = None
  end.

(** What [build_window] computes from the selected trades. *)
Definition window_of (selected : list MTrade) : WSummary :=
  {| w_summary := summary_reference selected;
     w_best_trade := summarize_single_trade (py_max mt_profit selected) false;
     w_worst_trade := summarize_single_trade (py_min mt_profit selected) false |}.

Definition closed_trade (profit : Q) (closed_at : datetime) : MTrade :=
  {| mt_ticket := Some "1"; mt_symbol := Some "XAUUSD"; mt_volume := 1 # 10;
     mt_profit := profit; mt_order_type := Some "buy"; mt_comment := None;
     mt_opened_at := None; mt_closed_at := closed_at;
     mt_tp_label := None; mt_sl_label := None; mt_exit_reason := None |}.

(** Trades closed 400, 10 and 1 days before [now], in order of time. *)
Definition window_example (now : datetime) : list MTrade :=
  [closed_trade 1000 (now - timedelta_days 400);
   closed_trade (-5) (now - timedelta_days 10);
   closed_trade 10 (now - timedelta_days 1)].

(** The three take-profit checks and the three stop-loss checks. *)
Definition tp_signal (trade : MTrade) : bool :=
  present (mt_tp_label trade)
  || _contains_hint (mt_exit_reason trade) _TP_REASON_HINTS
  || _contains_hint (mt_comment trade) _TP_COMMENT_HINTS.

Definition sl_signal (trade : MTrade) : bool :=
  present (mt_sl_label trade)
  || _contains_hint (mt_exit_reason trade) _SL_REASON_HINTS
  || _contains_hint (mt_comment trade) _SL_COMMENT_HINTS.

(** A trade with a take-profit label whose comment carries a stop-loss
    hint. *)
Definition labelled_trade : MTrade :=
  {| mt_ticket := Some "7"; mt_symbol := Some "XAUUSD"; mt_volume := 1 # 10;
     mt_profit := 12; mt_order_type := Some "sell";
     mt_comment := Some "closed: SL hit"; mt_opened_at := None;
     mt_closed_at := jan1; mt_tp_label := Some "TP1"; mt_sl_label := Some "SL1";
     mt_exit_reason := None |}.

(** The groups in the order their symbols are first met, and the ranks
    [enumerate(ordered, 1)] assigns. *)
Definition symbol_groups (trades : list MTrade) : list Bucket :=
  (foldl stats_update [] trades).*2.

Definition rank_all (ordered : list Bucket) : list RankedBucket :=
  imap (λ idx entry, {| rb_bucket := entry; rb_rank := Z.of_nat idx + 1 |}) ordered.

Definition symbol_trade (symbol : string) (profit : Q) : MTrade :=
  {| mt_ticket := None; mt_symbol := Some symbol; mt_volume := 1;
     mt_profit := profit; mt_order_type := None; mt_comment := None;
     mt_opened_at := None; mt_closed_at := jan1;
     mt_tp_label := None; mt_sl_label := None; mt_exit_reason := None |}.

(** Symbol, total profit and rank of a ranked group. *)
Definition ranking_row (entry : RankedBucket) : option string * Q * Z :=
  (b_symbol (rb_bucket entry), b_profit (rb_bucket entry), rb_rank entry).

#[local] Instance Qeq_decision (x y : Q) : Decision (x == y)%Q := Qeq_dec x y.

(** *** The inputs the normalizer accepts *)

(** The values [float()] accepts: booleans, floats, the strings the runtime
    parses, and the integers whose nearest double is not beyond the largest
    double. *)
Definition float_accepts (rt : Runtime) (value : json) : Prop :=
  match value with
  | JNull => False
  | JStr s => is_Some (float_of_string rt s)
  | JInt n => (Qabs (round_double (inject_Z n)) < pow2 1024)%Q
  | _ => True
  end.

(** The string [parse_iso_datetime] hands to [fromisoformat], and the values
    it accepts: falsy ones, and strings that parse. *)
Definition clean_timestamp (s : string) : string :=
  let cleaned := py_strip s in
  if endswith_Z cleaned then replace_Z cleaned else cleaned.

Definition timestamp_accepts (rt : Runtime) (value : json) : Prop :=
  truthy value = false ∨
  ∃ s, value = JStr s ∧ is_Some (fromisoformat rt (clean_timestamp s)).

(** A numeric field of a payload: absent, or a value [float()] accepts. *)
Definition numeric_field (rt : Runtime) (entry : LogEntry) (k : string) : Prop :=
  float_accepts rt (py_get_default (payload entry) k (JFloat 0)).

Definition timestamp_field (rt : Runtime) (entry : LogEntry) (k : string) : Prop :=
  timestamp_accepts rt (py_get (payload entry) k).

(** A runtime in which no string parses; it serves to run the model on
    payloads that hold no numeric strings and no timestamps. *)
Definition strict_runtime : Runtime :=
  {| float_repr := λ _, "0.0";
     float_of_string := λ _, None;
     fromisoformat := λ _, None |}.

Definition entry_of (fields : list (string * json)) : LogEntry :=
  {| payload := list_to_map fields; log_timestamp := jan1 |}.

(** A trade line without ticket, volume and timestamps, and a snapshot line
    with an integer balance only. *)
Definition sparse_trade_entry : LogEntry :=
  entry_of [("type", JStr "trade"); ("symbol", JStr "EURUSD"); ("profit", JFloat (3 # 2))].

Definition sparse_snapshot_entry : LogEntry :=
  entry_of [("type", JStr "snapshot"); ("balance", JInt 1000)].

(** The trade [normalize_trade] makes of [sparse_trade_entry]. *)
Definition ticketless_trade : NTrade :=
  {| nt_ticket := "None"; nt_symbol := JStr "EURUSD"; nt_volume := 0;
     nt_profit := 3 # 2; nt_order_type := JNull; nt_comment := JNull;
     nt_opened_at := None; nt_closed_at := jan1;
     nt_tp_label := JNull; nt_sl_label := JNull |}.


(** The distinct elements of a list in the order of their first
    occurrence. *)
Fixpoint first_seen {A} `{EqDecision A} (l : list A) : list A :=
  match l with
  | [] => []
  | x :: l' => x :: filter (λ y, y ≠ x) (first_seen l')
  end.

(** The trades of one symbol. *)
Definition trades_of (symbol : option string) (trades : list MTrade) : list MTrade :=
  filter (λ trade, mt_symbol trade = symbol) trades.

(** The bucket that [stats.setdefault] creates, and the bucket of a symbol
    after all of its trades have been added. *)
Definition fresh_bucket (symbol : option string) : Bucket :=
  {| b_symbol := symbol; b_profit := 0; b_trades := 0; b_wins := 0; b_losses := 0 |}.

Definition bucket_of (symbol : option string) (trades : list MTrade) : Bucket :=
  foldl (λ bucket trade, add_trade trade bucket) (fresh_bucket symbol)
        (trades_of symbol trades).


(** The trades a daily breakdown covers, their calendar dates, the trades of
    one date, and the bucket of a date after all its trades were added. *)
Definition trades_since (cutoff : datetime) (trades : list MTrade) : list MTrade :=
  filter (λ trade, cutoff ≤ mt_closed_at trade) trades.

Definition trade_date (trade : MTrade) : string :=
  date_isoformat (mt_closed_at trade).

Definition trades_on (date : string) (trades : list MTrade) : list MTrade :=
  filter (λ trade, trade_date trade = date) trades.

Definition day_bucket (date : string) (trades : list MTrade) : DayBucket :=
  {| d_date := date;
     d_profit := py_sum (mt_profit <$> trades_on date trades);
     d_trades := Z.of_nat (length (trades_on date trades)) |}.

(** The sum of a list of integers. *)
Definition sum_Z (l : list Z) : Z := foldr Z.add 0 l.

(** *** Reading the history back *)

(** The stored records [_materialize_trades] keeps: those whose [closed_at]
    is neither missing nor empty. *)
Definition dated (k : string) (entry : dict) : Prop := truthy (py_get entry k) = true.

Global Instance dated_dec k entry : Decision (dated k entry).
Proof. unfold dated. apply _. Defined.

(** The stored trade records [_materialize_trades] reads without raising. *)
Definition readable_trade (rt : Runtime) (entry : dict) : Prop :=
  timestamp_accepts rt (py_get entry "closed_at") ∧
  timestamp_accepts rt (py_get entry "opened_at") ∧
  (dated "closed_at" entry →
   float_accepts rt (py_get_default entry "volume" (JFloat 0)) ∧
   float_accepts rt (py_get_default entry "profit" (JFloat 0))).

(** The runtime reads back the stamp [isoformat] wrote for [t]. *)
Definition reads_back (rt : Runtime) (t : datetime) : Prop :=
  fromisoformat rt (clean_timestamp (isoformat t)) = Some (replace_microsecond0 t).

(** What becomes of a normalized trade once stored and read back. *)
Definition stored_and_read (trade : NTrade) : Materialized :=
  {| m_ticket := JStr (nt_ticket trade);
     m_symbol := nt_symbol trade;
     m_volume := py_round (nt_volume trade) 5;
     m_profit := py_round (nt_profit trade) 5;
     m_order_type := nt_order_type trade;
     m_comment := nt_comment trade;
     m_opened_at := replace_microsecond0 <$> nt_opened_at trade;
     m_closed_at := replace_microsecond0 (nt_closed_at trade);
     m_tp_label := nt_tp_label trade;
     m_sl_label := nt_sl_label trade;
     m_exit_reason := JNull |}.

(** A runtime that parses the stamps of the two sample days only. *)
Definition sample_runtime : Runtime :=
  {| float_repr := λ _, "0.0";
     float_of_string := λ _, None;
     fromisoformat := λ s,
       if String.eqb s "2024-01-01T00:00:00+00:00" then Some jan1
       else if String.eqb s "2024-01-02T00:00:00+00:00" then Some jan2
       else None |}.

(** *** The initial import *)

(** A trade without its exit labels, and the last trade of a list that
    carries a given ticket. *)
Definition unlabelled (trade : NTrade) : NTrade :=
  {| nt_ticket := nt_ticket trade;
     nt_symbol := nt_symbol trade;
     nt_volume := nt_volume trade;
     nt_profit := nt_profit trade;
     nt_order_type := nt_order_type trade;
     nt_comment := nt_comment trade;
     nt_opened_at := nt_opened_at trade;
     nt_closed_at := nt_closed_at trade;
     nt_tp_label := JNull;
     nt_sl_label := JNull |}.

Definition latest (ticket : string) (trades : list NTrade) : option NTrade :=
  last (filter (λ trade, nt_ticket trade = ticket) trades).

(** The tickets of a list of trades that are not empty. *)
Definition tickets (trades : list NTrade) : list string :=
  filter (λ ticket, ticket ≠ "") (nt_ticket <$> trades).

(** *** Serialized timestamps *)

(** The stamp of a whole number of seconds since the epoch. *)
Definition stamp_of_seconds (secs : Z) : string :=
  let '(y, m, d) := civil_from_days (secs / 86400) in
  let sod := secs mod 86400 in
  pad4 y +:+ "-" +:+ pad2 m +:+ "-" +:+ pad2 d +:+ "T" +:+
  pad2 (sod / 3600) +:+ ":" +:+ pad2 (sod / 60 mod 60) +:+ ":" +:+ pad2 (sod mod 60) +:+
  "Z".

(** [datetime.min] and [datetime.max] in UTC: 0001-01-01T00:00:00 and
    9999-12-31T23:59:59.999999. *)
Definition datetime_min : datetime := -62135596800000000.
Definition datetime_max : datetime := 253402300799999999.

Definition valid_datetime (t : datetime) : Prop := datetime_min ≤ t ≤ datetime_max.

(** Calendar dates in lexicographic order. *)
Definition civil_lt (a b : Z * Z * Z) : Prop :=
  a.1.1 < b.1.1 ∨
  (a.1.1 = b.1.1 ∧ (a.1.2 < b.1.2 ∨ (a.1.2 = b.1.2 ∧ a.2 < b.2))).

(** *** The account statement *)

(** A row that ends the trade section: an empty row, or the caption of the
    results or of the balance operations. *)
Definition ends_trades (cells : list string) : bool :=
  match cells with
  | [] => true
  | first :: _ =>
      String.prefix "Ergebnisse" first || String.prefix "Balanceoperationen" first
  end.

(** The trade a row of the trade section stands for, if any: the row needs
    14 cells and two times that parse. *)
Definition statement_trade (rt : Runtime) (strptime : string → option datetime)
    (cells : list string) : option NTrade :=
  if decide (14 ≤ length cells)%nat then
    opened_at ← strptime (default "" (cells !! 0%nat));
    closed_at ← strptime (default "" (cells !! 9%nat));
    Some {| nt_ticket := default "" (cells !! 1%nat);
            nt_symbol := JStr (default "" (cells !! 2%nat));
            nt_volume := _parse_float rt (default "" (cells !! 5%nat));
            nt_profit := _parse_float rt (default "" (last cells));
            nt_order_type := JStr (default "" (cells !! 3%nat));
            nt_comment := JStr (default "" (cells !! 4%nat));
            nt_opened_at := Some opened_at;
            nt_closed_at := closed_at;
            nt_tp_label := JNull;
            nt_sl_label := JNull |}
  else None.

(** The rows of the trade section: those below the column row, up to the
    first row that ends it. *)
Fixpoint trade_section (rows : list (list string)) : list (list string) :=
  match rows with
  | [] => []
  | cells :: rest => if ends_trades cells then [] else cells :: trade_section rest
  end.

(** *** Sample data for the aggregation and the import *)

(** Two trades in gold around one in the euro. *)
Definition symbol_sample : list MTrade :=
  [symbol_trade "XAUUSD" 100; symbol_trade "EURUSD" (-50); symbol_trade "XAUUSD" 20].

Definition gold_group : Bucket :=
  {| b_symbol := Some "XAUUSD"; b_profit := 120; b_trades := 2; b_wins := 2;
     b_losses := 0 |}.

(** Two trades closed on January 1st and one on January 2nd. *)
Definition daily_sample : list MTrade :=
  [closed_trade 10 jan1; closed_trade 5 (jan1 + 1000000); closed_trade 1 jan2].

Definition daily_buckets : list DayBucket :=
  [{| d_date := "2024-01-01"; d_profit := 15; d_trades := 2 |};
   {| d_date := "2024-01-02"; d_profit := 1; d_trades := 1 |}].

(** The stored trades of [unsorted_history] before serialization, and what
    reading that history back gives. *)
Definition unsorted_trades : list NTrade :=
  [sample_trade "A" 5 jan2; sample_trade "B" 7 jan1].

Definition sample_read : list Materialized :=
  [stored_and_read (sample_trade "B" 7 jan1); stored_and_read (sample_trade "A" 5 jan2)].

(** A history file whose snapshots are not in order of [timestamp]. *)
Definition unsorted_snapshots : History :=
  {| h_version := JInt 1;
     h_trades := [];
     h_snapshots := [serialize_snapshot (sample_snapshot jan2 500);
                     serialize_snapshot (sample_snapshot jan1 400)] |}.

(** * Properties *)

(** ** The sort *)

Section py_sort_facts.
Context {A : Type} (key : A → json).

Lemma sort_insert_perm reverse x l r :
  sort_insert key reverse x l = Ok r → r ≡ₚ x :: l.
Proof.
  revert r. induction l as [|y l IH]; intros r; simpl.
  - by intros [= <-].
  - destruct (if reverse then _ else _) as [[]|]; simpl; try done.
    + destruct (sort_insert key reverse x l) as [r'|]; simpl; [|done].
      intros [= <-]. rewrite (IH r' eq_refl). apply Permutation_swap.
    + by intros [= <-].
Qed.

Lemma py_sorted_perm reverse l r :
  py_sorted key reverse l = Ok r → r ≡ₚ l.
Proof.
  revert r. induction l as [|x l IH]; intros r; simpl.
  - by intros [= <-].
  - destruct (py_sorted key reverse l) as [r'|]; simpl; [|done].
    intros Hins. rewrite (sort_insert_perm _ _ _ _ Hins). by rewrite (IH r' eq_refl).
Qed.
End py_sort_facts.

(** ** The deduplicating loop *)

Section dedup_facts.
Context {A : Type} (key : A → json).

Lemma foldl_dedup_step (ser : A → dict) xs stored seen appended :
  foldl (dedup_step key ser) (stored, seen, appended) xs =
    (stored ++ (ser <$> accepted key seen xs),
     list_to_set (key <$> accepted key seen xs) ∪ seen,
     appended || bool_decide (accepted key seen xs ≠ [])).
Proof.
  revert stored seen appended.
  induction xs as [|x xs IH]; intros stored seen appended; simpl.
  - rewrite app_nil_r, orb_false_r. f_equal. f_equal. set_solver.
  - destruct (negb _ || _) eqn:Hskip; [apply IH|].
    rewrite IH, <- app_assoc. simpl. rewrite orb_true_r.
    f_equal. f_equal. set_solver.
Qed.

Lemma accepted_nil seen xs :
  (∀ x, x ∈ xs → truthy (key x) = true → key x ∈ seen) →
  accepted key seen xs = [].
Proof.
  induction xs as [|x xs IH]; intros Hall; simpl; [done|].
  destruct (truthy (key x)) eqn:Htr; simpl.
  - rewrite bool_decide_true by (apply Hall; [left|done]).
    apply IH. intros y Hy. apply Hall. by right.
  - apply IH. intros y Hy. apply Hall. by right.
Qed.

Lemma accepted_keys_cover seen xs x :
  x ∈ xs → truthy (key x) = true →
  key x ∈ list_to_set (C:=gset json) (key <$> accepted key seen xs) ∪ seen.
Proof.
  revert seen. induction xs as [|y xs IH]; intros seen Hin Htr.
  { exfalso. exact (not_elem_of_nil _ Hin). }
  simpl. apply elem_of_cons in Hin as [->|Hin]; destruct (negb _ || _) eqn:Hskip.
  - rewrite Htr in Hskip. simpl in Hskip.
    apply bool_decide_eq_true in Hskip. set_solver.
  - set_solver.
  - by apply IH.
  - specialize (IH ({[key y]} ∪ seen) Hin Htr). set_solver.
Qed.

(** Running the loop again over the same inputs appends nothing. *)
Lemma accepted_again seen xs :
  accepted key (list_to_set (key <$> accepted key seen xs) ∪ seen) xs = [].
Proof. apply accepted_nil. intros x Hx Htr. by apply accepted_keys_cover. Qed.

(** An input whose key was already offered earlier in the same run is
    dropped. *)
Lemma accepted_drop_repeat seen l1 x1 l2 x2 l3 :
  key x2 = key x1 →
  accepted key seen (l1 ++ x1 :: l2 ++ x2 :: l3) =
  accepted key seen (l1 ++ x1 :: l2 ++ l3).
Proof.
  intros Hk. revert seen. induction l1 as [|y l1 IH]; intros seen; simpl.
  - assert (Hgen : ∀ seen', (truthy (key x1) = true → key x1 ∈ seen') →
      accepted key seen' (l2 ++ x2 :: l3) = accepted key seen' (l2 ++ l3)).
    { clear seen. induction l2 as [|z l2 IH2]; intros seen' Hin; simpl.
      - rewrite Hk. destruct (truthy (key x1)); simpl; [|done].
        by rewrite bool_decide_true by auto.
      - destruct (negb _ || _); [by apply IH2|].
        f_equal. apply IH2. set_solver. }
    destruct (negb (truthy (key x1)) || bool_decide (key x1 ∈ seen)) eqn:Hskip.
    + apply Hgen. intros Htr. rewrite Htr in Hskip. simpl in Hskip.
      by apply bool_decide_eq_true in Hskip.
    + f_equal. apply Hgen. set_solver.
  - destruct (negb _ || _); [apply IH|]. f_equal. apply IH.
Qed.

Lemma accepted_truthy seen xs x :
  x ∈ accepted key seen xs → truthy (key x) = true ∧ (key x ∉ seen) ∧ (x ∈ xs).
Proof.
  revert seen. induction xs as [|y xs IH]; intros seen; simpl; [by inversion 1|].
  destruct (negb _ || _) eqn:Hskip.
  - intros Hin. destruct (IH _ Hin) as (? & ? & ?). split_and!; [done..|by right].
  - apply orb_false_iff in Hskip as [Htr Hdec].
    apply negb_false_iff in Htr. apply bool_decide_eq_false in Hdec.
    intros [->|Hin]%elem_of_cons; [split_and!; [done..|by left]|].
    destruct (IH _ Hin) as (? & ? & ?). split_and!; [done|set_solver|by right].
Qed.
End dedup_facts.

(** ** The merge engine *)

Lemma trade_step_dedup : trade_step = dedup_step ticket_key serialize_trade.
Proof. reflexivity. Qed.

Lemma snapshot_step_dedup : snapshot_step = dedup_step stamp_key serialize_snapshot.
Proof. reflexivity. Qed.

Lemma serialize_trade_ticket trade :
  py_get (serialize_trade trade) "ticket" = ticket_key trade.
Proof. reflexivity. Qed.

Lemma stored_tickets_app l1 l2 :
  stored_tickets (l1 ++ l2) = stored_tickets l2 ∪ stored_tickets l1.
Proof. unfold stored_tickets. rewrite fmap_app, list_to_set_app_L. set_solver. Qed.

Lemma stored_stamps_app l1 l2 :
  stored_stamps (l1 ++ l2) = stored_stamps l2 ∪ stored_stamps l1.
Proof. unfold stored_stamps. rewrite fmap_app, list_to_set_app_L. set_solver. Qed.

Lemma stored_tickets_serialize l :
  stored_tickets (serialize_trade <$> l) = list_to_set (ticket_key <$> l).
Proof. unfold stored_tickets. by rewrite <- list_fmap_compose. Qed.

Lemma stored_stamps_serialize l :
  stored_stamps (serialize_snapshot <$> l) = list_to_set (stamp_key <$> l).
Proof. unfold stored_stamps. by rewrite <- list_fmap_compose. Qed.

Lemma merge_history_unfold history trades snapshots :
  merge_history history trades snapshots =
    new_trades ← sort_if_appended trade_sort_key (appended_trades history trades)
      (h_trades history ++ (serialize_trade <$> appended_trades history trades));
    new_snaps ← sort_if_appended snapshot_sort_key (appended_snapshots history snapshots)
      (h_snapshots history ++
       (serialize_snapshot <$> appended_snapshots history snapshots));
    Ok {| h_version := JInt HISTORY_VERSION;
          h_trades := new_trades;
          h_snapshots := new_snaps |}.
Proof.
  unfold merge_history. rewrite trade_step_dedup, snapshot_step_dedup.
  rewrite !foldl_dedup_step. reflexivity.
Qed.

Lemma sort_if_appended_perm {A} key (news : list A) stored r :
  sort_if_appended key news stored = Ok r → r ≡ₚ stored.
Proof.
  unfold sort_if_appended. case_bool_decide.
  - apply py_sorted_perm.
  - by intros [= <-].
Qed.

Lemma sort_if_appended_nil {A} key stored :
  sort_if_appended (A:=A) key [] stored = Ok stored.
Proof. unfold sort_if_appended. by rewrite bool_decide_false by auto. Qed.

(** What a successful merge returns. *)
Lemma merge_history_Ok history trades snapshots history' :
  merge_history history trades snapshots = Ok history' →
  h_version history' = JInt HISTORY_VERSION ∧
  sort_if_appended trade_sort_key (appended_trades history trades)
    (h_trades history ++ (serialize_trade <$> appended_trades history trades))
    = Ok (h_trades history') ∧
  sort_if_appended snapshot_sort_key (appended_snapshots history snapshots)
    (h_snapshots history ++
     (serialize_snapshot <$> appended_snapshots history snapshots))
    = Ok (h_snapshots history').
Proof.
  rewrite merge_history_unfold.
  destruct (sort_if_appended trade_sort_key _ _) as [ts|]; simpl; [|done].
  destruct (sort_if_appended snapshot_sort_key _ _) as [ss|]; simpl; [|done].
  by intros [= <-].
Qed.

Lemma appended_trades_again history trades snapshots history' :
  merge_history history trades snapshots = Ok history' →
  appended_trades history' trades = [].
Proof.
  intros (_ & Ht & _)%merge_history_Ok.
  apply sort_if_appended_perm in Ht. unfold appended_trades at 1.
  unfold stored_tickets at 1.
  rewrite Ht. fold (stored_tickets (h_trades history ++
    (serialize_trade <$> appended_trades history trades))).
  rewrite stored_tickets_app, stored_tickets_serialize.
  apply accepted_again.
Qed.

Lemma appended_snapshots_again history trades snapshots history' :
  merge_history history trades snapshots = Ok history' →
  appended_snapshots history' snapshots = [].
Proof.
  intros (_ & _ & Hs)%merge_history_Ok.
  apply sort_if_appended_perm in Hs. unfold appended_snapshots at 1.
  unfold stored_stamps at 1.
  rewrite Hs. fold (stored_stamps (h_snapshots history ++
    (serialize_snapshot <$> appended_snapshots history snapshots))).
  rewrite stored_stamps_app, stored_stamps_serialize.
  apply accepted_again.
Qed.

(** C1. Merge is idempotent: when [merge_history] applied to a history [H]
    with normalized trades [T] and snapshots [S] returns [H'], applying it
    again to [H'] with the same [T] and [S] returns [H'] itself, with the
    same trades and snapshots in the same order and the same version. *)
Theorem merge_history_idempotent history trades snapshots history' :
  merge_history history trades snapshots = Ok history' →
  merge_history history' trades snapshots = Ok history'.
Proof.
  intros Hm. rewrite merge_history_unfold.
  rewrite (appended_trades_again _ _ _ _ Hm), (appended_snapshots_again _ _ _ _ Hm).
  rewrite !fmap_nil, !app_nil_r, !sort_if_appended_nil. simpl.
  apply merge_history_Ok in Hm as (Hv & _ & _).
  destruct history'; simpl in *. by rewrite Hv.
Qed.

(** ** Order of the sort keys *)

Lemma ltb_false_le (a b : string) : String.ltb b a = false ↔ String.le a b.
Proof.
  unfold String.le, String.ltb, String.leb. rewrite (String.compare_antisym a b).
  destruct (String.compare b a); simpl; naive_solver.
Qed.

Lemma Qltb_false_le (x y : Q) : Qltb y x = false ↔ (x <= y)%Q.
Proof. unfold Qltb. rewrite negb_false_iff. apply Qle_bool_iff. Qed.

Lemma key_le_inv a b :
  key_le a b →
  (∃ s t, a = JStr s ∧ b = JStr t ∧ String.le s t) ∨
  (∃ x y, num_of a = Some x ∧ num_of b = Some y ∧ (x <= y)%Q).
Proof.
  unfold key_le, py_lt. intros H.
  destruct a, b; simpl in H; try discriminate;
    try (right; do 2 eexists; split_and!; [done..|];
         apply Qltb_false_le; congruence).
  left. do 2 eexists. split_and!; [done..|]. apply ltb_false_le. congruence.
Qed.

Lemma key_le_str s t : String.le s t → key_le (JStr s) (JStr t).
Proof. intros H. unfold key_le. simpl. f_equal. by apply ltb_false_le. Qed.

Lemma key_le_num a b x y :
  num_of a = Some x → num_of b = Some y → (x <= y)%Q → key_le a b.
Proof.
  intros Ha Hb Hle. unfold key_le, py_lt.
  destruct a, b; simpl in *; try discriminate; simplify_eq;
    f_equal; by apply Qltb_false_le.
Qed.

Lemma key_le_trans a b c : key_le a b → key_le b c → key_le a c.
Proof.
  intros [(s & t & -> & -> & Hst)|(x & y & Hx & Hy & Hxy)]%key_le_inv
         [(t' & u & Ht & -> & Htu)|(y' & z & Hy' & Hz & Hyz)]%key_le_inv;
    simplify_eq/=.
  - apply key_le_str. by etrans.
  - eapply key_le_num; [done..|]. by eapply Qle_trans.
Qed.

(** A comparison that answers [True] makes the converse one answer [False]. *)
Lemma py_lt_asym a b : py_lt a b = Ok true → key_le a b.
Proof.
  unfold key_le, py_lt.
  destruct a, b; simpl; try discriminate; intros [= H]; f_equal;
    try (apply Qltb_false_le; unfold Qltb in H; apply negb_true_iff in H;
         apply Qlt_le_weak, Qnot_le_lt; rewrite <- Qle_bool_iff; congruence).
  unfold String.ltb in *. rewrite String.compare_antisym.
  by destruct (String.compare s s0).
Qed.

Section py_sort_order.
Context {A : Type} (key : A → json).

Lemma sort_order_trans reverse a b c :
  sort_order key reverse a b → sort_order key reverse b c → sort_order key reverse a c.
Proof. destruct reverse; simpl; eauto using key_le_trans. Qed.

Lemma sort_insert_sorted reverse x l r :
  StronglySorted (sort_order key reverse) l →
  sort_insert key reverse x l = Ok r →
  StronglySorted (sort_order key reverse) r.
Proof.
  revert r. induction l as [|y l IH]; intros r Hs; simpl.
  - intros [= <-]. repeat constructor.
  - apply StronglySorted_cons in Hs as [Hy Hs].
    destruct (if reverse then _ else _) as [[]|] eqn:Hc; simpl; try done.
    + destruct (sort_insert key reverse x l) as [r'|] eqn:Hins; simpl; [|done].
      intros [= <-]. apply StronglySorted_cons. split; [|by apply IH].
      rewrite (sort_insert_perm _ _ _ _ _ Hins). constructor; [|done].
      destruct reverse; simpl; by apply py_lt_asym.
    + intros [= <-]. assert (sort_order key reverse x y) as Hxy.
      { by destruct reverse. }
      apply StronglySorted_cons. split.
      * constructor; [done|]. eapply Forall_impl; [done|].
        intros z. by apply sort_order_trans.
      * by apply StronglySorted_cons.
Qed.

Lemma py_sorted_sorted reverse l r :
  py_sorted key reverse l = Ok r → StronglySorted (sort_order key reverse) r.
Proof.
  revert r. induction l as [|x l IH]; intros r; simpl.
  - intros [= <-]. constructor.
  - destruct (py_sorted key reverse l) as [r'|]; simpl; [|done].
    apply sort_insert_sorted. by apply IH.
Qed.
End py_sort_order.

(** ** What the loops append *)

Section accepted_facts.
Context {A : Type} (key : A → json).

Lemma accepted_nonempty seen xs :
  accepted key seen xs ≠ [] ↔
  ∃ x, x ∈ xs ∧ truthy (key x) = true ∧ key x ∉ seen.
Proof.
  split.
  - destruct (accepted key seen xs) as [|x l] eqn:Hacc; [done|]. intros _.
    exists x. destruct (accepted_truthy key seen xs x) as (? & ? & ?); [|done].
    rewrite Hacc. by left.
  - intros (x & Hx & Htr & Hnot) Hnil.
    pose proof (accepted_keys_cover key seen xs x Hx Htr) as Hin.
    rewrite Hnil in Hin. set_solver.
Qed.

Lemma accepted_app seen l1 l2 :
  accepted key seen (l1 ++ l2) =
  accepted key seen l1 ++
  accepted key (list_to_set (key <$> accepted key seen l1) ∪ seen) l2.
Proof.
  revert seen. induction l1 as [|x l1 IH]; intros seen; simpl.
  - f_equal. set_solver.
  - destruct (negb _ || _); [apply IH|].
    rewrite IH. simpl. do 3 f_equal. set_solver.
Qed.

Context (ser : A → dict) (field : string).
Context (Hser : ∀ x, py_get (ser x) field = key x).

Lemma filter_ser_none k l :
  (∀ x, x ∈ l → key x ≠ k) →
  filter (λ e, py_get e field = k) (ser <$> l) = [].
Proof.
  induction l as [|x l IH]; intros Hall; [done|].
  rewrite fmap_cons, filter_cons_False.
  - apply IH. intros y Hy. apply Hall. by right.
  - rewrite Hser. apply Hall. by left.
Qed.

(** Nothing is appended under a key that is already stored. *)
Lemma accepted_seen k seen xs :
  k ∈ seen → filter (λ e, py_get e field = k) (ser <$> accepted key seen xs) = [].
Proof.
  intros Hk. apply filter_ser_none. intros x Hx <-.
  by destruct (accepted_truthy key seen xs x Hx) as (_ & ? & _).
Qed.

(** Under a new key exactly the first input that carries it is appended. *)
Lemma accepted_first seen l1 x l2 :
  truthy (key x) = true → key x ∉ seen → (∀ y, y ∈ l1 → key y ≠ key x) →
  filter (λ e, py_get e field = key x) (ser <$> accepted key seen (l1 ++ x :: l2))
    = [ser x].
Proof.
  intros Htr Hnew Hl1. rewrite accepted_app. simpl.
  set (seen1 := list_to_set (key <$> accepted key seen l1) ∪ seen).
  assert (key x ∉ seen1) as Hnew1.
  { unfold seen1. intros [Hin|Hin]%elem_of_union; [|done].
    apply elem_of_list_to_set, list_elem_of_fmap in Hin as (y & Hy & Hin).
    apply accepted_truthy in Hin as (_ & _ & Hin). by apply (Hl1 y). }
  rewrite Htr, bool_decide_false by done. simpl.
  rewrite fmap_app, fmap_cons, filter_app, filter_cons_True by apply Hser.
  rewrite filter_ser_none, accepted_seen; [done|set_solver|].
  intros y (_ & _ & Hy)%accepted_truthy. by apply Hl1.
Qed.
End accepted_facts.

(** ** Serialized timestamps *)

Lemma replace_microsecond0_floor t :
  replace_microsecond0 t = 1000000 * (t / 1000000).
Proof. unfold replace_microsecond0. rewrite Z.mod_eq by lia. lia. Qed.

(** [isoformat] drops the sub-second part. *)
Lemma isoformat_same_second t1 t2 :
  same_second t1 t2 → isoformat t1 = isoformat t2.
Proof.
  unfold same_second, isoformat. intros H.
  by rewrite !replace_microsecond0_floor, H.
Qed.

Lemma isoformat_cons t : ∃ c s, isoformat t = String c s.
Proof.
  unfold isoformat, datetime_isoformat_z.
  destruct (civil_from_days _) as [[y m] d]. unfold pad4 at 1.
  eexists _, _. reflexivity.
Qed.

Lemma stamp_key_eq snap : stamp_key snap = JStr (isoformat (ns_timestamp snap)).
Proof. reflexivity. Qed.

Lemma stamp_key_truthy snap : truthy (stamp_key snap) = true.
Proof.
  rewrite stamp_key_eq. by destruct (isoformat_cons (ns_timestamp snap)) as (c & s & ->).
Qed.

Lemma ticket_key_truthy trade : nt_ticket trade ≠ "" → truthy (ticket_key trade) = true.
Proof.
  intros H. unfold ticket_key. simpl. apply negb_true_iff.
  by apply String.eqb_neq.
Qed.

Lemma filter_none {B} (P : B → Prop) `{∀ x, Decision (P x)} (l : list B) :
  (∀ x, x ∈ l → ¬ P x) → filter P l = [].
Proof.
  induction l as [|x l IH]; intros Hall; [done|].
  rewrite filter_cons_False by (apply Hall; by left).
  apply IH. intros y Hy. apply Hall. by right.
Qed.

(** Under a key that is not stored the history has no record. *)
Lemma filter_unstored field k (stored : list dict) :
  k ∉ list_to_set (C:=gset json) ((λ entry, py_get entry field) <$> stored) →
  filter (λ e, py_get e field = k) stored = [].
Proof.
  intros Hk. apply filter_none. intros e He Heq. apply Hk.
  apply elem_of_list_to_set, list_elem_of_fmap. eauto.
Qed.

(** ** The claims about the merge engine *)

(** The records stored under one key after a merge that returns: those of
    the history when the key was already stored, and the serialization of
    the first input that carries it when the key is new. *)
Lemma merge_history_keyed history trades snapshots history' :
  merge_history history trades snapshots = Ok history' →
  (∀ k, k ∈ stored_tickets (h_trades history) →
     filter (λ e, py_get e "ticket" = k) (h_trades history')
       ≡ₚ filter (λ e, py_get e "ticket" = k) (h_trades history)) ∧
  (∀ l1 trade l2,
     trades = l1 ++ trade :: l2 →
     nt_ticket trade ≠ "" →
     ticket_key trade ∉ stored_tickets (h_trades history) →
     (∀ other, other ∈ l1 → nt_ticket other ≠ nt_ticket trade) →
     filter (λ e, py_get e "ticket" = ticket_key trade) (h_trades history')
       = [serialize_trade trade]) ∧
  (∀ k, k ∈ stored_stamps (h_snapshots history) →
     filter (λ e, py_get e "timestamp" = k) (h_snapshots history')
       ≡ₚ filter (λ e, py_get e "timestamp" = k) (h_snapshots history)) ∧
  (∀ l1 snap l2,
     snapshots = l1 ++ snap :: l2 →
     stamp_key snap ∉ stored_stamps (h_snapshots history) →
     (∀ other, other ∈ l1 → stamp_key other ≠ stamp_key snap) →
     filter (λ e, py_get e "timestamp" = stamp_key snap) (h_snapshots history')
       = [serialize_snapshot snap]).
Proof.
  intros (_ & Ht & Hs)%merge_history_Ok.
  apply sort_if_appended_perm in Ht, Hs.
  split_and!.
  - intros k Hk. rewrite Ht, filter_app.
    unfold appended_trades.
    rewrite (accepted_seen ticket_key serialize_trade "ticket") by done.
    by rewrite app_nil_r.
  - intros l1 trade l2 -> Hne Hnew Hfirst.
    apply Permutation_singleton_r. rewrite Ht, filter_app.
    unfold appended_trades.
    rewrite (accepted_first ticket_key serialize_trade "ticket");
      [|done|by apply ticket_key_truthy|done|].
    + by rewrite (filter_unstored "ticket") by done.
    + intros y Hy [=]. by apply (Hfirst y).
  - intros k Hk. rewrite Hs, filter_app.
    unfold appended_snapshots.
    rewrite (accepted_seen stamp_key serialize_snapshot "timestamp") by done.
    by rewrite app_nil_r.
  - intros l1 snap l2 -> Hnew Hfirst.
    apply Permutation_singleton_r. rewrite Hs, filter_app.
    unfold appended_snapshots.
    rewrite (accepted_first stamp_key serialize_snapshot "timestamp");
      [|done|by apply stamp_key_truthy|done..].
    by rewrite (filter_unstored "timestamp") by done.
Qed.

(** C2. Dedup is first-write-wins on both keys.  After a merge that
    returns, the stored trades under a ticket that already occurred in the
    history are those of the history, unchanged; under a new non-empty
    ticket the only stored trade is the serialization of the first input
    trade that carries it.  The same holds for snapshots and their
    serialized timestamps. *)
Theorem merge_history_first_write_wins history trades snapshots history' :
  merge_history history trades snapshots = Ok history' →
  (∀ k, k ∈ stored_tickets (h_trades history) →
     filter (λ e, py_get e "ticket" = k) (h_trades history')
       ≡ₚ filter (λ e, py_get e "ticket" = k) (h_trades history)) ∧
  (∀ l1 trade l2,
     trades = l1 ++ trade :: l2 →
     nt_ticket trade ≠ "" →
     ticket_key trade ∉ stored_tickets (h_trades history) →
     (∀ other, other ∈ l1 → nt_ticket other ≠ nt_ticket trade) →
     filter (λ e, py_get e "ticket" = ticket_key trade) (h_trades history')
       = [serialize_trade trade]) ∧
  (∀ k, k ∈ stored_stamps (h_snapshots history) →
     filter (λ e, py_get e "timestamp" = k) (h_snapshots history')
       ≡ₚ filter (λ e, py_get e "timestamp" = k) (h_snapshots history)) ∧
  (∀ l1 snap l2,
     snapshots = l1 ++ snap :: l2 →
     stamp_key snap ∉ stored_stamps (h_snapshots history) →
     (∀ other, other ∈ l1 → stamp_key other ≠ stamp_key snap) →
     filter (λ e, py_get e "timestamp" = stamp_key snap) (h_snapshots history')
       = [serialize_snapshot snap]).
Proof. apply merge_history_keyed. Qed.

Lemma sort_if_appended_sorted {A} key (news : list A) stored r :
  sort_if_appended key news stored = Ok r →
  news ≠ [] ∨ sorted_by key stored →
  sorted_by key r.
Proof.
  unfold sort_if_appended. case_bool_decide as Hnews.
  - intros Hs _. by apply (py_sorted_sorted key false) in Hs.
  - intros [= <-] [?|?]; [|done]. by destruct Hnews.
Qed.

(** C3 (amended). Sort invariant.  After [merge_history] returns,
    [history.trades] is non-decreasing by [closed_at] provided the input
    trades already were, or at least one trade was appended (some new trade
    has a non-empty ticket that the history does not hold); likewise
    [history.snapshots] is non-decreasing by [timestamp] provided the input
    snapshots already were, or at least one snapshot was appended. *)
Theorem merge_history_sorted history trades snapshots history' :
  merge_history history trades snapshots = Ok history' →
  (sorted_by trade_sort_key (h_trades history) ∨
   (∃ trade, trade ∈ trades ∧ nt_ticket trade ≠ "" ∧
             ticket_key trade ∉ stored_tickets (h_trades history)) →
   sorted_by trade_sort_key (h_trades history')) ∧
  (sorted_by snapshot_sort_key (h_snapshots history) ∨
   (∃ snap, snap ∈ snapshots ∧
            stamp_key snap ∉ stored_stamps (h_snapshots history)) →
   sorted_by snapshot_sort_key (h_snapshots history')).
Proof.
  intros (_ & Ht & Hs)%merge_history_Ok. split.
  - intros Hpre. apply (sort_if_appended_sorted _ _ _ _ Ht).
    destruct Hpre as [Hsorted|(trade & Hin & Hne & Hnew)].
    + destruct (decide (appended_trades history trades = [])) as [->|]; [|by left].
      right. by rewrite fmap_nil, app_nil_r.
    + left. apply accepted_nonempty. exists trade.
      split_and!; [done| by apply ticket_key_truthy |done].
  - intros Hpre. apply (sort_if_appended_sorted _ _ _ _ Hs).
    destruct Hpre as [Hsorted|(snap & Hin & Hnew)].
    + destruct (decide (appended_snapshots history snapshots = [])) as [->|]; [|by left].
      right. by rewrite fmap_nil, app_nil_r.
    + left. apply accepted_nonempty. exists snap.
      split_and!; [done| apply stamp_key_truthy |done].
Qed.

(** C10. Snapshot dedup operates at one-second precision.  Of two input
    snapshots whose timestamps fall within the same UTC second the later one
    is discarded, whatever its values: the merge behaves as if it were not
    in the input.  When the earlier one is the first input of its serialized
    timestamp and the history does not hold that timestamp, it is the only
    snapshot stored under it. *)
Theorem snapshot_dedup_one_second history trades l1 s1 l2 s2 l3 :
  same_second (ns_timestamp s1) (ns_timestamp s2) →
  merge_history history trades (l1 ++ s1 :: l2 ++ s2 :: l3)
    = merge_history history trades (l1 ++ s1 :: l2 ++ l3) ∧
  (∀ history',
     merge_history history trades (l1 ++ s1 :: l2 ++ s2 :: l3) = Ok history' →
     stamp_key s1 ∉ stored_stamps (h_snapshots history) →
     (∀ other, other ∈ l1 → stamp_key other ≠ stamp_key s1) →
     filter (λ e, py_get e "timestamp" = stamp_key s2) (h_snapshots history')
       = [serialize_snapshot s1]).
Proof.
  intros Hsec.
  assert (stamp_key s2 = stamp_key s1) as Hkey.
  { rewrite !stamp_key_eq. f_equal. symmetry. by apply isoformat_same_second. }
  split.
  - rewrite !merge_history_unfold. unfold appended_snapshots.
    by rewrite (accepted_drop_repeat stamp_key _ l1 s1 l2 s2 l3 Hkey).
  - intros history' Hm Hnew Hfirst. rewrite Hkey.
    by eapply merge_history_keyed.
Qed.

(** *** The merge returns on well-formed histories *)

Section py_sort_total.
Context {A : Type} (key : A → json).

Lemma sort_insert_total reverse x l :
  (∀ a b, a ∈ x :: l → b ∈ x :: l → ∃ c, py_lt (key a) (key b) = Ok c) →
  ∃ r, sort_insert key reverse x l = Ok r.
Proof.
  induction l as [|y l IH]; intros Hcmp; simpl; [by eexists|].
  destruct IH as [r IH].
  { intros a b Ha Hb. apply Hcmp; set_solver. }
  destruct reverse.
  - destruct (Hcmp x y) as [[] ->]; [set_solver..| |]; simpl;
      [rewrite IH|]; by eexists.
  - destruct (Hcmp y x) as [[] ->]; [set_solver..| |]; simpl;
      [rewrite IH|]; by eexists.
Qed.

Lemma py_sorted_total reverse l :
  (∀ a b, a ∈ l → b ∈ l → ∃ c, py_lt (key a) (key b) = Ok c) →
  ∃ r, py_sorted key reverse l = Ok r.
Proof.
  induction l as [|x l IH]; intros Hcmp; simpl; [by eexists|].
  destruct IH as [r IH].
  { intros a b Ha Hb. apply Hcmp; set_solver. }
  rewrite IH. simpl. apply sort_insert_total.
  intros a b Ha Hb. apply Hcmp.
  - rewrite <- (py_sorted_perm _ _ _ _ IH). set_solver.
  - rewrite <- (py_sorted_perm _ _ _ _ IH). set_solver.
Qed.
End py_sort_total.

Lemma sort_if_appended_strings {A} key (news : list A) stored :
  (∀ e, e ∈ stored → ∃ s, key e = JStr s) →
  ∃ r, sort_if_appended key news stored = Ok r.
Proof.
  intros Hstr. unfold sort_if_appended. case_bool_decide; [|by eexists].
  apply py_sorted_total. intros a b Ha Hb.
  destruct (Hstr a Ha) as [s ->], (Hstr b Hb) as [t ->]. by eexists.
Qed.

(** When every stored [closed_at] and [timestamp] is a string (or the key
    is absent), as in every file the program writes, [merge_history]
    returns. *)
Lemma merge_history_returns history trades snapshots :
  (∀ e, e ∈ h_trades history → ∃ s, trade_sort_key e = JStr s) →
  (∀ e, e ∈ h_snapshots history → ∃ s, snapshot_sort_key e = JStr s) →
  ∃ history', merge_history history trades snapshots = Ok history'.
Proof.
  intros Ht Hs. rewrite merge_history_unfold.
  destruct (sort_if_appended_strings trade_sort_key
              (appended_trades history trades)
              (h_trades history ++ (serialize_trade <$> appended_trades history trades)))
    as [ts ->].
  { intros e [He|(t & -> & _)%list_elem_of_fmap]%elem_of_app; [by apply Ht|].
    by eexists. }
  destruct (sort_if_appended_strings snapshot_sort_key
              (appended_snapshots history snapshots)
              (h_snapshots history ++
               (serialize_snapshot <$> appended_snapshots history snapshots)))
    as [ss ->].
  { intros e [He|(t & -> & _)%list_elem_of_fmap]%elem_of_app; [by apply Hs|].
    by eexists. }
  by eexists.
Qed.

(** ** The merge engine on sample data *)

Example isoformat_epoch : isoformat 0 = "1970-01-01T00:00:00Z".
Proof. reflexivity. Qed.

Example isoformat_truncates : isoformat 1709210096123456 = "2024-02-29T12:34:56Z".
Proof. by vm_compute. Qed.

Example merge_history_sample :
  merge_history sample_history sample_trades sample_snapshots = Ok sample_merged.
Proof. by vm_compute. Qed.

(** A stored [closed_at] of [null] makes the sort after an append raise. *)
Example merge_history_null_closed_at :
  merge_history
    {| h_version := JInt 1;
       h_trades := [{[ "ticket" := JStr "A"; "closed_at" := JNull ]}];
       h_snapshots := [] |}
    sample_trades [] = Raise TypeError.
Proof. by vm_compute. Qed.

Lemma merge_history_idempotent_witness :
  merge_history sample_history sample_trades sample_snapshots = Ok sample_merged ∧
  merge_history sample_merged sample_trades sample_snapshots = Ok sample_merged.
Proof.
  split; [by vm_compute|].
  apply (merge_history_idempotent sample_history). by vm_compute.
Defined.

Lemma merge_history_first_write_wins_witness :
  filter (λ e, py_get e "ticket" = JStr "A") (h_trades sample_merged)
    ≡ₚ [serialize_trade (sample_trade "A" 5 jan2)] ∧
  filter (λ e, py_get e "ticket" = JStr "B") (h_trades sample_merged)
    = [serialize_trade (sample_trade "B" 7 jan1)] ∧
  filter (λ e, py_get e "timestamp" = JStr "2024-01-01T00:00:00Z")
         (h_snapshots sample_merged)
    ≡ₚ [serialize_snapshot (sample_snapshot jan1 400)] ∧
  filter (λ e, py_get e "timestamp" = JStr "2024-01-02T00:00:00Z")
         (h_snapshots sample_merged)
    = [serialize_snapshot (sample_snapshot (jan2 + 250000) 1000)].
Proof.
  destruct (merge_history_first_write_wins sample_history sample_trades
              sample_snapshots sample_merged) as (Ht & Htnew & Hs & Hsnew);
    [by vm_compute|].
  split_and!.
  - apply (Ht (JStr "A")). by vm_compute.
  - apply (Htnew [] (sample_trade "B" 7 jan1) (tail sample_trades)).
    + reflexivity.
    + discriminate.
    + vm_compute. discriminate.
    + intros other Hin. exfalso. exact (not_elem_of_nil _ Hin).
  - apply (Hs (JStr "2024-01-01T00:00:00Z")). by vm_compute.
  - apply (Hsnew [] (sample_snapshot (jan2 + 250000) 1000) (tail sample_snapshots)).
    + reflexivity.
    + vm_compute. discriminate.
    + intros other Hin. exfalso. exact (not_elem_of_nil _ Hin).
Defined.

Lemma merge_history_sorted_witness :
  sorted_by trade_sort_key (h_trades sample_merged) ∧
  sorted_by snapshot_sort_key (h_snapshots sample_merged).
Proof.
  destruct (merge_history_sorted sample_history sample_trades
              sample_snapshots sample_merged) as (Ht & Hs);
    [by vm_compute|].
  split.
  - apply Ht. right. exists (sample_trade "B" 7 jan1). split_and!.
    + by left.
    + discriminate.
    + vm_compute. discriminate.
  - apply Hs. right. exists (sample_snapshot (jan2 + 250000) 1000). split.
    + by left.
    + vm_compute. discriminate.
Defined.

(** C3, as stated, fails: nothing is appended to a history file whose
    trades are out of order, so no sort takes place and the trades stay out
    of order. *)
Lemma merge_history_sorted_counterexample :
  merge_history unsorted_history [] [] = Ok unsorted_history ∧
  ¬ sorted_by trade_sort_key (h_trades unsorted_history).
Proof.
  split; [by vm_compute|].
  intros Hs. apply StronglySorted_cons in Hs as [Hle _].
  apply Forall_cons in Hle as [Hle _]. vm_compute in Hle. discriminate.
Qed.

Lemma snapshot_dedup_one_second_witness :
  same_second (jan2 + 250000) (jan2 + 750000) ∧
  serialize_snapshot (sample_snapshot (jan2 + 750000) 2000)
    ≠ serialize_snapshot (sample_snapshot (jan2 + 250000) 1000) ∧
  merge_history sample_history sample_trades sample_snapshots
    = merge_history sample_history sample_trades
        [sample_snapshot (jan2 + 250000) 1000; sample_snapshot jan1 500] ∧
  filter (λ e, py_get e "timestamp" = stamp_key (sample_snapshot (jan2 + 750000) 2000))
         (h_snapshots sample_merged)
    = [serialize_snapshot (sample_snapshot (jan2 + 250000) 1000)].
Proof.
  destruct (snapshot_dedup_one_second sample_history sample_trades
              [] (sample_snapshot (jan2 + 250000) 1000)
              [] (sample_snapshot (jan2 + 750000) 2000)
              [sample_snapshot jan1 500]) as (Heq & Hfirst);
    [reflexivity|].
  split_and!.
  - reflexivity.
  - intros Heq'. apply (f_equal (λ d, d !! "balance")) in Heq'.
    vm_compute in Heq'. discriminate.
  - exact Heq.
  - apply Hfirst.
    + by vm_compute.
    + vm_compute. discriminate.
    + intros other Hin. exfalso. exact (not_elem_of_nil _ Hin).
Defined.

(** ** The overall summary *)

Lemma round_half_even_proper q q' : (q == q')%Q → round_half_even q = round_half_even q'.
Proof.
  intros H. unfold round_half_even.
  rewrite (Qfloor_comp _ _ H).
  assert (q - inject_Z (Qfloor q') == q' - inject_Z (Qfloor q'))%Q as Hsub.
  { apply Qplus_comp; [done|reflexivity]. }
  by rewrite (Qcompare_comp _ _ Hsub (1 # 2) (1 # 2) (Qeq_refl _)).
Qed.

Lemma py_round_proper q q' n : (q == q')%Q → py_round q n = py_round q' n.
Proof.
  intros H. unfold py_round.
  f_equal. f_equal. f_equal. apply round_half_even_proper.
  apply Qmult_comp; [done|reflexivity].
Qed.

Lemma foldl_float_add acc trades :
  foldl float_add acc (mt_profit <$> trades) = sum_profit_from acc trades.
Proof.
  revert acc. induction trades as [|t l IH]; intros acc; [done|].
  rewrite fmap_cons. cbn [foldl sum_profit_from]. apply IH.
Qed.

Lemma py_sum_profit trades : py_sum (mt_profit <$> trades) = sum_profit trades.
Proof. apply foldl_float_add. Qed.

Lemma foldl_add_ones {A} a (l : list A) :
  foldl Z.add a ((λ _, 1) <$> l) = a + Z.of_nat (length l).
Proof.
  revert a. induction l as [|x l IH]; intros a; simpl; [lia|].
  rewrite IH. lia.
Qed.

Lemma py_count_length {A} (l : list A) : py_count l = Z.of_nat (length l).
Proof. unfold py_count. by rewrite foldl_add_ones. Qed.

Lemma py_truediv_nonzero (x n : Z) :
  n ≠ 0 → py_truediv x n = Ok (round_double (inject_Z x / inject_Z n)).
Proof.
  intros Hn. unfold py_truediv. by rewrite (proj2 (Z.eqb_neq n 0) Hn).
Qed.

Lemma summarize_trades_nonempty trades :
  trades ≠ [] →
  summarize_trades trades =
    (let total := Z.of_nat (length trades) in
     let wins := py_count (List.filter (λ trade, Qltb 0 (mt_profit trade)) trades) in
     win_rate ←
       (if negb (total =? 0)
        then ratio ← py_truediv wins total;
             Ok (py_round (float_mul ratio 100) 2)
        else Ok 0%Q);
     Ok {| s_profit := py_round (py_sum (mt_profit <$> trades)) 2;
           s_trades := total;
           s_wins := wins;
           s_losses := py_count (List.filter (λ trade, Qltb (mt_profit trade) 0) trades);
           s_win_rate := win_rate |}).
Proof. by destruct trades. Qed.

Lemma summarize_trades_ok trades :
  summarize_trades trades = Ok (summary_reference trades).
Proof.
  destruct (decide (trades = [])) as [->|Hne]; [by vm_compute|].
  rewrite summarize_trades_nonempty by done.
  unfold summary_reference, count_if. cbv zeta.
  assert (Z.of_nat (length trades) ≠ 0) as Hlen by (destruct trades; simpl; [done|lia]).
  rewrite !py_count_length.
  destruct (Z.of_nat (length trades) =? 0) eqn:Hz; [lia|]. cbn [negb].
  rewrite py_truediv_nonzero by done. cbn [mbind result_bind].
  by rewrite py_sum_profit.
Qed.

(** C5. The overall summary equals its reference definition for every
    trade list: [summarize_trades] returns, without a division error, the
    count, the sum of profits rounded to 2 decimals, the numbers of trades
    with positive and with negative profit, and wins / count × 100 rounded
    to 2 decimals, sum, quotient and product being those of floats; for the
    empty list it returns zero counts, profit 0.0 and win rate 0.0. *)
Theorem summarize_trades_reference trades :
  summarize_trades trades = Ok (summary_reference trades) ∧
  summarize_trades [] =
    Ok {| s_profit := 0; s_trades := 0; s_wins := 0; s_losses := 0; s_win_rate := 0 |}.
Proof. split; [apply summarize_trades_ok|reflexivity]. Qed.

(** Sums and quotients are those of doubles.  The profits 1.0 and 0.005 add
    up to the double below 1.005, which rounds to 1.0; 23 wins in 160
    trades give the win rate 14.37, the quotient times 100 being the double
    below 14.375. *)
Example summarize_trades_in_doubles :
  summarize_trades
    [closed_trade 1 jan1; closed_trade (round_double (5 # 1000)) jan1]
    = Ok {| s_profit := 1; s_trades := 2; s_wins := 2; s_losses := 0;
            s_win_rate := 100 |} ∧
  summarize_trades
    (replicate 23 (closed_trade 1 jan1) ++ replicate 137 (closed_trade (-1) jan1))
    = Ok {| s_profit := -114; s_trades := 160; s_wins := 23; s_losses := 137;
            s_win_rate := 1437 # 100 |}.
Proof. split; vm_compute; reflexivity. Qed.

(** ** Rolling windows *)

Lemma Qltb_true_lt (x y : Q) : Qltb x y = true ↔ (x < y)%Q.
Proof.
  unfold Qltb. rewrite negb_true_iff, <- not_true_iff_false, Qle_bool_iff.
  split; [apply Qnot_le_lt|apply Qlt_not_le].
Qed.

Section extremum_facts.
Context {A : Type} (f : A → Q).

Lemma max_from_first best l b :
  max_from f best l = b →
  ∃ l1 l2, best :: l = l1 ++ b :: l2 ∧
    Forall (λ x, (f x < f b)%Q) l1 ∧ Forall (λ x, (f x <= f b)%Q) l2.
Proof.
  revert best. induction l as [|x l IH]; intros best Hb; simpl in Hb.
  - subst b. exists [], []. by repeat constructor.
  - destruct (Qltb (f best) (f x)) eqn:Hlt.
    + apply Qltb_true_lt in Hlt.
      destruct (IH x Hb) as (l1 & l2 & Heq & H1 & H2).
      exists (best :: l1), l2. split_and!; [by rewrite Heq| |done].
      constructor; [|done]. eapply Qlt_le_trans; [done|].
      destruct l1 as [|y l1]; simpl in Heq; injection Heq as -> _.
      * apply Qle_refl.
      * apply Qlt_le_weak. by apply Forall_cons in H1 as [? _].
    + apply Qltb_false_le in Hlt.
      destruct (IH best Hb) as (l1 & l2 & Heq & H1 & H2).
      destruct l1 as [|y l1]; simpl in Heq; injection Heq as <- ->.
      * exists [], (x :: l2). split_and!; [done|done|by constructor].
      * exists (best :: x :: l1), l2. split_and!; [done| |done].
        apply Forall_cons in H1 as [Hy H1].
        repeat constructor; [done| |done]. by eapply Qle_lt_trans.
Qed.

Lemma min_from_first best l b :
  min_from f best l = b →
  ∃ l1 l2, best :: l = l1 ++ b :: l2 ∧
    Forall (λ x, (f b < f x)%Q) l1 ∧ Forall (λ x, (f b <= f x)%Q) l2.
Proof.
  revert best. induction l as [|x l IH]; intros best Hb; simpl in Hb.
  - subst b. exists [], []. by repeat constructor.
  - destruct (Qltb (f x) (f best)) eqn:Hlt.
    + apply Qltb_true_lt in Hlt.
      destruct (IH x Hb) as (l1 & l2 & Heq & H1 & H2).
      exists (best :: l1), l2. split_and!; [by rewrite Heq| |done].
      constructor; [|done]. eapply Qle_lt_trans; [|done].
      destruct l1 as [|y l1]; simpl in Heq; injection Heq as -> _.
      * apply Qle_refl.
      * apply Qlt_le_weak. by apply Forall_cons in H1 as [? _].
    + apply Qltb_false_le in Hlt.
      destruct (IH best Hb) as (l1 & l2 & Heq & H1 & H2).
      destruct l1 as [|y l1]; simpl in Heq; injection Heq as <- ->.
      * exists [], (x :: l2). split_and!; [done|done|by constructor].
      * exists (best :: x :: l1), l2. split_and!; [done| |done].
        apply Forall_cons in H1 as [Hy H1].
        repeat constructor; [done| |done]. by eapply Qlt_le_trans.
Qed.

Lemma py_max_first l : is_first_max f l (py_max f l).
Proof. destruct l as [|x l]; [done|]. by apply max_from_first. Qed.

Lemma py_min_first l : is_first_min f l (py_min f l).
Proof. destruct l as [|x l]; [done|]. by apply min_from_first. Qed.
End extremum_facts.

Lemma build_window_ok now days trades :
  build_window now days trades = Ok (window_of (window_trades now days trades)).
Proof. unfold build_window. by rewrite summarize_trades_ok. Qed.

Lemma build_windows_ok now trades :
  build_windows now trades =
    Ok (<["365d" := window_of (window_trades now 365 trades)]>
        (<["30d" := window_of (window_trades now 30 trades)]>
         (<["7d" := window_of (window_trades now 7 trades)]> ∅))).
Proof.
  unfold build_windows, WINDOWS. cbn [foldl].
  by rewrite !build_window_ok.
Qed.

Lemma window_example_7d now :
  window_trades now 7 (window_example now)
    = [closed_trade 10 (now - timedelta_days 1)].
Proof.
  unfold window_trades, window_example, timedelta_days.
  rewrite filter_cons_False by (simpl; lia).
  rewrite filter_cons_False by (simpl; lia).
  by rewrite filter_cons_True by (simpl; lia).
Qed.

Lemma window_example_30d now days :
  days = 30 ∨ days = 365 →
  window_trades now days (window_example now)
    = [closed_trade (-5) (now - timedelta_days 10);
       closed_trade 10 (now - timedelta_days 1)].
Proof.
  intros Hdays. unfold window_trades, window_example, timedelta_days.
  rewrite filter_cons_False by (simpl; lia).
  rewrite filter_cons_True by (simpl; lia).
  by rewrite filter_cons_True by (simpl; lia).
Qed.

Lemma build_exit_label_lookup trade :
  EXIT_LABELS !! determine_exit_type (Some trade)
    = Some (_build_exit_label (determine_exit_type (Some trade))).
Proof.
  unfold determine_exit_type, _DEFAULT_EXIT_TYPE.
  repeat match goal with |- context [if ?c then _ else _] => destruct c end;
    reflexivity.
Qed.

Lemma summarize_single_trade_shows r :
  shows_trade r (summarize_single_trade r false).
Proof.
  destruct r as [trade|]; [|reflexivity]. cbn [shows_trade summarize_single_trade].
  eexists. split; [reflexivity|].
  cbn [ts_ticket ts_symbol ts_profit ts_volume ts_order_type ts_closed_at
       ts_exit_type ts_exit ts_comment].
  split_and!; try reflexivity. apply build_exit_label_lookup.
Qed.

(** C4. Window correctness.  For each window N in {7, 30, 365} days the
    window is computed from exactly the trades with
    [closed_at ≥ now − N days]: its summary is the overall summary of that
    filtered list; its best trade is the summary of the first trade of
    maximum profit and its worst that of the first trade of minimum profit
    in the order of the list, and both are absent exactly when the window
    is empty.  For trades closed at now−400d (profit +1000), now−10d
    (profit −5) and now−1d (profit +10), the 7-day sum is 10, the 30-day sum
    is 5 and the 365-day sum is 5; the best trade of all three windows is
    the one of profit +10, the worst that of profit +10 in the 7-day window
    and of profit −5 in the others. *)
Theorem build_windows_correct :
  (∀ now trades, ∃ windows,
     build_windows now trades = Ok windows ∧
     dom windows = {["7d"; "30d"; "365d"]} ∧
     ∀ key days, (key, days) ∈ [("7d", 7); ("30d", 30); ("365d", 365)] →
       ∃ window best worst,
         let selected :=
           filter (λ trade, now - timedelta_days days ≤ mt_closed_at trade) trades in
         windows !! key = Some window ∧
         w_summary window = summary_reference selected ∧
         is_first_max mt_profit selected best ∧
         is_first_min mt_profit selected worst ∧
         shows_trade best (w_best_trade window) ∧
         shows_trade worst (w_worst_trade window) ∧
         (selected = [] ↔ w_best_trade window = None) ∧
         (selected = [] ↔ w_worst_trade window = None)) ∧
  (∀ now, ∃ windows w7 w30 w365,
     build_windows now (window_example now) = Ok windows ∧
     windows !! "7d" = Some w7 ∧ windows !! "30d" = Some w30 ∧
     windows !! "365d" = Some w365 ∧
     s_profit (w_summary w7) = 10%Q ∧
     s_profit (w_summary w30) = 5%Q ∧
     s_profit (w_summary w365) = 5%Q ∧
     ts_profit <$> w_best_trade w7 = Some 10%Q ∧
     ts_profit <$> w_worst_trade w7 = Some 10%Q ∧
     ts_profit <$> w_best_trade w30 = Some 10%Q ∧
     ts_profit <$> w_worst_trade w30 = Some (-5)%Q ∧
     ts_profit <$> w_best_trade w365 = Some 10%Q ∧
     ts_profit <$> w_worst_trade w365 = Some (-5)%Q).
Proof.
  split.
  - intros now trades. eexists. split; [apply build_windows_ok|]. split.
    { rewrite !dom_insert_L, dom_empty_L. set_solver. }
    intros key days Hin.
    exists (window_of (window_trades now days trades)),
           (py_max mt_profit (window_trades now days trades)),
           (py_min mt_profit (window_trades now days trades)).
    cbv zeta. fold (window_trades now days trades).
    split_and!.
    + repeat (apply elem_of_cons in Hin as [[= -> ->]|Hin]).
      * by rewrite !lookup_insert_ne, lookup_insert_eq by done.
      * by rewrite lookup_insert_ne, lookup_insert_eq by done.
      * by rewrite lookup_insert_eq.
      * exfalso. exact (not_elem_of_nil _ Hin).
    + reflexivity.
    + apply py_max_first.
    + apply py_min_first.
    + apply summarize_single_trade_shows.
    + apply summarize_single_trade_shows.
    + cbn [window_of w_best_trade].
      by destruct (window_trades now days trades).
    + cbn [window_of w_worst_trade].
      by destruct (window_trades now days trades).
  - intros now. eexists _, _, _, _. split; [apply build_windows_ok|].
    rewrite window_example_7d, !window_example_30d by auto.
    split; [by rewrite !lookup_insert_ne, lookup_insert_eq by done|].
    split; [by rewrite lookup_insert_ne, lookup_insert_eq by done|].
    split; [by rewrite lookup_insert_eq|].
    split_and!; vm_compute; reflexivity.
Qed.

(** ** Exit classification *)

Example exit_reason_hint_is_case_insensitive :
  determine_exit_type
    (Some {| mt_ticket := None; mt_symbol := None; mt_volume := 0; mt_profit := 0;
             mt_order_type := None; mt_comment := Some "[sl] trailing";
             mt_opened_at := None; mt_closed_at := jan1; mt_tp_label := None;
             mt_sl_label := None; mt_exit_reason := Some " DEAL_REASON_TP " |})
    = "tp".
Proof. reflexivity. Qed.

Example comment_hint_sl :
  determine_exit_type (Some (closed_trade 1 jan1)) = "manual" ∧
  determine_exit_type
    (Some {| mt_ticket := None; mt_symbol := None; mt_volume := 0; mt_profit := 0;
             mt_order_type := None; mt_comment := Some "Stop Loss reached";
             mt_opened_at := None; mt_closed_at := jan1; mt_tp_label := None;
             mt_sl_label := None; mt_exit_reason := None |})
    = "sl".
Proof. split; reflexivity. Qed.

(** C7. Exit classification follows the strict priority order, first match
    wins: a trade classifies as [tp] as soon as one of the three take-profit
    checks (label, exit-reason hints, comment hints) matches, whatever the
    stop-loss label and hints say; as [sl] when no take-profit check matches
    and a stop-loss check does; and as [manual] when no rule matches.  In
    particular a present (non-empty) [tp_label] yields [tp] even if the
    comment contains a stop-loss hint. *)
Theorem determine_exit_type_priority trade :
  determine_exit_type (Some trade) =
    (if tp_signal trade then "tp" else if sl_signal trade then "sl" else "manual") ∧
  (present (mt_tp_label trade) = true → determine_exit_type (Some trade) = "tp") ∧
  determine_exit_type None = "manual".
Proof.
  unfold determine_exit_type, tp_signal, sl_signal, _DEFAULT_EXIT_TYPE.
  split_and!; [|by intros ->|done].
  destruct (present (mt_tp_label trade)); [done|].
  destruct (_contains_hint (mt_exit_reason trade) _TP_REASON_HINTS); [done|].
  destruct (_contains_hint (mt_comment trade) _TP_COMMENT_HINTS); [done|].
  destruct (present (mt_sl_label trade)); [done|].
  destruct (_contains_hint (mt_exit_reason trade) _SL_REASON_HINTS); [done|].
  by destruct (_contains_hint (mt_comment trade) _SL_COMMENT_HINTS).
Qed.

Lemma determine_exit_type_priority_witness :
  _contains_hint (mt_comment labelled_trade) _SL_COMMENT_HINTS = true ∧
  present (mt_sl_label labelled_trade) = true ∧
  determine_exit_type (Some labelled_trade) = "tp".
Proof.
  split_and!; [reflexivity..|].
  by apply (determine_exit_type_priority labelled_trade).
Defined.

(** ** Per-symbol ranking *)

Section py_sort_more.
Context {A : Type} (key : A → json).

(** The sort is stable: elements that never compare as smaller than one
    another keep their order. *)
Lemma sort_insert_stable (P : A → Prop) `{∀ a, Decision (P a)} reverse x l r :
  (∀ a b, P a → P b → py_lt (key a) (key b) ≠ Ok true) →
  sort_insert key reverse x l = Ok r →
  filter P r = filter P (x :: l).
Proof.
  intros Hties. revert r. induction l as [|y l IH]; intros r; simpl.
  - by intros [= <-].
  - destruct (if reverse then _ else _) as [[]|] eqn:Hc; simpl; try done.
    + destruct (sort_insert key reverse x l) as [r'|]; simpl; [|done].
      intros [= <-]. rewrite filter_cons, (IH r' eq_refl), !filter_cons.
      destruct (decide (P y)) as [Hy|]; [|done].
      destruct (decide (P x)) as [Hx|]; [|done].
      destruct reverse; [by destruct (Hties x y)|by destruct (Hties y x)].
    + by intros [= <-].
Qed.

Lemma py_sorted_stable (P : A → Prop) `{∀ a, Decision (P a)} reverse l r :
  (∀ a b, P a → P b → py_lt (key a) (key b) ≠ Ok true) →
  py_sorted key reverse l = Ok r →
  filter P r = filter P l.
Proof.
  intros Hties. revert r. induction l as [|x l IH]; intros r; simpl.
  - by intros [= <-].
  - destruct (py_sorted key reverse l) as [r'|]; simpl; [|done].
    intros Hins. rewrite (sort_insert_stable P _ _ _ _ Hties Hins).
    by rewrite !filter_cons, (IH r' eq_refl).
Qed.

(** Sorting a list that is already in ascending order returns it. *)
Lemma py_sorted_ascending l :
  StronglySorted (sort_order key false) l → py_sorted key false l = Ok l.
Proof.
  induction l as [|x l IH]; [done|].
  intros [Hx Hl]%StronglySorted_cons. simpl. rewrite (IH Hl). simpl.
  destruct l as [|y l]; [done|]. simpl.
  apply Forall_cons in Hx as [Hxy _]. unfold sort_order, key_le in Hxy.
  by rewrite Hxy.
Qed.
End py_sort_more.

Lemma imap_rank_bucket k (l : list Bucket) :
  rb_bucket <$> imap (λ idx entry,
    {| rb_bucket := entry; rb_rank := Z.of_nat idx + k |}) l = l.
Proof.
  revert k. induction l as [|x l IH]; intros k; [done|].
  rewrite imap_cons, fmap_cons. f_equal. rewrite <- (IH (k + 1)) at 2.
  f_equal. apply imap_ext. intros i y _. simpl. f_equal. lia.
Qed.

Lemma imap_rank_rank k (l : list Bucket) :
  rb_rank <$> imap (λ idx entry,
    {| rb_bucket := entry; rb_rank := Z.of_nat idx + k |}) l
  = seqZ k (Z.of_nat (length l)).
Proof.
  revert k. induction l as [|x l IH]; intros k; [done|].
  rewrite imap_cons, fmap_cons, seqZ_cons by (simpl; lia). f_equal.
  replace (Z.pred (Z.of_nat (length (x :: l)))) with (Z.of_nat (length l))
    by (simpl; lia).
  rewrite <- (IH (Z.succ k)). f_equal. apply imap_ext. intros i y _.
  simpl. f_equal. lia.
Qed.

Lemma rank_all_ascending (l : list Bucket) :
  StronglySorted (sort_order (λ item, JInt (rb_rank item)) false) (rank_all l).
Proof.
  unfold rank_all. generalize 1. induction l as [|x l IH]; intros k.
  - constructor.
  - rewrite imap_cons. constructor.
    + rewrite (imap_ext _ (λ idx entry,
        {| rb_bucket := entry; rb_rank := Z.of_nat idx + (k + 1) |}));
        [apply IH|].
      intros i y _. simpl. f_equal. lia.
    + apply Forall_forall. intros r [i [y [-> _]]]%elem_of_lookup_imap.
      simpl. eapply key_le_num; [done..|].
      unfold Qle. simpl. lia.
Qed.

Lemma StronglySorted_mono {A} (R R' : A → A → Prop) l :
  (∀ a b, R a b → R' a b) → StronglySorted R l → StronglySorted R' l.
Proof.
  intros Himpl. induction 1 as [|x l Hl IH Hx]; constructor; [done|].
  eapply Forall_impl; [done|]. intros y. apply Himpl.
Qed.

Lemma StronglySorted_drop {A} (R : A → A → Prop) n l :
  StronglySorted R l → StronglySorted R (drop n l).
Proof.
  intros Hl. rewrite <- (take_drop n l) in Hl.
  by apply StronglySorted_app in Hl as (_ & _ & ?).
Qed.

Lemma profit_ties_never_lt p (a b : Bucket) :
  (b_profit a == p)%Q → (b_profit b == p)%Q →
  py_lt (JFloat (b_profit a)) (JFloat (b_profit b)) ≠ Ok true.
Proof.
  intros Ha Hb [= Hlt]. apply Qltb_true_lt in Hlt.
  rewrite Ha, Hb in Hlt. by apply Qlt_irrefl in Hlt.
Qed.

(** What [build_symbol_lists] returns, in terms of the sorted groups. *)
Lemma build_symbol_lists_ok trades ordered :
  py_sorted (λ item, JFloat (b_profit item)) true (symbol_groups trades) = Ok ordered →
  build_symbol_lists trades =
    Ok (take 5 (rank_all ordered), drop (length ordered - 5) (rank_all ordered)).
Proof.
  intros Hord. unfold build_symbol_lists. fold (symbol_groups trades).
  rewrite Hord. cbn [mbind result_bind]. fold (rank_all ordered).
  unfold rank_all at 2. rewrite length_imap.
  rewrite py_sorted_ascending; [done|].
  apply StronglySorted_drop, rank_all_ascending.
Qed.

(** C6. Ranking determinism.  [build_symbol_lists] returns for every trade
    list: the groups are put in descending order of total profit by a stable
    sort (groups of equal profit keep the order in which their symbols were
    first met), ranks 1, 2, ... are assigned in that order, the top list is
    the first 5 ranked groups and the bottom list the last 5, in ascending
    order of rank; with at most 5 groups both lists hold all of them.  For
    three symbols with profits 100, 100, −50 the ties get ranks 1 and 2 in
    encounter order and the loser rank 3, and both lists are ranks 1, 2, 3. *)
Theorem build_symbol_lists_ranking :
  (∀ trades, ∃ ordered,
     py_sorted (λ item, JFloat (b_profit item)) true (symbol_groups trades)
       = Ok ordered ∧
     build_symbol_lists trades =
       Ok (take 5 (rank_all ordered), drop (length ordered - 5) (rank_all ordered)) ∧
     ordered ≡ₚ symbol_groups trades ∧
     StronglySorted (λ a b, (b_profit b <= b_profit a)%Q) ordered ∧
     (∀ p, filter (λ b, (b_profit b == p)%Q) ordered
           = filter (λ b, (b_profit b == p)%Q) (symbol_groups trades)) ∧
     rb_bucket <$> rank_all ordered = ordered ∧
     rb_rank <$> rank_all ordered = seqZ 1 (Z.of_nat (length ordered)) ∧
     ((length ordered ≤ 5)%nat →
      take 5 (rank_all ordered) = rank_all ordered ∧
      drop (length ordered - 5) (rank_all ordered) = rank_all ordered)) ∧
  (∃ top bottom,
     build_symbol_lists
       [symbol_trade "A" 100; symbol_trade "B" 100; symbol_trade "C" (-50)]
       = Ok (top, bottom) ∧
     ranking_row <$> top = [(Some "A", 100%Q, 1); (Some "B", 100%Q, 2);
                            (Some "C", (-50)%Q, 3)] ∧
     bottom = top) ∧
  (∃ top bottom,
     build_symbol_lists
       [symbol_trade "C" (-50); symbol_trade "B" 100; symbol_trade "A" 60;
        symbol_trade "A" 40]
       = Ok (top, bottom) ∧
     ranking_row <$> top = [(Some "B", 100%Q, 1); (Some "A", 100%Q, 2);
                            (Some "C", (-50)%Q, 3)] ∧
     bottom = top).
Proof.
  split_and!.
  - intros trades.
    destruct (py_sorted_total (λ item, JFloat (b_profit item)) true
                (symbol_groups trades)) as [ordered Hord].
    { intros a b _ _. by eexists. }
    exists ordered. split_and!.
    + done.
    + by apply build_symbol_lists_ok.
    + by eapply py_sorted_perm.
    + apply py_sorted_sorted in Hord.
      eapply StronglySorted_mono; [|done]. simpl.
      intros a b [(? & ? & ? & ? & _)|(x & y & Hx & Hy & Hle)]%key_le_inv;
        simplify_eq/=. done.
    + intros p. eapply py_sorted_stable; [|done].
      intros a b. apply profit_ties_never_lt.
    + apply imap_rank_bucket.
    + apply imap_rank_rank.
    + intros Hlen. split.
      * apply take_ge. unfold rank_all. by rewrite length_imap.
      * replace (length ordered - 5)%nat with 0%nat by lia. apply drop_0.
  - eexists _, _. split_and!; by vm_compute.
  - eexists _, _. split_and!; by vm_compute.
Qed.

(** The totals that are ranked are sums of doubles: 1e16 + 1.0 is 1e16, so
    [A] ties with [B] and keeps its place behind it; 0.1 + 0.2 is the
    double above 0.3. *)
Example build_symbol_lists_in_doubles :
  (∃ top bottom,
     build_symbol_lists
       [symbol_trade "B" (inject_Z (10 ^ 16)); symbol_trade "A" (inject_Z (10 ^ 16));
        symbol_trade "A" 1]
       = Ok (top, bottom) ∧
     ranking_row <$> top = [(Some "B", inject_Z (10 ^ 16), 1);
                            (Some "A", inject_Z (10 ^ 16), 2)]) ∧
  b_profit <$> symbol_groups
    [symbol_trade "A" (round_double (1 # 10)); symbol_trade "A" (round_double (2 # 10))]
    = [(1351079888211149 # 4503599627370496)%Q].
Proof.
  split; [|vm_compute; reflexivity].
  eexists _, _. split; by vm_compute.
Qed.

(** ** The normalizer *)

Lemma py_float_Ok rt value :
  (∃ q, py_float rt value = Ok q) ↔ float_accepts rt value.
Proof.
  destruct value as [|b|n|q|s]; cbn [py_float float_accepts].
  - split; [by intros [? ?]|done].
  - split; [done|by eexists].
  - unfold float_of_int.
    destruct (Qle_bool (pow2 1024) (Qabs (round_double (inject_Z n)))) eqn:Hle.
    + split; [by intros [? ?]|]. intros Hlt.
      apply Qle_bool_iff in Hle. by apply Qle_not_lt in Hle.
    + split; [|by eexists]. intros _. apply Qnot_le_lt.
      rewrite <- Qle_bool_iff. congruence.
  - split; [done|by eexists].
  - destruct (float_of_string rt s) as [q|]; split.
    + by eexists.
    + by eexists.
    + by intros [? ?].
    + by intros [? ?].
Qed.

Lemma parse_iso_datetime_Ok rt value :
  (∃ r, parse_iso_datetime rt value = Ok r) ↔ timestamp_accepts rt value.
Proof.
  unfold parse_iso_datetime, timestamp_accepts.
  destruct (truthy value) eqn:Htr; simpl; [|split; [by left|by eexists]].
  split.
  - intros [r Hr]. right. destruct value; try done.
    exists s. split; [done|]. fold (clean_timestamp s) in Hr.
    by destruct (fromisoformat rt (clean_timestamp s)).
  - intros [?|(s & -> & [t Ht])]; [done|].
    fold (clean_timestamp s). rewrite Ht. by eexists.
Qed.

Lemma parse_iso_datetime_falsy rt value :
  truthy value = false → parse_iso_datetime rt value = Ok None.
Proof. intros H. unfold parse_iso_datetime. by rewrite H. Qed.

Lemma py_get_default_absent (d : dict) k dflt :
  d !! k = None → py_get_default d k dflt = dflt.
Proof. intros H. unfold py_get_default. by rewrite H. Qed.

Lemma normalize_trade_Ok rt entry :
  (∃ trade, normalize_trade rt entry = Ok trade) ↔
  timestamp_field rt entry "closed_at" ∧ timestamp_field rt entry "opened_at" ∧
  numeric_field rt entry "volume" ∧ numeric_field rt entry "profit".
Proof.
  unfold timestamp_field, numeric_field.
  rewrite <- !parse_iso_datetime_Ok, <- !py_float_Ok. unfold normalize_trade.
  destruct (parse_iso_datetime rt (py_get (payload entry) "closed_at")) as [c|];
    simpl; [|split; [by intros [? ?]|by intros ([? ?] & _)]].
  destruct (parse_iso_datetime rt (py_get (payload entry) "opened_at")) as [o|];
    simpl; [|split; [by intros [? ?]|by intros (_ & [? ?] & _)]].
  destruct (py_float rt (py_get_default (payload entry) "volume" (JFloat 0))) as [v|];
    simpl; [|split; [by intros [? ?]|by intros (_ & _ & [? ?] & _)]].
  destruct (py_float rt (py_get_default (payload entry) "profit" (JFloat 0))) as [p|];
    simpl; [|split; [by intros [? ?]|by intros (_ & _ & _ & [? ?])]].
  split; [|by eexists]. intros _. split_and!; by eexists.
Qed.

Lemma normalize_snapshot_Ok rt entry :
  (∃ snap, normalize_snapshot rt entry = Ok snap) ↔
  timestamp_field rt entry "timestamp" ∧ numeric_field rt entry "balance" ∧
  numeric_field rt entry "equity" ∧ numeric_field rt entry "floating".
Proof.
  unfold timestamp_field, numeric_field.
  rewrite <- !parse_iso_datetime_Ok, <- !py_float_Ok. unfold normalize_snapshot.
  destruct (parse_iso_datetime rt (py_get (payload entry) "timestamp")) as [c|];
    simpl; [|split; [by intros [? ?]|by intros ([? ?] & _)]].
  destruct (py_float rt (py_get_default (payload entry) "balance" (JFloat 0))) as [b|];
    simpl; [|split; [by intros [? ?]|by intros (_ & [? ?] & _)]].
  destruct (py_float rt (py_get_default (payload entry) "equity" (JFloat 0))) as [e|];
    simpl; [|split; [by intros [? ?]|by intros (_ & _ & [? ?] & _)]].
  destruct (py_float rt (py_get_default (payload entry) "floating" (JFloat 0))) as [f|];
    simpl; [|split; [by intros [? ?]|by intros (_ & _ & _ & [? ?])]].
  split; [|by eexists]. intros _. split_and!; by eexists.
Qed.

(** C8 (amended). Normalizer leniency.  [normalize_trade] returns a record
    exactly when [closed_at] and [opened_at] are missing, empty or strings
    that [fromisoformat] parses, and [volume] and [profit] are absent or
    values that [float()] accepts (a boolean, a float, a string the runtime
    parses, an integer within the range of doubles); an absent [volume] or
    [profit] is set to 0.0 and a missing or empty [closed_at] falls back to
    the timestamp of the enclosing log line.  [normalize_snapshot] behaves
    in the same way for [timestamp] and for [balance], [equity] and
    [floating].  On every other entry the normalizer raises. *)
Theorem normalize_lenient rt entry :
  ((∃ trade, normalize_trade rt entry = Ok trade) ↔
   timestamp_field rt entry "closed_at" ∧ timestamp_field rt entry "opened_at" ∧
   numeric_field rt entry "volume" ∧ numeric_field rt entry "profit") ∧
  (∀ trade, normalize_trade rt entry = Ok trade →
     (payload entry !! "volume" = None → nt_volume trade = 0%Q) ∧
     (payload entry !! "profit" = None → nt_profit trade = 0%Q) ∧
     (truthy (py_get (payload entry) "closed_at") = false →
      nt_closed_at trade = log_timestamp entry)) ∧
  ((∃ snap, normalize_snapshot rt entry = Ok snap) ↔
   timestamp_field rt entry "timestamp" ∧ numeric_field rt entry "balance" ∧
   numeric_field rt entry "equity" ∧ numeric_field rt entry "floating") ∧
  (∀ snap, normalize_snapshot rt entry = Ok snap →
     (payload entry !! "balance" = None → ns_balance snap = 0%Q) ∧
     (payload entry !! "equity" = None → ns_equity snap = 0%Q) ∧
     (payload entry !! "floating" = None → ns_floating snap = 0%Q) ∧
     (truthy (py_get (payload entry) "timestamp") = false →
      ns_timestamp snap = log_timestamp entry)).
Proof.
  split_and!.
  - apply normalize_trade_Ok.
  - intros trade. unfold normalize_trade.
    destruct (parse_iso_datetime rt (py_get (payload entry) "closed_at"))
      as [c|] eqn:Hc; simpl; [|done].
    destruct (parse_iso_datetime rt (py_get (payload entry) "opened_at"))
      as [o|]; simpl; [|done].
    destruct (py_float rt (py_get_default (payload entry) "volume" (JFloat 0)))
      as [v|] eqn:Hv; simpl; [|done].
    destruct (py_float rt (py_get_default (payload entry) "profit" (JFloat 0)))
      as [p|] eqn:Hp; simpl; [|done].
    intros [= <-]. simpl. split_and!.
    + intros Habs. rewrite py_get_default_absent in Hv by done. by injection Hv.
    + intros Habs. rewrite py_get_default_absent in Hp by done. by injection Hp.
    + intros Htr. rewrite parse_iso_datetime_falsy in Hc by done. by injection Hc as <-.
  - apply normalize_snapshot_Ok.
  - intros snap. unfold normalize_snapshot.
    destruct (parse_iso_datetime rt (py_get (payload entry) "timestamp"))
      as [c|] eqn:Hc; simpl; [|done].
    destruct (py_float rt (py_get_default (payload entry) "balance" (JFloat 0)))
      as [b|] eqn:Hb; simpl; [|done].
    destruct (py_float rt (py_get_default (payload entry) "equity" (JFloat 0)))
      as [e|] eqn:He; simpl; [|done].
    destruct (py_float rt (py_get_default (payload entry) "floating" (JFloat 0)))
      as [f|] eqn:Hf; simpl; [|done].
    intros [= <-]. simpl. split_and!.
    + intros Habs. rewrite py_get_default_absent in Hb by done. by injection Hb.
    + intros Habs. rewrite py_get_default_absent in He by done. by injection He.
    + intros Habs. rewrite py_get_default_absent in Hf by done. by injection Hf.
    + intros Htr. rewrite parse_iso_datetime_falsy in Hc by done. by injection Hc as <-.
Qed.

Lemma normalize_lenient_witness :
  (∃ trade, normalize_trade strict_runtime sparse_trade_entry = Ok trade ∧
            nt_volume trade = 0%Q ∧ nt_closed_at trade = jan1) ∧
  (∃ snap, normalize_snapshot strict_runtime sparse_snapshot_entry = Ok snap ∧
           ns_equity snap = 0%Q ∧ ns_timestamp snap = jan1).
Proof.
  split.
  - destruct (normalize_lenient strict_runtime sparse_trade_entry)
      as (Hiff & Hval & _).
    destruct (proj2 Hiff) as [trade Htrade].
    { split_and!; [by left|by left|exact I|exact I]. }
    exists trade. destruct (Hval trade Htrade) as (Hv & _ & Hc).
    split_and!; [done|by apply Hv|by apply Hc].
  - destruct (normalize_lenient strict_runtime sparse_snapshot_entry)
      as (_ & _ & Hiff & Hval).
    destruct (proj2 Hiff) as [snap Hsnap].
    { split_and!; [by left|by vm_compute|exact I|exact I]. }
    exists snap. destruct (Hval snap Hsnap) as (_ & He & _ & Hc).
    split_and!; [done|by apply He|by apply Hc].
Defined.

(** C8, as stated, fails: a numeric field that holds a non-numeric value
    and a timestamp field that holds an unparseable value make the
    normalizer raise instead of falling back. *)
Lemma normalize_lenient_counterexample :
  (∀ rt, normalize_trade rt (entry_of [("ticket", JStr "1"); ("volume", JNull)])
         = Raise TypeError) ∧
  (∀ rt, normalize_snapshot rt (entry_of [("balance", JNull)]) = Raise TypeError) ∧
  (∀ rt, normalize_trade rt (entry_of [("ticket", JStr "1"); ("closed_at", JInt 20240101)])
         = Raise AttributeError) ∧
  (∀ rt, float_of_string rt "n/a" = None →
         normalize_snapshot rt (entry_of [("balance", JStr "n/a")]) = Raise ValueError) ∧
  (∀ rt, fromisoformat rt "yesterday" = None →
         normalize_trade rt (entry_of [("ticket", JStr "1"); ("closed_at", JStr "yesterday")])
         = Raise ValueError).
Proof.
  split_and!; try (intros rt; by vm_compute).
  - intros rt Hf. unfold normalize_snapshot, entry_of. cbn [payload log_timestamp].
    change (py_get (list_to_map [("balance", JStr "n/a")]) "timestamp") with JNull.
    change (py_get_default (list_to_map [("balance", JStr "n/a")]) "balance" (JFloat 0))
      with (JStr "n/a").
    rewrite parse_iso_datetime_falsy by done. simpl. by rewrite Hf.
  - intros rt Hf. unfold normalize_trade, entry_of. cbn [payload log_timestamp].
    change (py_get (list_to_map [("ticket", JStr "1"); ("closed_at", JStr "yesterday")])
              "closed_at") with (JStr "yesterday").
    unfold parse_iso_datetime. simpl.
    change (py_strip "yesterday") with "yesterday". simpl. by rewrite Hf.
Qed.

(** An integer beyond the range of doubles makes [float()], and with it the
    normalizer, raise [OverflowError]; an integer within the range is
    converted to the nearest double. *)
Example normalize_integer_fields rt :
  normalize_snapshot rt (entry_of [("balance", JInt (10 ^ 400))]) = Raise OverflowError ∧
  py_float rt (JInt (2 ^ 53 + 1)) = Ok (inject_Z (2 ^ 53)).
Proof. split; vm_compute; reflexivity. Qed.

(** ** Tickets *)

(** Every trade a merge appends has a non-empty ticket. *)
Lemma appended_trades_ticket history trades trade :
  trade ∈ appended_trades history trades → nt_ticket trade ≠ "".
Proof.
  intros (Htr & _ & _)%accepted_truthy Hempty.
  unfold ticket_key in Htr. by rewrite Hempty in Htr.
Qed.

Example empty_ticket_is_dropped rt :
  let trade :=
    {| nt_ticket := ""; nt_symbol := JStr "UNKNOWN"; nt_volume := 0;
       nt_profit := inject_Z 3; nt_order_type := JNull; nt_comment := JNull;
       nt_opened_at := None; nt_closed_at := jan1;
       nt_tp_label := JNull; nt_sl_label := JNull |} in
  normalize_trade rt (entry_of [("ticket", JStr ""); ("profit", JInt 3)]) = Ok trade ∧
  merge_history empty_history [trade] [] = Ok empty_history.
Proof. split; vm_compute; reflexivity. Qed.

(** C9 (the code departs from the claim). A log entry without a [ticket]
    field is normalized to a trade whose ticket is the string ["None"],
    [str(None)], which is not empty: the merge stores it. *)
Theorem missing_ticket_is_stored rt :
  payload sparse_trade_entry !! "ticket" = None ∧
  normalize_trade rt sparse_trade_entry = Ok ticketless_trade ∧
  nt_ticket ticketless_trade = "None" ∧
  merge_history empty_history [ticketless_trade] [] =
    Ok {| h_version := JInt 1;
          h_trades := [serialize_trade ticketless_trade];
          h_snapshots := [] |}.
Proof. split_and!; vm_compute; reflexivity. Qed.


(** ** Invariants of the overall summary *)

Lemma round_half_even_floor q :
  round_half_even q = Qfloor q ∨ round_half_even q = Qfloor q + 1.
Proof. unfold round_half_even. destruct (Qcompare _ _); [destruct (Z.even _)|..]; auto. Qed.

Lemma round_half_even_ge (k : Z) q : (inject_Z k <= q)%Q → k ≤ round_half_even q.
Proof.
  intros Hle. apply Qfloor_resp_le in Hle. rewrite Qfloor_Z in Hle.
  destruct (round_half_even_floor q) as [-> | ->]; lia.
Qed.

Lemma round_half_even_le (k : Z) q : (q <= inject_Z k)%Q → round_half_even q ≤ k.
Proof.
  intros Hle. pose proof (Qfloor_resp_le _ _ Hle) as Hfl. rewrite Qfloor_Z in Hfl.
  destruct (decide (Qfloor q = k)) as [Heq|Hne].
  - unfold round_half_even.
    assert (q - inject_Z (Qfloor q) <= 0)%Q as Hfrac.
    { rewrite Heq. apply (Qplus_le_l _ _ (inject_Z k)). ring_simplify. done. }
    destruct (Qcompare (q - inject_Z (Qfloor q)) (1 # 2)) eqn:Hc.
    + apply Qeq_alt in Hc. rewrite Hc in Hfrac. by apply Qle_not_lt in Hfrac.
    + lia.
    + apply Qgt_alt in Hc. exfalso. eapply Qle_not_lt; [apply Hfrac|].
      eapply Qlt_trans; [|apply Hc]. done.
  - destruct (round_half_even_floor q) as [-> | ->]; lia.
Qed.

Lemma py_round_bounds (a b : Z) q (n : Z) :
  0 ≤ n → (inject_Z a <= q <= inject_Z b)%Q →
  (inject_Z a <= py_round q n <= inject_Z b)%Q.
Proof.
  intros Hn [Ha Hb]. unfold py_round. rewrite Qred_correct.
  assert (0 < 10 ^ n) as Hpos by (apply Z.pow_pos_nonneg; lia).
  assert (0 < inject_Z (10 ^ n))%Q as Hposq.
  { rewrite <- (Zlt_Qlt 0). done. }
  split.
  - apply Qle_shift_div_l; [done|]. rewrite <- inject_Z_mult, <- Zle_Qle.
    apply round_half_even_ge. rewrite inject_Z_mult.
    by apply Qmult_le_compat_r; [|apply Qlt_le_weak].
  - apply Qle_shift_div_r; [done|]. rewrite <- inject_Z_mult, <- Zle_Qle.
    apply round_half_even_le. rewrite inject_Z_mult.
    by apply Qmult_le_compat_r; [|apply Qlt_le_weak].
Qed.

(** ** Float arithmetic

    Rounding to the nearest double keeps a value between 0 and an integer
    below [2^53]: such bounds are doubles themselves. *)

Lemma pow2_pos e : (0 < pow2 e)%Q.
Proof. unfold pow2. by apply Qpower_0_lt. Qed.

Lemma pow2_neg (s : Z) : 0 ≤ s → (pow2 (- s) == 1 / inject_Z (2 ^ s))%Q.
Proof.
  intros Hs. unfold pow2. rewrite Qpower_opp, (Zpower_Qpower 2 s) by done.
  change (inject_Z 2) with 2%Q. field.
  intros Hz. pose proof (Qpower_0_lt 2 s) as Hpos.
  rewrite Hz in Hpos. by apply (Qlt_irrefl 0), Hpos.
Qed.

Lemma double_exponent_small a (k : Z) :
  (0 < a)%Q → (a <= inject_Z k)%Q → k < 2 ^ 53 → double_exponent a ≤ 52.
Proof.
  intros Hpos Hle Hk. unfold double_exponent.
  destruct a as [num den]. cbn [Qnum Qden].
  assert (0 < num) as Hnum.
  { unfold Qlt in Hpos. simpl in Hpos. lia. }
  assert (num ≤ k * Z.pos den) as Hnk.
  { unfold Qle in Hle. simpl in Hle. lia. }
  pose proof (Z.log2_spec (Z.pos den) eq_refl) as [_ Hden].
  set (ld := Z.log2 (Z.pos den)) in *.
  assert (0 ≤ ld) as Hld by apply Z.log2_nonneg.
  assert (Z.log2 num < 54 + ld) as Hlog.
  { apply Z.log2_lt_pow2; [done|].
    replace (54 + ld) with (53 + Z.succ ld) by lia.
    rewrite Z.pow_add_r by lia. nia. }
  destruct (Qle_bool (pow2 (Z.log2 num - ld)) (num # den)) eqn:Hcheck; [|lia].
  destruct (decide (Z.log2 num - ld = 53)) as [Heq|Hne]; [|lia].
  exfalso. rewrite Heq in Hcheck. apply Qle_bool_iff in Hcheck.
  assert (pow2 53 <= inject_Z k)%Q as Hbad by (by eapply Qle_trans).
  change (pow2 53) with (inject_Z (2 ^ 53)) in Hbad.
  rewrite <- Zle_Qle in Hbad. lia.
Qed.

Lemma round_double_nonneg q : (0 <= q)%Q → (0 <= round_double q)%Q.
Proof.
  intros Hq. unfold round_double.
  destruct (Qnum q =? 0) eqn:Hz; [done|]. apply Z.eqb_neq in Hz.
  assert (0 < Qnum q) as Hnum.
  { unfold Qle in Hq. simpl in Hq. lia. }
  rewrite (proj2 (Z.ltb_lt 0 (Qnum q)) Hnum). cbv zeta. rewrite Qred_correct.
  set (shift := Z.max _ _).
  pose proof (pow2_pos shift) as Hp.
  assert (0 ≤ round_half_even (Qabs q / pow2 shift)) as Hm.
  { apply round_half_even_ge. apply Qle_shift_div_l; [done|].
    rewrite Qmult_0_l. apply Qabs_nonneg. }
  rewrite Zle_Qle in Hm.
  change (inject_Z 0) with 0%Q in Hm.
  apply Qmult_le_0_compat; [|by apply Qlt_le_weak].
  rewrite Qmult_1_l. done.
Qed.

Lemma round_double_le q (k : Z) :
  (0 <= q)%Q → (q <= inject_Z k)%Q → k < 2 ^ 53 → (round_double q <= inject_Z k)%Q.
Proof.
  intros Hq Hle Hk. unfold round_double.
  destruct (Qnum q =? 0) eqn:Hz.
  { eapply Qle_trans; [apply Hq|done]. }
  apply Z.eqb_neq in Hz.
  assert (0 < Qnum q) as Hnum.
  { unfold Qle in Hq. simpl in Hq. lia. }
  assert (0 < q)%Q as Hpos.
  { unfold Qlt. simpl. lia. }
  rewrite (proj2 (Z.ltb_lt 0 (Qnum q)) Hnum). cbv zeta. rewrite Qred_correct.
  assert (Qabs q == q)%Q as Habs by (by apply Qabs_pos).
  assert (double_exponent (Qabs q) ≤ 52) as Hexp.
  { apply (double_exponent_small _ k); [lra|lra|done]. }
  set (shift := Z.max (double_exponent (Qabs q) - 52) (-1074)).
  assert (shift ≤ 0) as Hshift by (unfold shift; lia).
  set (s := - shift). assert (0 ≤ s) as Hs by (unfold s; lia).
  replace shift with (- s) by (unfold s; lia).
  assert (0 < 2 ^ s) as Hpow by (apply Z.pow_pos_nonneg; lia).
  assert (0 < inject_Z (2 ^ s))%Q as Hpowq by (by rewrite <- (Zlt_Qlt 0)).
  assert (round_half_even (Qabs q / pow2 (- s)) ≤ k * 2 ^ s) as Hm.
  { apply round_half_even_le. rewrite inject_Z_mult.
    assert (Qabs q / pow2 (- s) == q * inject_Z (2 ^ s))%Q as Heq.
    { eapply Qeq_trans; [apply Qmult_comp; [apply Habs|
        apply Qinv_comp, (pow2_neg s Hs)]|].
      field. intros Hzero. rewrite Hzero in Hpowq. by apply Qlt_irrefl in Hpowq. }
    eapply Qle_trans; [apply Qle_lteq; right; apply Heq|].
    by apply Qmult_le_compat_r; [|apply Qlt_le_weak]. }
  rewrite Zle_Qle, inject_Z_mult in Hm.
  set (m := inject_Z (round_half_even _)) in *.
  assert (1 * m * pow2 (- s) == m / inject_Z (2 ^ s))%Q as Heq.
  { eapply Qeq_trans; [apply Qmult_comp; [reflexivity|apply (pow2_neg s Hs)]|].
    field. intros Hzero. rewrite Hzero in Hpowq. by apply Qlt_irrefl in Hpowq. }
  eapply Qle_trans; [apply Qle_lteq; right; apply Heq|].
  by apply Qle_shift_div_r.
Qed.

(** ** Counting *)

Lemma filter_disjoint_length {A} (P R : A → bool) (l : list A) :
  (∀ x, P x = true → R x = true → False) →
  (length (List.filter P l) + length (List.filter R l) ≤ length l)%nat.
Proof.
  intros Hdis. induction l as [|x l IH]; simpl; [lia|].
  destruct (P x) eqn:HP, (R x) eqn:HR; simpl; try lia.
  by destruct (Hdis x).
Qed.

Lemma filter_length_le {A} (P : A → bool) (l : list A) :
  (length (List.filter P l) ≤ length l)%nat.
Proof. induction l as [|x l IH]; simpl; [lia|]. destruct (P x); simpl; lia. Qed.

(** X1. The overall summary is well formed for every trade list:
    [summarize_trades] returns, the trade count is the length of the list,
    wins and losses are not negative and together do not exceed the count,
    and the win rate lies between 0 and 100. *)
Theorem summarize_trades_bounds trades :
  ∃ s, summarize_trades trades = Ok s ∧
    s_trades s = Z.of_nat (length trades) ∧
    0 ≤ s_wins s ∧ 0 ≤ s_losses s ∧
    s_wins s + s_losses s ≤ s_trades s ∧
    (0 <= s_win_rate s <= 100)%Q.
Proof.
  exists (summary_reference trades). split; [apply summarize_trades_ok|].
  unfold summary_reference, count_if. cbn [s_trades s_wins s_losses s_win_rate].
  pose proof (filter_disjoint_length
    (λ trade, Qltb 0 (mt_profit trade)) (λ trade, Qltb (mt_profit trade) 0) trades)
    as Hdis.
  pose proof (filter_length_le (λ trade, Qltb 0 (mt_profit trade)) trades) as Hwins.
  split; [done|]. split; [lia|]. split; [lia|]. split.
  - apply Nat2Z.inj_le in Hdis; [rewrite Nat2Z.inj_add in Hdis; lia|].
    intros x Hp Hn. apply Qltb_true_lt in Hp, Hn.
    by apply (Qlt_irrefl 0), (Qlt_trans _ (mt_profit x)).
  - destruct (Z.of_nat (length trades) =? 0) eqn:Hz; [done|].
    apply Z.eqb_neq in Hz.
    apply (py_round_bounds 0 100); [lia|].
    set (w := Z.of_nat (length (List.filter _ trades))).
    set (c := Z.of_nat (length trades)).
    assert (0 ≤ w ≤ c) as Hw by (unfold w, c; lia).
    assert (0 < inject_Z c)%Q as Hc by (rewrite <- (Zlt_Qlt 0); lia).
    assert (0 <= inject_Z w / inject_Z c)%Q as Hlo.
    { apply Qle_shift_div_l; [done|]. rewrite Qmult_0_l, <- (Zle_Qle 0). lia. }
    assert (inject_Z w / inject_Z c <= inject_Z 1)%Q as Hhi.
    { apply Qle_shift_div_r; [done|]. rewrite Qmult_1_l, <- Zle_Qle. lia. }
    pose proof (round_double_nonneg _ Hlo) as Hratio0.
    pose proof (round_double_le _ 1 Hlo Hhi eq_refl) as Hratio1.
    set (ratio := round_double (inject_Z w / inject_Z c)) in *.
    change (inject_Z 1) with 1%Q in Hratio1.
    unfold float_mul. split.
    + apply round_double_nonneg. lra.
    + apply round_double_le; [lra| |done]. change (inject_Z 100) with 100%Q. lra.
Qed.


(** ** Nesting of the windows *)

Lemma window_trades_nested now days days' trades :
  days ≤ days' →
  window_trades now days trades
    = filter (λ trade, now - timedelta_days days ≤ mt_closed_at trade)
             (window_trades now days' trades).
Proof.
  intros Hle. unfold window_trades. rewrite list_filter_filter.
  apply list_filter_iff. intros trade. unfold timedelta_days. lia.
Qed.

Lemma count_if_filter (P : MTrade → bool) (R : MTrade → Prop)
    `{∀ x, Decision (R x)} trades :
  count_if P (filter R trades) ≤ count_if P trades.
Proof.
  unfold count_if. induction trades as [|t l IH]; [done|].
  rewrite filter_cons. destruct (decide (R t)); simpl; destruct (P t); simpl; lia.
Qed.

Lemma summary_reference_nested (R : MTrade → Prop) `{∀ x, Decision (R x)} trades :
  s_trades (summary_reference (filter R trades)) ≤ s_trades (summary_reference trades) ∧
  s_wins (summary_reference (filter R trades)) ≤ s_wins (summary_reference trades) ∧
  s_losses (summary_reference (filter R trades)) ≤ s_losses (summary_reference trades).
Proof.
  unfold summary_reference. cbn [s_trades s_wins s_losses]. split_and!.
  - pose proof (length_filter R trades). lia.
  - apply count_if_filter.
  - apply count_if_filter.
Qed.

(** X2. The rolling windows are nested: [build_windows] returns the three
    windows, and the trade, win and loss counts of the 7-day window do not
    exceed those of the 30-day window, which do not exceed those of the
    365-day window, which covers at most all trades; a trade closed at or
    after the clock reading is in every window. *)
Theorem build_windows_nested now trades :
  ∃ windows w7 w30 w365,
    build_windows now trades = Ok windows ∧
    windows !! "7d" = Some w7 ∧ windows !! "30d" = Some w30 ∧
    windows !! "365d" = Some w365 ∧
    s_trades (w_summary w7) ≤ s_trades (w_summary w30) ∧
    s_trades (w_summary w30) ≤ s_trades (w_summary w365) ∧
    s_trades (w_summary w365) ≤ Z.of_nat (length trades) ∧
    s_wins (w_summary w7) ≤ s_wins (w_summary w30) ∧
    s_wins (w_summary w30) ≤ s_wins (w_summary w365) ∧
    s_losses (w_summary w7) ≤ s_losses (w_summary w30) ∧
    s_losses (w_summary w30) ≤ s_losses (w_summary w365) ∧
    (∀ trade, trade ∈ trades → now ≤ mt_closed_at trade →
       trade ∈ window_trades now 7 trades).
Proof.
  eexists _, _, _, _. split; [apply build_windows_ok|].
  split; [by rewrite !lookup_insert_ne, lookup_insert_eq by done|].
  split; [by rewrite lookup_insert_ne, lookup_insert_eq by done|].
  split; [by rewrite lookup_insert_eq|].
  cbn [w_summary window_of].
  rewrite (window_trades_nested now 7 30 trades) by lia.
  rewrite (window_trades_nested now 30 365 trades) by lia.
  pose proof (summary_reference_nested
    (λ trade, now - timedelta_days 7 ≤ mt_closed_at trade)
    (filter (λ trade, now - timedelta_days 30 ≤ mt_closed_at trade)
       (window_trades now 365 trades))) as (? & ? & ?).
  pose proof (summary_reference_nested
    (λ trade, now - timedelta_days 30 ≤ mt_closed_at trade)
    (window_trades now 365 trades)) as (? & ? & ?).
  split_and!; try done.
  - unfold window_trades, summary_reference. cbn [s_trades].
    pose proof (length_filter
      (λ trade, now - timedelta_days 365 ≤ mt_closed_at trade) trades). lia.
  - intros trade Hin Hnow. unfold window_trades, timedelta_days.
    rewrite !list_elem_of_filter. split_and!; [lia..|done].
Qed.


(** ** Grouping by symbol *)

Lemma first_seen_elem_of {A} `{EqDecision A} (l : list A) x :
  x ∈ first_seen l ↔ x ∈ l.
Proof.
  induction l as [|y l IH]; simpl; [done|].
  rewrite !elem_of_cons, list_elem_of_filter, IH.
  destruct (decide (x = y)); naive_solver.
Qed.

Lemma first_seen_NoDup {A} `{EqDecision A} (l : list A) : NoDup (first_seen l).
Proof.
  induction l as [|y l IH]; simpl; constructor.
  - rewrite list_elem_of_filter. naive_solver.
  - by apply NoDup_filter.
Qed.

Lemma first_seen_snoc {A} `{EqDecision A} (l : list A) x :
  first_seen (l ++ [x]) = first_seen l ++ (if decide (x ∈ l) then [] else [x]).
Proof.
  induction l as [|y l IH]; simpl; [done|].
  rewrite IH, filter_app. f_equal. f_equal.
  destruct (decide (x ∈ l)) as [Hin|Hin].
  - rewrite decide_True by (by right). done.
  - destruct (decide (x = y)) as [->|Hne].
    + rewrite decide_True by (by left). by rewrite filter_cons_False by naive_solver.
    + rewrite decide_False by (rewrite elem_of_cons; naive_solver).
      by rewrite filter_cons_True.
Qed.

Lemma stats_update_closed (f : option string → Bucket) ks trade :
  NoDup ks →
  stats_update ((λ k, (k, f k)) <$> ks) trade =
    if decide (mt_symbol trade ∈ ks)
    then (λ k, (k, if decide (k = mt_symbol trade) then add_trade trade (f k) else f k))
           <$> ks
    else ((λ k, (k, f k)) <$> ks) ++
         [(mt_symbol trade, add_trade trade (fresh_bucket (mt_symbol trade)))].
Proof.
  induction ks as [|k ks IH]; intros Hnd; [done|].
  apply NoDup_cons in Hnd as [Hk Hnd]. rewrite !fmap_cons.
  cbn [stats_update]. cbv zeta.
  destruct (decide (k = mt_symbol trade)) as [Heq|Hne].
  - rewrite decide_True by (rewrite <- Heq; by left). f_equal.
    apply list_fmap_ext. intros i k' Hk'. apply list_elem_of_lookup_2 in Hk'.
    rewrite decide_False; [done|]. intros ->. by rewrite <- Heq in Hk'.
  - rewrite (IH Hnd). destruct (decide (mt_symbol trade ∈ ks)) as [Hin|Hin].
    + rewrite decide_True by (by right). done.
    + rewrite decide_False; [done|]. rewrite elem_of_cons. naive_solver.
Qed.

Lemma trades_of_snoc k trades trade :
  trades_of k (trades ++ [trade]) =
    trades_of k trades ++ (if decide (mt_symbol trade = k) then [trade] else []).
Proof.
  unfold trades_of. by rewrite filter_app.
Qed.

Lemma bucket_of_snoc k trades trade :
  bucket_of k (trades ++ [trade]) =
    if decide (k = mt_symbol trade) then add_trade trade (bucket_of k trades)
    else bucket_of k trades.
Proof.
  unfold bucket_of. rewrite trades_of_snoc.
  destruct (decide (k = mt_symbol trade)) as [->|Hne].
  - rewrite decide_True by done. by rewrite foldl_app.
  - rewrite decide_False by done. by rewrite app_nil_r.
Qed.

Lemma bucket_of_unseen k trades :
  k ∉ mt_symbol <$> trades → bucket_of k trades = fresh_bucket k.
Proof.
  intros Hk. unfold bucket_of, trades_of.
  rewrite filter_none; [done|]. intros t Ht Heq. apply Hk.
  apply list_elem_of_fmap. eauto.
Qed.

(** The groups in closed form: one bucket per distinct symbol, in the order
    in which the symbols are first met. *)
Lemma stats_closed trades :
  foldl stats_update [] trades =
    (λ k, (k, bucket_of k trades)) <$> first_seen (mt_symbol <$> trades).
Proof.
  induction trades as [|trade trades IH] using rev_ind; [done|].
  rewrite foldl_app. cbn [foldl]. rewrite IH.
  rewrite stats_update_closed by apply first_seen_NoDup.
  rewrite (fmap_app mt_symbol).
  change (mt_symbol <$> [trade]) with [mt_symbol trade]. rewrite first_seen_snoc.
  destruct (decide (mt_symbol trade ∈ first_seen (mt_symbol <$> trades))) as [Hin|Hin].
  - rewrite decide_True by (by apply first_seen_elem_of).
    rewrite app_nil_r. apply list_fmap_ext. intros i k _.
    by rewrite bucket_of_snoc.
  - rewrite first_seen_elem_of in Hin. rewrite decide_False by done.
    rewrite fmap_app. f_equal.
    + apply list_fmap_ext. intros i k Hk. apply list_elem_of_lookup_2 in Hk.
      rewrite bucket_of_snoc, decide_False; [done|].
      intros ->. by rewrite first_seen_elem_of in Hk.
    + cbn [fmap list_fmap]. rewrite bucket_of_snoc, decide_True by done.
      by rewrite bucket_of_unseen.
Qed.

Lemma add_trades_totals bucket trades :
  let result := foldl (λ bucket trade, add_trade trade bucket) bucket trades in
  b_symbol result = b_symbol bucket ∧
  b_trades result = b_trades bucket + Z.of_nat (length trades) ∧
  b_wins result = b_wins bucket + count_if (λ trade, Qltb 0 (mt_profit trade)) trades ∧
  b_losses result = b_losses bucket + count_if (λ trade, Qltb (mt_profit trade) 0) trades ∧
  b_profit result = sum_profit_from (b_profit bucket) trades.
Proof.
  revert bucket. induction trades as [|t l IH]; intros bucket; cbn [foldl].
  - unfold count_if. cbn. split_and!; [done|lia|lia|lia|done].
  - destruct (IH (add_trade t bucket)) as (Hs & Ht & Hw & Hl & Hp).
    cbv zeta. rewrite Hs, Ht, Hw, Hl, Hp. unfold count_if.
    cbn [add_trade b_symbol b_trades b_wins b_losses b_profit List.filter
         length sum_profit_from].
    destruct (Qltb 0 (mt_profit t)) eqn:Hpos.
    + assert (Qltb (mt_profit t) 0 = false) as ->.
      { apply Qltb_false_le, Qlt_le_weak. by apply Qltb_true_lt. }
      cbn [length]. split_and!; [done|lia|lia|lia|done].
    + destruct (Qltb (mt_profit t) 0); cbn [length];
        (split_and!; [done|lia|lia|lia|done]).
Qed.

(** X3. [build_symbol_lists] groups by symbol: there is exactly one
    bucket per distinct symbol of the input ([None] included), the buckets
    stand in the order in which their symbols are first met, and no symbol
    without a trade has a bucket. *)
Theorem symbol_groups_by_symbol trades :
  b_symbol <$> symbol_groups trades = first_seen (mt_symbol <$> trades) ∧
  NoDup (b_symbol <$> symbol_groups trades) ∧
  (∀ symbol, symbol ∈ b_symbol <$> symbol_groups trades ↔
             ∃ trade, trade ∈ trades ∧ mt_symbol trade = symbol).
Proof.
  assert (b_symbol <$> symbol_groups trades = first_seen (mt_symbol <$> trades)) as Heq.
  { unfold symbol_groups. rewrite stats_closed, <- !list_fmap_compose.
    rewrite <- (list_fmap_id (first_seen _)) at 2.
    apply list_fmap_ext. intros i k _. simpl.
    apply (add_trades_totals (fresh_bucket k)). }
  split_and!; [done|rewrite Heq; apply first_seen_NoDup|].
  intros symbol. rewrite Heq, first_seen_elem_of, list_elem_of_fmap. naive_solver.
Qed.

(** X4. Every bucket of [build_symbol_lists] totals its own trades and
    only those: the symbol has at least one trade, [trades] is their number,
    [wins] and [losses] count those with positive and with negative profit,
    and [profit] is the float sum of their profits, added one by one in the
    order of the list. *)
Theorem symbol_groups_totals trades group :
  group ∈ symbol_groups trades →
  let own := trades_of (b_symbol group) trades in
  own ≠ [] ∧
  b_trades group = Z.of_nat (length own) ∧
  b_wins group = count_if (λ trade, Qltb 0 (mt_profit trade)) own ∧
  b_losses group = count_if (λ trade, Qltb (mt_profit trade) 0) own ∧
  b_profit group = sum_profit own.
Proof.
  unfold symbol_groups. rewrite stats_closed, <- list_fmap_compose.
  intros (k & -> & Hk)%list_elem_of_fmap. simpl.
  destruct (add_trades_totals (fresh_bucket k) (trades_of k trades))
    as (Hs & Ht & Hw & Hl & Hp).
  fold (bucket_of k trades) in Hs, Ht, Hw, Hl, Hp. simpl in Hs, Ht, Hw, Hl, Hp.
  rewrite Hs. split_and!; [|lia|lia|lia|exact Hp].
  apply first_seen_elem_of, list_elem_of_fmap in Hk as (t & -> & Ht').
  intros Hnil. assert (t ∈ trades_of (mt_symbol t) trades) as Hin.
  { by apply list_elem_of_filter. }
  rewrite Hnil in Hin. by apply elem_of_nil in Hin.
Qed.

Lemma symbol_groups_totals_witness :
  gold_group ∈ symbol_groups symbol_sample ∧
  b_trades gold_group = Z.of_nat (length (trades_of (Some "XAUUSD") symbol_sample)) ∧
  b_profit gold_group = sum_profit (trades_of (Some "XAUUSD") symbol_sample).
Proof.
  assert (gold_group ∈ symbol_groups symbol_sample) as Hin.
  { assert (symbol_groups symbol_sample
            = [gold_group;
               {| b_symbol := Some "EURUSD"; b_profit := -50; b_trades := 1;
                  b_wins := 0; b_losses := 1 |}]) as ->
      by (vm_compute; reflexivity).
    by left. }
  split; [exact Hin|].
  destruct (symbol_groups_totals symbol_sample gold_group Hin) as (_ & Ht & _ & _ & Hp).
  split; [exact Ht|exact Hp].
Defined.


(** ** The recent-trade feed *)

Lemma omap_total {A B} (f : A → option B) (l : list A) (i : nat) :
  (∀ x, is_Some (f x)) →
  length (omap f l) = length l ∧ omap f l !! i = l !! i ≫= f.
Proof.
  intros Hf. revert i. induction l as [|x l IH]; intros i; [done|].
  cbn. destruct (Hf x) as [y Hy]. rewrite Hy. cbn.
  destruct (IH 0%nat) as [Hlen _]. split; [by rewrite Hlen|].
  destruct i as [|i]; [done|]. cbn. apply IH.
Qed.

(** The feed entry by entry: no summary is dropped. *)
Lemma build_recent_trades_lookup trades limit (i : nat) :
  let recent := py_slice_from (- limit) trades in
  length (build_recent_trades trades limit) = length recent ∧
  ((i < length recent)%nat →
   build_recent_trades trades limit !! i =
     summarize_single_trade (recent !! (length recent - S i)%nat) true).
Proof.
  intros recent. unfold build_recent_trades. fold recent.
  destruct (omap_total (λ trade, summarize_single_trade (Some trade) true)
              (reverse recent) i) as [Hlen Hlook]; [by eexists|].
  rewrite Hlen, Hlook, length_reverse. split; [done|]. intros Hi.
  rewrite reverse_lookup by done.
  by destruct (recent !! (length recent - S i)%nat).
Qed.

(** X5. For a positive [limit], [build_recent_trades] returns the last
    [limit] trades of the list (all of them when there are fewer), newest
    first: entry [i] is the summary, with comment, of the trade [i] places
    from the end; no trade is dropped. *)
Theorem build_recent_trades_newest_first trades limit (i : nat) :
  0 < limit →
  length (build_recent_trades trades limit)
    = Nat.min (Z.to_nat limit) (length trades) ∧
  ((i < Nat.min (Z.to_nat limit) (length trades))%nat →
   build_recent_trades trades limit !! i =
     summarize_single_trade (trades !! (length trades - S i)%nat) true).
Proof.
  intros Hlimit.
  assert (py_slice_from (- limit) trades
          = drop (length trades - Z.to_nat limit) trades) as Hslice.
  { unfold py_slice_from. rewrite (proj2 (Z.ltb_lt _ _)) by lia. f_equal. lia. }
  assert (length (py_slice_from (- limit) trades)
          = Nat.min (Z.to_nat limit) (length trades)) as Hlen.
  { rewrite Hslice, length_drop. lia. }
  destruct (build_recent_trades_lookup trades limit i) as [Hl Hlookup].
  split; [by rewrite Hl|].
  intros Hi. rewrite Hlookup by (rewrite Hlen; lia).
  rewrite Hlen, Hslice, lookup_drop. do 2 f_equal. lia.
Qed.

(** X6. A [limit] of zero does not give an empty feed: [trades[-0:]] is
    the whole list, so every trade is returned, newest first; a negative
    [limit] drops that many of the oldest trades. *)
Theorem build_recent_trades_no_limit trades limit (i : nat) :
  limit ≤ 0 →
  length (build_recent_trades trades limit)
    = (length trades - Z.to_nat (- limit))%nat ∧
  ((i < length trades - Z.to_nat (- limit))%nat →
   build_recent_trades trades limit !! i =
     summarize_single_trade (trades !! (length trades - S i)%nat) true).
Proof.
  intros Hlimit.
  assert (py_slice_from (- limit) trades = drop (Z.to_nat (- limit)) trades) as Hslice.
  { unfold py_slice_from. rewrite (proj2 (Z.ltb_ge _ _)) by lia.
    destruct (decide (- limit ≤ Z.of_nat (length trades))).
    - by rewrite Z.min_l by done.
    - rewrite Z.min_r by lia. rewrite Nat2Z.id.
      by rewrite !drop_ge by lia. }
  assert (length (py_slice_from (- limit) trades)
          = (length trades - Z.to_nat (- limit))%nat) as Hlen.
  { by rewrite Hslice, length_drop. }
  destruct (build_recent_trades_lookup trades limit i) as [Hl Hlookup].
  split; [by rewrite Hl|].
  intros Hi. rewrite Hlookup by (rewrite Hlen; lia).
  rewrite Hlen, Hslice, lookup_drop. do 2 f_equal. lia.
Qed.

Lemma build_recent_trades_newest_first_witness :
  0 < 2 ∧
  length (build_recent_trades (window_example jan2) 2) = 2%nat ∧
  build_recent_trades (window_example jan2) 2 !! 0%nat
    = summarize_single_trade (Some (closed_trade 10 (jan2 - timedelta_days 1))) true.
Proof.
  split; [lia|].
  destruct (build_recent_trades_newest_first (window_example jan2) 2 0) as [Hlen Hfirst];
    [lia|].
  split; [exact Hlen|]. apply Hfirst. simpl. lia.
Defined.

Lemma build_recent_trades_no_limit_witness :
  0 ≤ 0 ∧ length (build_recent_trades (window_example jan2) 0) = 3%nat.
Proof.
  split; [lia|].
  destruct (build_recent_trades_no_limit (window_example jan2) 0 0) as [Hlen _]; [lia|].
  exact Hlen.
Defined.


(** ** The daily breakdown *)

Lemma daily_update_closed (f : string → DayBucket) ks key profit :
  NoDup ks → (∀ k, d_date (f k) = k) →
  daily_update ((λ k, (k, f k)) <$> ks) key profit =
    if decide (key ∈ ks)
    then (λ k, (k, if decide (k = key)
                   then {| d_date := k; d_profit := float_add (d_profit (f k)) profit;
                           d_trades := d_trades (f k) + 1 |}
                   else f k)) <$> ks
    else ((λ k, (k, f k)) <$> ks) ++
         [(key, {| d_date := key; d_profit := float_add 0 profit; d_trades := 0 + 1 |})].
Proof.
  intros Hnd Hdate. induction ks as [|k ks IH]; [done|].
  apply NoDup_cons in Hnd as [Hk Hnd]. rewrite !fmap_cons. cbn [daily_update].
  destruct (decide (k = key)) as [Heq|Hne].
  - rewrite decide_True by (rewrite <- Heq; by left). rewrite Hdate. f_equal.
    apply list_fmap_ext. intros i k' Hk'. apply list_elem_of_lookup_2 in Hk'.
    rewrite decide_False; [done|]. intros ->. by rewrite <- Heq in Hk'.
  - rewrite (IH Hnd). destruct (decide (key ∈ ks)) as [Hin|Hin].
    + rewrite decide_True by (by right). done.
    + rewrite decide_False; [done|]. rewrite elem_of_cons. naive_solver.
Qed.

Lemma trades_on_snoc date trades trade :
  trades_on date (trades ++ [trade]) =
    trades_on date trades ++ (if decide (trade_date trade = date) then [trade] else []).
Proof. unfold trades_on. by rewrite filter_app. Qed.

Lemma day_bucket_snoc date trades trade :
  day_bucket date (trades ++ [trade]) =
    if decide (date = trade_date trade)
    then {| d_date := date;
            d_profit := float_add (d_profit (day_bucket date trades)) (mt_profit trade);
            d_trades := d_trades (day_bucket date trades) + 1 |}
    else day_bucket date trades.
Proof.
  unfold day_bucket. rewrite trades_on_snoc.
  destruct (decide (date = trade_date trade)) as [->|Hne].
  - rewrite decide_True by done. cbn [d_profit d_trades]. f_equal.
    + unfold py_sum. by rewrite fmap_app, foldl_app.
    + rewrite length_app. cbn [length]. lia.
  - rewrite decide_False by done. by rewrite app_nil_r.
Qed.

Lemma day_bucket_unseen date trades :
  date ∉ trade_date <$> trades →
  day_bucket date trades = {| d_date := date; d_profit := 0; d_trades := 0 |}.
Proof.
  intros Hin. unfold day_bucket, trades_on.
  rewrite filter_none; [done|]. intros t Ht Heq. apply Hin.
  apply list_elem_of_fmap. eauto.
Qed.

(** The buckets in closed form: one per distinct date among the trades
    since the cutoff, in the order in which the dates are first met. *)
Lemma daily_closed cutoff trades :
  foldl (daily_step cutoff) [] trades =
    (λ date, (date, day_bucket date (trades_since cutoff trades)))
      <$> first_seen (trade_date <$> trades_since cutoff trades).
Proof.
  induction trades as [|trade trades IH] using rev_ind; [done|].
  rewrite foldl_app. cbn [foldl]. rewrite IH. unfold daily_step, trades_since.
  rewrite filter_app. fold (trades_since cutoff trades).
  destruct (decide (mt_closed_at trade < cutoff)) as [Hold|Hnew].
  - rewrite filter_cons_False by lia. by rewrite filter_nil, app_nil_r.
  - rewrite filter_cons_True by lia. rewrite filter_nil.
    fold (trade_date trade).
    rewrite daily_update_closed; [|apply first_seen_NoDup|done].
    rewrite (fmap_app trade_date).
    change (trade_date <$> [trade]) with [trade_date trade].
    rewrite first_seen_snoc.
    destruct (decide (trade_date trade ∈
                first_seen (trade_date <$> trades_since cutoff trades))) as [Hin|Hin].
    + rewrite decide_True by (by rewrite first_seen_elem_of in Hin).
      rewrite app_nil_r. apply list_fmap_ext. intros i k _.
      by rewrite day_bucket_snoc.
    + rewrite first_seen_elem_of in Hin. rewrite decide_False by done.
      rewrite fmap_app. f_equal.
      * apply list_fmap_ext. intros i k Hk. apply list_elem_of_lookup_2 in Hk.
        rewrite day_bucket_snoc, decide_False; [done|].
        intros ->. by rewrite first_seen_elem_of in Hk.
      * cbn [fmap list_fmap]. rewrite day_bucket_snoc, decide_True by done.
        by rewrite day_bucket_unseen.
Qed.


Lemma StronglySorted_NoDup_strict {A B} (R : A → A → Prop) (f : A → B) l :
  StronglySorted R l → NoDup (f <$> l) →
  StronglySorted (λ a b, R a b ∧ f a ≠ f b) l.
Proof.
  induction 1 as [|x l Hl IH Hx]; intros Hnd; [constructor|].
  rewrite fmap_cons in Hnd. apply NoDup_cons in Hnd as [Hfx Hnd].
  constructor; [by apply IH|].
  apply Forall_forall. intros y Hy. split.
  - by eapply Forall_forall in Hx.
  - intros Heq. apply Hfx. rewrite Heq. apply list_elem_of_fmap. eauto.
Qed.

Lemma sum_Z_cons x l : sum_Z (x :: l) = x + sum_Z l.
Proof. reflexivity. Qed.

Lemma sum_Z_perm l1 l2 : l1 ≡ₚ l2 → sum_Z l1 = sum_Z l2.
Proof.
  unfold sum_Z. induction 1; simpl; lia.
Qed.

(** The trades of a list, counted date by date over its distinct dates. *)
Lemma sum_by_key {A K} `{EqDecision K} (key : A → K) (ks : list K) (l : list A) k :
  NoDup ks →
  sum_Z ((λ k', Z.of_nat (length (filter (λ x, key x = k') l))) <$> ks) =
    (if decide (k ∈ ks) then Z.of_nat (length (filter (λ x, key x = k) l)) else 0) +
    sum_Z ((λ k', Z.of_nat (length (filter (λ x, key x = k') l)))
             <$> filter (λ k', k' ≠ k) ks).
Proof.
  induction 1 as [|k0 ks Hk0 Hnd IH]; [done|].
  rewrite fmap_cons, sum_Z_cons, IH.
  destruct (decide (k0 = k)) as [->|Hne].
  - rewrite (decide_False (P := k ∈ ks)) by done.
    rewrite (decide_True (P := k ∈ k :: ks)) by (by left).
    rewrite filter_cons_False by naive_solver. lia.
  - rewrite filter_cons_True by done. rewrite fmap_cons, sum_Z_cons.
    destruct (decide (k ∈ ks)).
    + rewrite (decide_True (P := k ∈ k0 :: ks)) by (by right). lia.
    + rewrite (decide_False (P := k ∈ k0 :: ks))
        by (rewrite elem_of_cons; naive_solver). lia.
Qed.

Lemma count_by_key {A K} `{EqDecision K} (key : A → K) (l : list A) :
  sum_Z ((λ k, Z.of_nat (length (filter (λ x, key x = k) l)))
           <$> first_seen (key <$> l))
  = Z.of_nat (length l).
Proof.
  induction l as [|x l IH]; [done|].
  rewrite (fmap_cons key). cbn [first_seen]. rewrite fmap_cons, sum_Z_cons.
  rewrite filter_cons_True by done. cbn [length].
  rewrite (sum_by_key key (first_seen (key <$> l)) l (key x)) in IH
    by apply first_seen_NoDup.
  assert (sum_Z ((λ k, Z.of_nat (length (filter (λ y, key y = k) (x :: l))))
                   <$> filter (λ y, y ≠ key x) (first_seen (key <$> l)))
          = sum_Z ((λ k, Z.of_nat (length (filter (λ y, key y = k) l)))
                   <$> filter (λ y, y ≠ key x) (first_seen (key <$> l)))) as Hrest.
  { f_equal. apply list_fmap_ext. intros i k Hk.
    apply list_elem_of_lookup_2, list_elem_of_filter in Hk as [Hne _].
    by rewrite filter_cons_False by naive_solver. }
  rewrite Hrest.
  destruct (decide (key x ∈ first_seen (key <$> l))) as [Hin|Hin]; [lia|].
  rewrite (filter_none (λ y, key y = key x) l); [simpl in *; lia|].
  intros y Hy Heq. apply Hin, first_seen_elem_of, list_elem_of_fmap. eauto.
Qed.

Lemma build_daily_breakdown_perm now trades days buckets :
  build_daily_breakdown now trades days = Ok buckets →
  buckets ≡ₚ
    (λ date, day_bucket date (trades_since (now - timedelta_days days) trades))
      <$> first_seen (trade_date <$> trades_since (now - timedelta_days days) trades).
Proof.
  unfold build_daily_breakdown. rewrite daily_closed, <- list_fmap_compose.
  apply py_sorted_perm.
Qed.

(** X7. [build_daily_breakdown] returns, without raising, one bucket per
    calendar date on which a trade not older than the cutoff was closed, in
    strictly ascending order of date. *)
Theorem build_daily_breakdown_sorted now trades days :
  ∃ buckets,
    build_daily_breakdown now trades days = Ok buckets ∧
    StronglySorted
      (λ a b, String.le (d_date a) (d_date b) ∧ d_date a ≠ d_date b) buckets ∧
    (∀ date, date ∈ d_date <$> buckets ↔
       ∃ trade, trade ∈ trades ∧
                now - timedelta_days days ≤ mt_closed_at trade ∧
                trade_date trade = date).
Proof.
  destruct (py_sorted_total (λ item, JStr (d_date item)) false
              ((foldl (daily_step (now - timedelta_days days)) [] trades).*2))
    as [buckets Hsort].
  { intros a b _ _. by eexists. }
  exists buckets. split; [done|].
  pose proof (build_daily_breakdown_perm _ _ _ _ Hsort) as Hperm.
  assert (d_date <$> buckets ≡ₚ
          first_seen (trade_date <$> trades_since (now - timedelta_days days) trades))
    as Hdates.
  { rewrite Hperm, <- list_fmap_compose. by rewrite list_fmap_id. }
  split.
  - apply (StronglySorted_NoDup_strict _ d_date).
    + apply py_sorted_sorted in Hsort.
      eapply StronglySorted_mono; [|done]. simpl.
      intros a b [(s & t & [= <-] & [= <-] & Hle)|(x & y & ? & _)]%key_le_inv; done.
    + rewrite Hdates. apply first_seen_NoDup.
  - intros date. rewrite Hdates, first_seen_elem_of, list_elem_of_fmap.
    unfold trades_since. setoid_rewrite list_elem_of_filter. naive_solver.
Qed.

(** X8. In the daily breakdown every bucket counts the trades of its date
    that are not older than the cutoff, at least one, and its profit is the
    float sum of their profits, added one by one in the order of the list;
    the counts of all buckets add up to the number of such trades, so each
    of them is counted exactly once. *)
Theorem build_daily_breakdown_totals now trades days buckets :
  build_daily_breakdown now trades days = Ok buckets →
  let covered := trades_since (now - timedelta_days days) trades in
  (∀ bucket, bucket ∈ buckets →
     let own := trades_on (d_date bucket) covered in
     d_trades bucket = Z.of_nat (length own) ∧ 0 < d_trades bucket ∧
     d_profit bucket = sum_profit own) ∧
  sum_Z (d_trades <$> buckets) = Z.of_nat (length covered).
Proof.
  intros Hperm%build_daily_breakdown_perm covered. fold covered in Hperm. split.
  - intros bucket Hin. rewrite Hperm in Hin.
    apply list_elem_of_fmap in Hin as (date & -> & Hdate).
    cbn [day_bucket d_date d_trades d_profit]. split_and!; [done| |].
    + apply first_seen_elem_of, list_elem_of_fmap in Hdate as (t & -> & Ht).
      assert (t ∈ trades_on (trade_date t) covered) as Hown.
      { by apply list_elem_of_filter. }
      destruct (trades_on (trade_date t) covered); [by apply elem_of_nil in Hown|].
      simpl. lia.
    + apply py_sum_profit.
  - rewrite (sum_Z_perm _ _ (fmap_Permutation d_trades _ _ Hperm)).
    rewrite <- list_fmap_compose. apply (count_by_key trade_date).
Qed.

Lemma build_daily_breakdown_totals_witness :
  build_daily_breakdown jan2 daily_sample 7 = Ok daily_buckets ∧
  sum_Z (d_trades <$> daily_buckets)
    = Z.of_nat (length (trades_since (jan2 - timedelta_days 7) daily_sample)).
Proof.
  assert (build_daily_breakdown jan2 daily_sample 7 = Ok daily_buckets) as Hrun
    by (vm_compute; reflexivity).
  split; [exact Hrun|].
  exact (proj2 (build_daily_breakdown_totals jan2 daily_sample 7 daily_buckets Hrun)).
Defined.


(** ** Order side and exit label *)

Lemma upper_ascii_idemp c : upper_ascii (upper_ascii c) = upper_ascii c.
Proof. by destruct c as [[] [] [] [] [] [] [] []]. Qed.

Lemma py_upper_idemp s : py_upper (py_upper s) = py_upper s.
Proof.
  unfold py_upper. induction s as [|c s IH]; [done|].
  simpl. by rewrite upper_ascii_idemp, IH.
Qed.

Lemma py_upper_nonempty s : s ≠ "" → py_upper s ≠ "".
Proof. by destruct s. Qed.

Lemma present_Some s : present (Some s) = true ↔ s ≠ "".
Proof.
  simpl. rewrite negb_true_iff. split.
  - intros H. by apply String.eqb_neq.
  - intros H. by apply String.eqb_neq.
Qed.

Lemma _canonical_side_Some s :
  s ≠ "" →
  _canonical_side (Some s) =
    (if py_in "BUY" (py_upper s) then "BUY"
     else if py_in "SELL" (py_upper s) then "SELL" else py_upper s).
Proof.
  intros Hs. unfold _canonical_side.
  by rewrite (proj2 (present_Some s) Hs).
Qed.

(** X9. [_canonical_side] is idempotent, returns the empty string exactly
    for a missing or empty order type, and its result is in upper case. *)
Theorem canonical_side_idempotent order_type :
  _canonical_side (Some (_canonical_side order_type))
    = _canonical_side order_type ∧
  (_canonical_side order_type = "" ↔ present order_type = false) ∧
  py_upper (_canonical_side order_type) = _canonical_side order_type.
Proof.
  destruct (present order_type) eqn:Hpres.
  - destruct order_type as [s|]; [|done]. apply present_Some in Hpres.
    rewrite (_canonical_side_Some s Hpres).
    destruct (py_in "BUY" (py_upper s)) eqn:Hbuy.
    { split; [reflexivity|]. split; [|reflexivity]. split; intros [=]. }
    destruct (py_in "SELL" (py_upper s)) eqn:Hsell.
    { split; [reflexivity|]. split; [|reflexivity]. split; intros [=]. }
    pose proof (py_upper_nonempty s Hpres) as Hne.
    split; [|split].
    + rewrite (_canonical_side_Some _ Hne).
      by rewrite py_upper_idemp, Hbuy, Hsell.
    + split; [done|]. intros [=].
    + apply py_upper_idemp.
  - assert (_canonical_side order_type = "") as ->.
    { unfold _canonical_side. by rewrite Hpres. }
    split; [reflexivity|]. split; [|reflexivity]. by split.
Qed.

Lemma determine_exit_type_signals trade :
  determine_exit_type (Some trade) =
    (if tp_signal trade then "tp" else if sl_signal trade then "sl" else "manual").
Proof.
  unfold determine_exit_type, tp_signal, sl_signal, _DEFAULT_EXIT_TYPE.
  destruct (present (mt_tp_label trade)); [done|].
  destruct (_contains_hint (mt_exit_reason trade) _TP_REASON_HINTS); [done|].
  destruct (_contains_hint (mt_comment trade) _TP_COMMENT_HINTS); [done|].
  destruct (present (mt_sl_label trade)); [done|].
  destruct (_contains_hint (mt_exit_reason trade) _SL_REASON_HINTS); [done|].
  by destruct (_contains_hint (mt_comment trade) _SL_COMMENT_HINTS).
Qed.

(** X10. The summary of a trade carries the exit type the classifier
    gives, always one of [tp], [sl] and [manual], and the label
    [EXIT_LABELS] holds for it; the comment is present exactly when
    [include_comment] is set; no trade gives no summary. *)
Theorem summarize_single_trade_exit trade include_comment :
  ∃ summary,
    summarize_single_trade (Some trade) include_comment = Some summary ∧
    ts_exit_type summary = determine_exit_type (Some trade) ∧
    EXIT_LABELS !! ts_exit_type summary = Some (ts_exit summary) ∧
    (ts_exit_type summary = "tp" ∨ ts_exit_type summary = "sl" ∨
     ts_exit_type summary = "manual") ∧
    (ts_comment summary = if include_comment then Some (mt_comment trade) else None) ∧
    summarize_single_trade None include_comment = None.
Proof.
  eexists. split; [reflexivity|]. cbn [ts_exit_type ts_exit ts_comment].
  rewrite determine_exit_type_signals. split; [done|].
  destruct (tp_signal trade); [by split_and!; auto|].
  destruct (sl_signal trade); by split_and!; auto.
Qed.

(** ** Reading the history back *)

(** A sort by a datetime key never raises and orders by instant. *)
Lemma py_sorted_by_instant {A} (f : A → Z) (l : list A) :
  ∃ r, py_sorted (λ x, JInt (f x)) false l = Ok r ∧ r ≡ₚ l ∧
       StronglySorted (λ a b, f a ≤ f b) r.
Proof.
  destruct (py_sorted_total (λ x, JInt (f x)) false l) as [r Hr].
  { intros a b _ _. by eexists. }
  exists r. split; [done|]. split; [by eapply py_sorted_perm|].
  eapply StronglySorted_mono; [|by eapply py_sorted_sorted].
  intros a b Hab. unfold sort_order in Hab.
  apply key_le_inv in Hab as [(s & t & ? & _)|(x & y & Hx & Hy & Hxy)]; [done|].
  simpl in Hx, Hy. simplify_eq. by rewrite Zle_Qle.
Qed.

Lemma parse_iso_datetime_dated rt value r :
  parse_iso_datetime rt value = Ok r → (r = None ↔ truthy value = false).
Proof.
  unfold parse_iso_datetime. destruct (truthy value); simpl.
  - destruct value; try done. destruct (fromisoformat rt _); [|done].
    intros [= <-]. by split.
  - intros [= <-]. by split.
Qed.

Lemma materialize_trade_inv rt acc entry r :
  materialize_trade rt acc entry = Ok r →
  readable_trade rt entry ∧
  ((dated "closed_at" entry ∧ ∃ m, r = acc ++ [m] ∧ m_ticket m = py_get entry "ticket") ∨
   (¬ dated "closed_at" entry ∧ r = acc)).
Proof.
  unfold materialize_trade, readable_trade, dated.
  rewrite <- !parse_iso_datetime_Ok, <- !py_float_Ok.
  destruct (parse_iso_datetime rt (py_get entry "closed_at")) as [c|] eqn:Hc;
    simpl; [|done].
  destruct (parse_iso_datetime rt (py_get entry "opened_at")) as [o|] eqn:Ho;
    simpl; [|done].
  apply parse_iso_datetime_dated in Hc.
  destruct c as [closed|].
  - assert (truthy (py_get entry "closed_at") = true) as Htr.
    { destruct (truthy _); [done|]. by pose proof (proj2 Hc eq_refl). }
    destruct (py_float rt (py_get_default entry "volume" _)) as [v|]; simpl; [|done].
    destruct (py_float rt (py_get_default entry "profit" _)) as [p|]; simpl; [|done].
    intros [= <-]. split.
    + split_and!; [by eexists..|]. intros _. split; by eexists.
    + left. split; [done|]. by eexists.
  - intros [= <-]. rewrite (proj1 Hc eq_refl). split.
    + split_and!; [by eexists..|]. done.
    + by right.
Qed.

Lemma materialize_trade_total rt acc entry :
  readable_trade rt entry → ∃ r, materialize_trade rt acc entry = Ok r.
Proof.
  unfold materialize_trade, readable_trade, dated.
  rewrite <- !parse_iso_datetime_Ok, <- !py_float_Ok.
  intros ([c Hc] & [o Ho] & Hnum). rewrite Hc, Ho. simpl.
  destruct c as [closed|]; [|by eexists].
  destruct Hnum as [[v Hv] [p Hp]].
  { apply parse_iso_datetime_dated in Hc. destruct (truthy _); [done|].
    by pose proof (proj2 Hc eq_refl). }
  rewrite Hv, Hp. by eexists.
Qed.

Lemma materialize_loop_inv rt entries acc trades :
  result_foldl (materialize_trade rt) acc entries = Ok trades →
  Forall (readable_trade rt) entries ∧
  ∃ news, trades = acc ++ news ∧
    m_ticket <$> news
      = (λ entry, py_get entry "ticket") <$> filter (dated "closed_at") entries.
Proof.
  revert acc. induction entries as [|entry entries IH]; intros acc; simpl.
  - intros [= <-]. split; [done|]. exists []. by rewrite app_nil_r.
  - destruct (materialize_trade rt acc entry) as [r|] eqn:Hstep; simpl; [|done].
    intros Hrest. apply materialize_trade_inv in Hstep as [Hread Hcase].
    destruct (IH _ Hrest) as (Hall & news & -> & Hnews).
    split; [by constructor|].
    destruct Hcase as [(Hd & m & -> & Hm)|(Hd & ->)].
    + exists (m :: news). rewrite <- app_assoc. split; [done|].
      rewrite filter_cons_True by done. rewrite !fmap_cons. by rewrite Hm, Hnews.
    + exists news. split; [done|]. by rewrite filter_cons_False.
Qed.

Lemma materialize_loop_total rt entries acc :
  Forall (readable_trade rt) entries →
  ∃ trades, result_foldl (materialize_trade rt) acc entries = Ok trades.
Proof.
  intros Hall. revert acc. induction Hall as [|entry entries Hread _ IH]; intros acc.
  - by eexists.
  - simpl. destruct (materialize_trade_total rt acc entry Hread) as [r ->]. simpl.
    apply IH.
Qed.

(** X12. When [_materialize_trades] returns, its trades are in
    non-decreasing order of [closed_at] whatever the order of the history
    file, and their tickets are those of the stored records whose
    [closed_at] is neither missing nor empty, one trade for each such
    record; the other records are left out. *)
Theorem materialize_trades_chronological rt history trades :
  _materialize_trades rt history = Ok trades →
  StronglySorted (λ a b, m_closed_at a ≤ m_closed_at b) trades ∧
  m_ticket <$> trades ≡ₚ
    (λ entry, py_get entry "ticket") <$> filter (dated "closed_at") (h_trades history).
Proof.
  unfold _materialize_trades.
  destruct (result_foldl _ _ _) as [read|] eqn:Hloop; simpl; [|done].
  apply materialize_loop_inv in Hloop as (_ & news & -> & Hnews). simpl.
  destruct (py_sorted_by_instant m_closed_at news) as (r & Hr & Hperm & Hsorted).
  rewrite Hr. intros [= <-]. split; [done|]. by rewrite Hperm, Hnews.
Qed.

(** X13. [_materialize_trades] returns exactly when every stored record
    can be read: [closed_at] and [opened_at] are missing, empty or strings
    that [fromisoformat] parses, and, for a record that has a [closed_at],
    [volume] and [profit] are absent or values [float()] accepts (a
    boolean, a float, a string the runtime parses, an integer within the
    range of doubles).  One unreadable record makes the whole call raise;
    the numbers of a record without [closed_at] are not looked at. *)
Theorem materialize_trades_returns rt history :
  (∃ trades, _materialize_trades rt history = Ok trades) ↔
  Forall (readable_trade rt) (h_trades history).
Proof.
  unfold _materialize_trades. split.
  - intros [trades Hret].
    destruct (result_foldl _ _ _) as [read|] eqn:Hloop; simpl in Hret; [|done].
    by apply materialize_loop_inv in Hloop as [? _].
  - intros Hall. destruct (materialize_loop_total rt _ [] Hall) as [read ->]. simpl.
    destruct (py_sorted_by_instant m_closed_at read) as (r & Hr & _).
    by exists r.
Qed.

Lemma materialize_trades_chronological_witness :
  _materialize_trades sample_runtime unsorted_history = Ok sample_read ∧
  StronglySorted (λ a b, m_closed_at a ≤ m_closed_at b) sample_read.
Proof.
  assert (_materialize_trades sample_runtime unsorted_history = Ok sample_read) as Hrun
    by (vm_compute; reflexivity).
  split; [exact Hrun|].
  exact (proj1 (materialize_trades_chronological _ _ _ Hrun)).
Defined.

Lemma parse_iso_datetime_str rt s :
  s ≠ "" →
  parse_iso_datetime rt (JStr s) =
    match fromisoformat rt (clean_timestamp s) with
    | Some t => Ok (Some t)
    | None => Raise ValueError
    end.
Proof.
  intros Hs. unfold parse_iso_datetime, clean_timestamp. cbn [truthy].
  by rewrite (proj2 (String.eqb_neq s "") Hs).
Qed.

Lemma parse_reads_back rt t :
  reads_back rt t →
  parse_iso_datetime rt (JStr (isoformat t)) = Ok (Some (replace_microsecond0 t)).
Proof.
  intros Hback. unfold reads_back in Hback.
  rewrite parse_iso_datetime_str.
  - by rewrite Hback.
  - intros Hempty. destruct (isoformat_cons t) as (c & s & Hiso). congruence.
Qed.

Lemma serialize_trade_fields trade :
  py_get (serialize_trade trade) "closed_at" = JStr (isoformat (nt_closed_at trade)) ∧
  py_get (serialize_trade trade) "opened_at"
    = match nt_opened_at trade with Some t => JStr (isoformat t) | None => JNull end ∧
  py_get_default (serialize_trade trade) "volume" (JFloat 0)
    = JFloat (py_round (nt_volume trade) 5) ∧
  py_get_default (serialize_trade trade) "profit" (JFloat 0)
    = JFloat (py_round (nt_profit trade) 5) ∧
  py_get (serialize_trade trade) "symbol" = nt_symbol trade ∧
  py_get (serialize_trade trade) "order_type" = nt_order_type trade ∧
  py_get (serialize_trade trade) "comment" = nt_comment trade ∧
  py_get (serialize_trade trade) "tp_label" = nt_tp_label trade ∧
  py_get (serialize_trade trade) "sl_label" = nt_sl_label trade ∧
  py_get (serialize_trade trade) "exit_reason" = JNull.
Proof. split_and!; reflexivity. Qed.

Lemma materialize_serialized_step rt acc trade :
  reads_back rt (nt_closed_at trade) →
  (∀ t, nt_opened_at trade = Some t → reads_back rt t) →
  materialize_trade rt acc (serialize_trade trade) = Ok (acc ++ [stored_and_read trade]).
Proof.
  intros Hclosed Hopened. unfold materialize_trade, stored_and_read.
  destruct (serialize_trade_fields trade)
    as (-> & -> & -> & -> & -> & -> & -> & -> & -> & ->).
  rewrite serialize_trade_ticket. unfold ticket_key.
  rewrite (parse_reads_back _ _ Hclosed). cbn [mbind result_bind].
  destruct (nt_opened_at trade) as [t|] eqn:Ho.
  - rewrite (parse_reads_back _ _ (Hopened t eq_refl)). done.
  - done.
Qed.

Lemma materialize_serialized_loop rt acc trades :
  Forall (λ trade, reads_back rt (nt_closed_at trade) ∧
                   ∀ t, nt_opened_at trade = Some t → reads_back rt t) trades →
  result_foldl (materialize_trade rt) acc (serialize_trade <$> trades)
    = Ok (acc ++ (stored_and_read <$> trades)).
Proof.
  intros Hall. revert acc.
  induction Hall as [|trade trades [Hc Ho] _ IH]; intros acc.
  - by rewrite app_nil_r.
  - rewrite fmap_cons. cbn [result_foldl].
    rewrite (materialize_serialized_step _ _ _ Hc Ho). cbn [mbind result_bind].
    rewrite IH, <- app_assoc. done.
Qed.

(** X14. Records written by [serialize_trade] are read back by
    [_materialize_trades] whenever the runtime parses the stamps
    [isoformat] wrote for them: each trade comes back once, with [volume]
    and [profit] rounded to 5 decimals, its timestamps cut to the second
    and its other fields unchanged, in order of [closed_at]; [exit_reason]
    is [None] for all of them, since [serialize_trade] stores none. *)
Theorem materialize_stored_trades rt history trades :
  h_trades history = serialize_trade <$> trades →
  Forall (λ trade, reads_back rt (nt_closed_at trade) ∧
                   ∀ t, nt_opened_at trade = Some t → reads_back rt t) trades →
  ∃ read, _materialize_trades rt history = Ok read ∧
    read ≡ₚ stored_and_read <$> trades ∧
    StronglySorted (λ a b, m_closed_at a ≤ m_closed_at b) read ∧
    Forall (λ m, m_exit_reason m = JNull) read.
Proof.
  intros Hstored Hall. unfold _materialize_trades.
  rewrite Hstored, (materialize_serialized_loop _ _ _ Hall). cbn [mbind result_bind app].
  destruct (py_sorted_by_instant m_closed_at (stored_and_read <$> trades))
    as (r & Hr & Hperm & Hsorted).
  exists r. split_and!; [done..|].
  rewrite Hperm. apply Forall_fmap, Forall_true. done.
Qed.

Lemma materialize_stored_trades_witness :
  h_trades unsorted_history = serialize_trade <$> unsorted_trades ∧
  ∃ read, _materialize_trades sample_runtime unsorted_history = Ok read ∧
          read ≡ₚ stored_and_read <$> unsorted_trades.
Proof.
  split; [reflexivity|].
  destruct (materialize_stored_trades sample_runtime unsorted_history unsorted_trades)
    as (read & Hrun & Hperm & _).
  - reflexivity.
  - repeat constructor; try discriminate; vm_compute; reflexivity.
  - exists read. split; [exact Hrun|exact Hperm].
Defined.

Lemma materialize_snapshot_inv rt acc entry r :
  materialize_snapshot rt acc entry = Ok r →
  (dated "timestamp" entry ∧ ∃ snap, r = acc ++ [snap]) ∨
  (¬ dated "timestamp" entry ∧ r = acc).
Proof.
  unfold materialize_snapshot, dated.
  destruct (parse_iso_datetime rt (py_get entry "timestamp")) as [c|] eqn:Hc;
    simpl; [|done].
  apply parse_iso_datetime_dated in Hc.
  destruct c as [stamp|].
  - assert (truthy (py_get entry "timestamp") = true) as Htr.
    { destruct (truthy _); [done|]. by pose proof (proj2 Hc eq_refl). }
    destruct (py_float rt (py_get_default entry "balance" _)) as [b|]; simpl; [|done].
    destruct (py_float rt (py_get_default entry "equity" _)) as [e|]; simpl; [|done].
    destruct (py_float rt (py_get_default entry "floating" _)) as [f|]; simpl; [|done].
    intros [= <-]. left. split; [done|]. by eexists.
  - intros [= <-]. right. by rewrite (proj1 Hc eq_refl).
Qed.

Lemma materialize_snapshot_loop_inv rt entries acc snaps :
  result_foldl (materialize_snapshot rt) acc entries = Ok snaps →
  ∃ news, snaps = acc ++ news ∧
          length news = length (filter (dated "timestamp") entries).
Proof.
  revert acc. induction entries as [|entry entries IH]; intros acc; simpl.
  - intros [= <-]. exists []. by rewrite app_nil_r.
  - destruct (materialize_snapshot rt acc entry) as [r|] eqn:Hstep; simpl; [|done].
    intros Hrest. apply materialize_snapshot_inv in Hstep.
    destruct (IH _ Hrest) as (news & -> & Hnews).
    destruct Hstep as [(Hd & snap & ->)|(Hd & ->)].
    + exists (snap :: news). rewrite <- app_assoc. split; [done|].
      rewrite filter_cons_True by done. simpl. by rewrite Hnews.
    + exists news. split; [done|]. by rewrite filter_cons_False.
Qed.

Lemma StronglySorted_last {A} (R : A → A → Prop) l x y :
  StronglySorted R l → last l = Some x → y ∈ l → y = x ∨ R y x.
Proof.
  induction 1 as [|z l Hl IH Hz]; [done|].
  destruct l as [|z' l].
  - intros [= <-] Hy. left. apply elem_of_cons in Hy as [->|Hy]; [done|].
    exfalso. exact (not_elem_of_nil _ Hy).
  - change (last (z :: z' :: l)) with (last (z' :: l)). intros Hlast Hy.
    apply elem_of_cons in Hy as [->|Hy]; [|by apply IH].
    right. rewrite Forall_forall in Hz. apply Hz.
    apply last_Some in Hlast as [l' ->]. apply elem_of_app. right. by left.
Qed.

(** X15. When [_materialize_snapshots] returns, the snapshots are in
    non-decreasing order of [timestamp] whatever the order of the history
    file, there is one for each stored record whose [timestamp] is neither
    missing nor empty, and the last one, which [build_payload] shows as the
    account, has the greatest timestamp. *)
Theorem materialize_snapshots_latest rt history snaps :
  _materialize_snapshots rt history = Ok snaps →
  StronglySorted (λ a b, ns_timestamp a ≤ ns_timestamp b) snaps ∧
  length snaps = length (filter (dated "timestamp") (h_snapshots history)) ∧
  (∀ newest snap, last snaps = Some newest → snap ∈ snaps →
     ns_timestamp snap ≤ ns_timestamp newest).
Proof.
  unfold _materialize_snapshots.
  destruct (result_foldl _ _ _) as [read|] eqn:Hloop; simpl; [|done].
  apply materialize_snapshot_loop_inv in Hloop as (news & -> & Hnews). simpl.
  destruct (py_sorted_by_instant ns_timestamp news) as (r & Hr & Hperm & Hsorted).
  rewrite Hr. intros [= <-]. split; [done|]. split.
  - by rewrite Hperm.
  - intros newest snap Hlast Hin.
    destruct (StronglySorted_last _ _ _ _ Hsorted Hlast Hin) as [->|Hle]; [lia|done].
Qed.

Lemma materialize_snapshots_latest_witness :
  _materialize_snapshots sample_runtime unsorted_snapshots
    = Ok [sample_snapshot jan1 400; sample_snapshot jan2 500] ∧
  StronglySorted (λ a b, ns_timestamp a ≤ ns_timestamp b)
    [sample_snapshot jan1 400; sample_snapshot jan2 500].
Proof.
  assert (_materialize_snapshots sample_runtime unsorted_snapshots
          = Ok [sample_snapshot jan1 400; sample_snapshot jan2 500]) as Hrun
    by (vm_compute; reflexivity).
  split; [exact Hrun|].
  exact (proj1 (materialize_snapshots_latest _ _ _ Hrun)).
Defined.

(** ** The initial import *)

Lemma dict_assign_keys {V} (d : list (string * V)) k v :
  (dict_assign d k v).*1 = d.*1 ++ (if decide (k ∈ d.*1) then [] else [k]).
Proof.
  induction d as [|[k' v'] d IH]; [done|]. cbn [dict_assign].
  destruct (decide (k' = k)) as [->|Hne].
  - rewrite !fmap_cons. cbn [fst]. rewrite decide_True by (by left).
    by rewrite app_nil_r.
  - rewrite !fmap_cons, IH. cbn [fst].
    destruct (decide (k ∈ d.*1)) as [Hin|Hin].
    + by rewrite decide_True by (by right).
    + rewrite decide_False; [done|]. rewrite elem_of_cons. naive_solver.
Qed.

Lemma dict_assign_elem_of {V} (d : list (string * V)) k v k' v' :
  NoDup d.*1 →
  (k', v') ∈ dict_assign d k v →
  (k' = k ∧ v' = v) ∨ (k' ≠ k ∧ (k', v') ∈ d).
Proof.
  induction d as [|[k0 v0] d IH]; intros Hnd; cbn [dict_assign].
  - intros [[= -> ->]|Hin]%elem_of_cons; [by left|].
    exfalso. exact (not_elem_of_nil _ Hin).
  - rewrite fmap_cons in Hnd. apply NoDup_cons in Hnd as [Hk0 Hnd]. cbn [fst] in Hk0.
    destruct (decide (k0 = k)) as [->|Hne].
    + intros [[= -> ->]|Hin]%elem_of_cons; [by left|].
      right. split; [|by right]. intros ->. apply Hk0.
      apply list_elem_of_fmap. by exists (k, v').
    + intros [[= -> ->]|Hin]%elem_of_cons.
      * right. split; [done|by left].
      * destruct (IH Hnd Hin) as [?|[? ?]]; [by left|].
        right. split; [done|by right].
Qed.

Lemma latest_snoc ticket trades trade :
  latest ticket (trades ++ [trade]) =
    if decide (nt_ticket trade = ticket) then Some trade else latest ticket trades.
Proof.
  unfold latest. rewrite filter_app.
  destruct (decide (nt_ticket trade = ticket)) as [Heq|Hne].
  - rewrite filter_cons_True by done. rewrite filter_nil. by rewrite last_snoc.
  - rewrite filter_cons_False by done. rewrite filter_nil. by rewrite app_nil_r.
Qed.

Lemma latest_ticket ticket trades trade :
  latest ticket trades = Some trade → nt_ticket trade = ticket ∧ trade ∈ trades.
Proof.
  unfold latest. intros Hlast.
  assert (trade ∈ filter (λ trade, nt_ticket trade = ticket) trades) as Hin.
  { apply last_Some in Hlast as [l' ->]. apply elem_of_app. right. by left. }
  by apply list_elem_of_filter in Hin.
Qed.

Lemma tickets_snoc trades trade :
  tickets (trades ++ [trade]) =
    tickets trades ++ (if decide (nt_ticket trade = "") then [] else [nt_ticket trade]).
Proof.
  unfold tickets. rewrite fmap_app, filter_app. f_equal.
  change (nt_ticket <$> [trade]) with [nt_ticket trade].
  destruct (decide (nt_ticket trade = "")) as [Heq|Hne].
  - by rewrite filter_cons_False by naive_solver.
  - by rewrite filter_cons_True.
Qed.

Lemma tickets_elem_of trades ticket :
  ticket ∈ tickets trades ↔ ticket ≠ "" ∧ ticket ∈ nt_ticket <$> trades.
Proof. unfold tickets. by rewrite list_elem_of_filter. Qed.

(** The dict [merged] after the loops: one entry per distinct non-empty
    ticket, in the order in which the tickets are first met, holding the
    last trade that carries the ticket. *)
Lemma merge_trades_loop trades :
  let merged := foldl merge_trades_step [] trades in
  merged.*1 = first_seen (tickets trades) ∧
  ∀ ticket entry, (ticket, entry) ∈ merged →
    ∃ trade, latest ticket trades = Some trade ∧ entry = unlabelled trade.
Proof.
  induction trades as [|trade trades IH] using rev_ind.
  { split; [done|]. intros ticket entry Hin. exfalso. exact (not_elem_of_nil _ Hin). }
  cbv zeta in *. destruct IH as [Hkeys Hvals].
  rewrite foldl_app. cbn [foldl]. unfold merge_trades_step at 1 3.
  rewrite tickets_snoc.
  destruct (decide (nt_ticket trade = "")) as [Hempty|Hticket].
  - rewrite Hempty. cbn [truthy String.eqb negb]. rewrite app_nil_r. split; [done|].
    intros ticket entry Hin. destruct (Hvals _ _ Hin) as (tr & Htr & ->).
    exists tr. split; [|done]. rewrite latest_snoc, decide_False; [done|].
    rewrite Hempty. intros <-. apply latest_ticket in Htr as [Htk Hin'].
    assert ("" ∈ first_seen (tickets trades)) as Hbad.
    { rewrite <- Hkeys. apply list_elem_of_fmap. by exists ("", unlabelled tr). }
    rewrite first_seen_elem_of, tickets_elem_of in Hbad. by destruct Hbad.
  - assert (truthy (JStr (nt_ticket trade)) = true) as ->.
    { simpl. apply negb_true_iff. by apply String.eqb_neq. }
    cbn [negb]. fold (unlabelled trade). split.
    + rewrite dict_assign_keys, Hkeys, first_seen_snoc.
      f_equal. rewrite <- Hkeys.
      destruct (decide (nt_ticket trade ∈ (foldl merge_trades_step [] trades).*1))
        as [Hin|Hin]; rewrite Hkeys, first_seen_elem_of in Hin.
      * by rewrite decide_True.
      * by rewrite decide_False.
    + intros ticket entry Hin.
      apply dict_assign_elem_of in Hin as [[-> ->]|[Hne Hin]].
      * exists trade. by rewrite latest_snoc, decide_True.
      * destruct (Hvals _ _ Hin) as (tr & Htr & ->). exists tr.
        by rewrite latest_snoc, decide_False.
      * rewrite Hkeys. apply first_seen_NoDup.
Qed.

Lemma foldl_foldl_concat {A B} (f : B → A → B) (b : B) (ls : list (list A)) :
  foldl (foldl f) b ls = foldl f b (concat ls).
Proof.
  revert b. induction ls as [|l ls IH]; intros b; [done|].
  simpl. by rewrite foldl_app, IH.
Qed.

(** What [merge_trades] returns. *)
Lemma merge_trades_Ok trade_lists :
  ∃ merged, merge_trades trade_lists = Ok merged ∧
    StronglySorted (λ a b, nt_closed_at a ≤ nt_closed_at b) merged ∧
    nt_ticket <$> merged ≡ₚ first_seen (tickets (concat trade_lists)) ∧
    ∀ entry, entry ∈ merged →
      ∃ trade, latest (nt_ticket entry) (concat trade_lists) = Some trade ∧
               entry = unlabelled trade.
Proof.
  unfold merge_trades. rewrite foldl_foldl_concat.
  destruct (merge_trades_loop (concat trade_lists)) as [Hkeys Hvals].
  cbv zeta in *. set (d := foldl merge_trades_step [] (concat trade_lists)) in *.
  destruct (py_sorted_by_instant nt_closed_at d.*2) as (r & Hr & Hperm & Hsorted).
  exists r. split; [done|]. split; [done|].
  assert (∀ entry, entry ∈ d.*2 →
    ∃ trade, latest (nt_ticket entry) (concat trade_lists) = Some trade ∧
             entry = unlabelled trade) as Hvals'.
  { intros entry [[k v] [-> Hin]]%list_elem_of_fmap.
    destruct (Hvals _ _ Hin) as (tr & Htr & ->). exists tr. split; [|done].
    cbn [snd unlabelled nt_ticket]. by rewrite (proj1 (latest_ticket _ _ _ Htr)). }
  split.
  - assert (nt_ticket <$> d.*2 = d.*1) as Heq.
    { rewrite <- list_fmap_compose. apply list_fmap_ext.
      intros i [k v] Hlook. apply list_elem_of_lookup_2 in Hlook.
      destruct (Hvals _ _ Hlook) as (tr & Htr & ->).
      simpl. by apply latest_ticket in Htr as [-> _]. }
    by rewrite Hperm, Heq, Hkeys.
  - intros entry Hin. apply Hvals'. by rewrite <- Hperm.
Qed.

(** X16. [merge_trades] always returns; the result is in non-decreasing
    order of [closed_at], no ticket occurs twice, its tickets are the
    non-empty tickets of the inputs, and under each ticket stands the last
    input trade that carries it (later lists override earlier ones),
    without [tp_label] and [sl_label]. *)
Theorem merge_trades_last_wins trade_lists :
  ∃ merged, merge_trades trade_lists = Ok merged ∧
    StronglySorted (λ a b, nt_closed_at a ≤ nt_closed_at b) merged ∧
    NoDup (nt_ticket <$> merged) ∧
    (∀ ticket, ticket ∈ nt_ticket <$> merged ↔
       ticket ≠ "" ∧ ticket ∈ nt_ticket <$> concat trade_lists) ∧
    (∀ entry, entry ∈ merged →
       ∃ trade, latest (nt_ticket entry) (concat trade_lists) = Some trade ∧
                entry = unlabelled trade).
Proof.
  destruct (merge_trades_Ok trade_lists) as (merged & Hm & Hsorted & Hkeys & Hvals).
  exists merged. split_and!; [done..| | |done].
  - rewrite Hkeys. apply first_seen_NoDup.
  - intros ticket. by rewrite Hkeys, first_seen_elem_of, tickets_elem_of.
Qed.

(** X17. The history the initial import builds from a statement and a
    state log is left unchanged by a following [merge_history] with the
    trades and snapshots of the same log: nothing is appended.  All its
    trade records have [tp_label] and [sl_label] [null], also those that
    came from log entries with a label. *)
Theorem bootstrap_then_update statement log snapshots :
  ∃ merged, merge_trades [statement; log] = Ok merged ∧
    merge_history (build_history merged snapshots) log snapshots
      = Ok (build_history merged snapshots) ∧
    ∀ record, record ∈ h_trades (build_history merged snapshots) →
      py_get record "tp_label" = JNull ∧ py_get record "sl_label" = JNull.
Proof.
  destruct (merge_trades_Ok [statement; log]) as (merged & Hm & _ & Hkeys & Hvals).
  exists merged. split; [done|]. split.
  - rewrite merge_history_unfold.
    assert (appended_trades (build_history merged snapshots) log = []) as ->.
    { unfold appended_trades, build_history. cbn [h_trades].
      rewrite stored_tickets_serialize. apply accepted_nil.
      intros trade Hin Htr. apply elem_of_list_to_set.
      assert (nt_ticket trade ∈ nt_ticket <$> merged)
        as [entry [Hentry Hin']]%list_elem_of_fmap.
      { rewrite Hkeys, first_seen_elem_of, tickets_elem_of. split.
        - intros Hempty. unfold ticket_key in Htr. by rewrite Hempty in Htr.
        - apply list_elem_of_fmap_2. simpl. rewrite app_nil_r, elem_of_app. by right. }
      apply list_elem_of_fmap. exists entry. unfold ticket_key. by rewrite Hentry. }
    assert (appended_snapshots (build_history merged snapshots) snapshots = []) as ->.
    { unfold appended_snapshots, build_history. cbn [h_snapshots].
      rewrite stored_stamps_serialize. apply accepted_nil.
      intros snap Hin _. apply elem_of_list_to_set. by apply list_elem_of_fmap_2. }
    by rewrite !fmap_nil, !app_nil_r, !sort_if_appended_nil.
  - intros record [entry [-> Hin]]%list_elem_of_fmap.
    destruct (Hvals _ Hin) as (tr & _ & ->). done.
Qed.

(** ** Serialized timestamps are in chronological order *)

Lemma digit_compare a b :
  Ascii.compare (digit a) (digit b) = (a mod 10 ?= b mod 10).
Proof.
  unfold digit, Ascii.compare.
  pose proof (Z.mod_pos_bound a 10 eq_refl) as Ha.
  pose proof (Z.mod_pos_bound b 10 eq_refl) as Hb.
  rewrite !N_ascii_embedding by lia.
  rewrite <- N2Z.inj_compare, !N2Z.inj_add, !Z2N.id by lia.
  apply Z.add_compare_mono_l.
Qed.

Lemma compare_lex2 (a1 a2 b1 b2 : Z) (rest : comparison) :
  match a1 ?= b1 with
  | Eq => match a2 ?= b2 with Eq => rest | r => r end
  | r => r
  end =
  if decide (a1 = b1 ∧ a2 = b2) then rest
  else if decide (a1 < b1 ∨ (a1 = b1 ∧ a2 < b2)) then Lt else Gt.
Proof.
  destruct (Z.compare_spec a1 b1), (Z.compare_spec a2 b2);
    repeat case_decide; try done; lia.
Qed.

Lemma append_cons c s t : String c s +:+ t = String c (s +:+ t).
Proof. reflexivity. Qed.

Lemma append_nil t : "" +:+ t = t.
Proof. reflexivity. Qed.

Lemma compare_pad2 a b s s' :
  0 ≤ a < 100 → 0 ≤ b < 100 →
  String.compare (pad2 a +:+ s) (pad2 b +:+ s') =
    match a ?= b with Eq => String.compare s s' | r => r end.
Proof.
  intros Ha Hb. unfold pad2. rewrite !append_cons, !append_nil. cbn [String.compare].
  rewrite !digit_compare, compare_lex2.
  rewrite !(Z.mod_small (_ / 10) 10) by (Z.div_mod_to_equations; lia).
  destruct (Z.compare_spec a b); repeat case_decide; try done;
    Z.div_mod_to_equations; lia.
Qed.

Lemma compare_pad4 a b s s' :
  0 ≤ a < 10000 → 0 ≤ b < 10000 →
  String.compare (pad4 a +:+ s) (pad4 b +:+ s') =
    match a ?= b with Eq => String.compare s s' | r => r end.
Proof.
  intros Ha Hb. unfold pad4, pad2. rewrite !append_cons, !append_nil. cbn [String.compare].
  rewrite !digit_compare, !compare_lex2.
  rewrite !(Z.mod_small (_ / 1000) 10) by (Z.div_mod_to_equations; lia).
  destruct (Z.compare_spec a b); repeat case_decide; try done;
    Z.div_mod_to_equations; lia.
Qed.

Lemma compare_sep c s s' :
  String.compare (String c "" +:+ s) (String c "" +:+ s') = String.compare s s'.
Proof.
  rewrite !append_cons, !append_nil. cbn [String.compare].
  unfold Ascii.compare. by rewrite N.compare_refl.
Qed.

(** The calendar date grows with the day number, and months and days stay
    in their ranges. *)
Lemma civil_from_days_range days :
  1 ≤ (civil_from_days days).1.2 ≤ 12 ∧ 1 ≤ (civil_from_days days).2 ≤ 31.
Proof.
  unfold civil_from_days. cbv zeta. cbn [fst snd].
  set (z := days + 719468). set (era := z / 146097).
  set (doe := z - era * 146097).
  assert (0 ≤ doe ≤ 146096) as Hdoe
    by (unfold doe, era; Z.div_mod_to_equations; lia).
  clearbody doe. clear z era.
  set (yoe := (doe - doe / 1460 + doe / 36524 - doe / 146096) / 365).
  set (doy := doe - (365 * yoe + yoe / 4 - yoe / 100)).
  assert (0 ≤ doy ≤ 365) as Hdoy
    by (unfold doy, yoe; Z.div_mod_to_equations; lia).
  clearbody doy. clear yoe Hdoe doe.
  destruct (Z.ltb_spec ((5 * doy + 2) / 153) 10); Z.div_mod_to_equations; lia.
Qed.

Lemma civil_from_days_mono days1 days2 :
  days1 < days2 → civil_lt (civil_from_days days1) (civil_from_days days2).
Proof.
  intros Hlt. unfold civil_lt, civil_from_days. cbv zeta. cbn [fst snd].
  set (era1 := (days1 + 719468) / 146097). set (era2 := (days2 + 719468) / 146097).
  set (doe1 := days1 + 719468 - era1 * 146097).
  set (doe2 := days2 + 719468 - era2 * 146097).
  assert (0 ≤ doe1 ≤ 146096 ∧ 0 ≤ doe2 ≤ 146096 ∧
          (era1 < era2 ∨ (era1 = era2 ∧ doe1 < doe2))) as (Hdoe1 & Hdoe2 & Hera)
    by (unfold doe1, doe2, era1, era2; Z.div_mod_to_equations; lia).
  clearbody doe1 doe2 era1 era2. clear Hlt days1 days2.
  set (yoe1 := (doe1 - doe1 / 1460 + doe1 / 36524 - doe1 / 146096) / 365).
  set (yoe2 := (doe2 - doe2 / 1460 + doe2 / 36524 - doe2 / 146096) / 365).
  set (doy1 := doe1 - (365 * yoe1 + yoe1 / 4 - yoe1 / 100)).
  set (doy2 := doe2 - (365 * yoe2 + yoe2 / 4 - yoe2 / 100)).
  assert (0 ≤ yoe1 ≤ 399 ∧ 0 ≤ doy1 ≤ 365) as [Hyoe1 Hdoy1]
    by (unfold doy1, yoe1; Z.div_mod_to_equations; lia).
  assert (0 ≤ yoe2 ≤ 399 ∧ 0 ≤ doy2 ≤ 365) as [Hyoe2 Hdoy2]
    by (unfold doy2, yoe2; Z.div_mod_to_equations; lia).
  assert (era1 = era2 → yoe1 < yoe2 ∨ (yoe1 = yoe2 ∧ doy1 < doy2)) as Hyear.
  { intros Heq. destruct Hera as [?|[_ Hdoe]]; [lia|].
    assert (yoe1 ≤ yoe2) by (unfold yoe1, yoe2; Z.div_mod_to_equations; lia).
    destruct (decide (yoe1 = yoe2)) as [Hy|Hy]; [|lia].
    right. split; [done|]. unfold doy1, doy2. rewrite Hy. lia. }
  assert (era1 ≤ era2) as Hera' by lia.
  clearbody doy1 doy2 yoe1 yoe2. clear Hera Hdoe1 Hdoe2 doe1 doe2.
  set (mp1 := (5 * doy1 + 2) / 153). set (mp2 := (5 * doy2 + 2) / 153).
  assert (0 ≤ mp1 ≤ 11 ∧ 0 ≤ mp2 ≤ 11) as [Hmp1 Hmp2]
    by (unfold mp1, mp2; Z.div_mod_to_equations; lia).
  assert (doy1 < doy2 → mp1 < mp2 ∨
            (mp1 = mp2 ∧ doy1 - (153 * mp1 + 2) / 5 + 1 < doy2 - (153 * mp2 + 2) / 5 + 1))
    as Hmonth.
  { intros Hdoy.
    assert (mp1 ≤ mp2) by (unfold mp1, mp2; Z.div_mod_to_equations; lia).
    destruct (decide (mp1 = mp2)) as [Hm|Hm]; [|lia].
    right. split; [done|]. rewrite Hm. lia. }
  clearbody mp1 mp2.
  destruct (Z.ltb_spec mp1 10), (Z.ltb_spec mp2 10);
    repeat match goal with |- context [?a <=? ?b] => destruct (Z.leb_spec a b) end;
    lia.
Qed.

Lemma civil_from_days_year days :
  -719162 ≤ days ≤ 2932896 → 1 ≤ (civil_from_days days).1.1 ≤ 9999.
Proof.
  intros [Hlo Hhi]. split.
  - destruct (decide (days = -719162)) as [->|Hne]; [by vm_compute|].
    assert (-719162 < days) as Hlt by lia.
    apply civil_from_days_mono in Hlt. unfold civil_lt in Hlt.
    change (civil_from_days (-719162)) with (1, 1, 1) in Hlt. cbn [fst snd] in Hlt.
    pose proof (civil_from_days_range days). lia.
  - destruct (decide (days = 2932896)) as [->|Hne]; [by vm_compute|].
    assert (days < 2932896) as Hlt by lia.
    apply civil_from_days_mono in Hlt. unfold civil_lt in Hlt.
    change (civil_from_days 2932896) with (9999, 12, 31) in Hlt. cbn [fst snd] in Hlt.
    pose proof (civil_from_days_range days). lia.
Qed.

Lemma isoformat_seconds t : isoformat t = stamp_of_seconds (t / 1000000).
Proof.
  unfold isoformat, datetime_isoformat_z, stamp_of_seconds.
  rewrite replace_microsecond0_floor.
  replace (1000000 * (t / 1000000) / 1000000) with (t / 1000000)
    by (Z.div_mod_to_equations; lia).
  replace ((1000000 * (t / 1000000)) mod 1000000) with 0
    by (Z.div_mod_to_equations; lia).
  destruct (civil_from_days _) as [[y m] d]. cbn [Z.eqb]. by rewrite append_nil.
Qed.

Lemma stamp_of_seconds_lt secs1 secs2 :
  -62135596800 ≤ secs1 → secs1 < secs2 → secs2 ≤ 253402300799 →
  String.compare (stamp_of_seconds secs1) (stamp_of_seconds secs2) = Lt.
Proof.
  intros Hlo Hlt Hhi. unfold stamp_of_seconds.
  pose proof (civil_from_days_range (secs1 / 86400)) as Hr1.
  pose proof (civil_from_days_range (secs2 / 86400)) as Hr2.
  pose proof (civil_from_days_year (secs1 / 86400)) as Hy1.
  pose proof (civil_from_days_year (secs2 / 86400)) as Hy2.
  assert (secs1 / 86400 < secs2 / 86400 ∨
          (secs1 / 86400 = secs2 / 86400 ∧ secs1 mod 86400 < secs2 mod 86400))
    as Hday by (Z.div_mod_to_equations; lia).
  assert (secs1 / 86400 < secs2 / 86400 →
          civil_lt (civil_from_days (secs1 / 86400)) (civil_from_days (secs2 / 86400)))
    as Hmono by apply civil_from_days_mono.
  assert (secs1 / 86400 = secs2 / 86400 →
          civil_from_days (secs1 / 86400) = civil_from_days (secs2 / 86400))
    as Hsame by (by intros ->).
  unfold civil_lt in Hmono.
  specialize (Hy1 ltac:(Z.div_mod_to_equations; lia)).
  specialize (Hy2 ltac:(Z.div_mod_to_equations; lia)).
  pose proof (Z.mod_pos_bound secs1 86400 eq_refl) as Hs1.
  pose proof (Z.mod_pos_bound secs2 86400 eq_refl) as Hs2.
  set (sod1 := secs1 mod 86400) in *. set (sod2 := secs2 mod 86400) in *.
  destruct (civil_from_days (secs1 / 86400)) as [[y1 m1] d1].
  destruct (civil_from_days (secs2 / 86400)) as [[y2 m2] d2].
  cbn [fst snd] in *.
  set (day1 := secs1 / 86400) in *. set (day2 := secs2 / 86400) in *.
  clearbody day1 day2 sod1 sod2.
  rewrite compare_pad4, compare_sep by lia.
  rewrite compare_pad2, compare_sep by lia.
  rewrite compare_pad2, compare_sep by lia.
  rewrite compare_pad2, compare_sep by (Z.div_mod_to_equations; lia).
  rewrite compare_pad2, compare_sep by (Z.div_mod_to_equations; lia).
  rewrite compare_pad2 by (Z.div_mod_to_equations; lia).
  destruct Hday as [Hd|[Hd Hsod]].
  - specialize (Hmono Hd).
    destruct (Z.compare_spec y1 y2); [|done|lia].
    destruct (Z.compare_spec m1 m2); [|done|lia].
    destruct (Z.compare_spec d1 d2); [lia|done|lia].
  - specialize (Hsame Hd). injection Hsame as -> -> ->.
    rewrite !Z.compare_refl.
    destruct (Z.compare_spec (sod1 / 3600) (sod2 / 3600)) as [Hh|Hh|Hh];
      [|done|Z.div_mod_to_equations; lia].
    destruct (Z.compare_spec (sod1 / 60 mod 60) (sod2 / 60 mod 60)) as [Hm|Hm|Hm];
      [|done|Z.div_mod_to_equations; lia].
    destruct (Z.compare_spec (sod1 mod 60) (sod2 mod 60)) as [Hs|Hs|Hs];
      [|done|]; Z.div_mod_to_equations; lia.
Qed.

Lemma string_compare_refl s : String.compare s s = Eq.
Proof.
  induction s as [|c s IH]; [done|]. cbn [String.compare].
  unfold Ascii.compare. by rewrite N.compare_refl.
Qed.

Lemma isoformat_py_lt t1 t2 :
  valid_datetime t1 → valid_datetime t2 →
  py_lt (JStr (isoformat t1)) (JStr (isoformat t2))
    = Ok (t1 / 1000000 <? t2 / 1000000).
Proof.
  unfold valid_datetime, datetime_min, datetime_max. intros Hv1 Hv2.
  rewrite !isoformat_seconds. cbn [py_lt]. f_equal. unfold String.ltb.
  assert (-62135596800 ≤ t1 / 1000000 ≤ 253402300799) as Hs1
    by (Z.div_mod_to_equations; lia).
  assert (-62135596800 ≤ t2 / 1000000 ≤ 253402300799) as Hs2
    by (Z.div_mod_to_equations; lia).
  destruct (Z.ltb_spec (t1 / 1000000) (t2 / 1000000)) as [Hlt|Hge].
  - by rewrite stamp_of_seconds_lt by lia.
  - destruct (decide (t1 / 1000000 = t2 / 1000000)) as [->|Hne].
    + by rewrite string_compare_refl.
    + rewrite String.compare_antisym, stamp_of_seconds_lt by lia. done.
Qed.

(** X18. For datetimes between [datetime.min] and [datetime.max], the
    strings [isoformat] writes compare as the instants do, second by
    second: [isoformat(t1) < isoformat(t2)] exactly when [t1] lies in an
    earlier second than [t2].  Every such string has 20 characters. *)
Theorem isoformat_chronological t1 t2 :
  valid_datetime t1 → valid_datetime t2 →
  py_lt (JStr (isoformat t1)) (JStr (isoformat t2))
    = Ok (t1 / 1000000 <? t2 / 1000000) ∧
  String.length (isoformat t1) = 20%nat.
Proof.
  intros Hv1 Hv2. split; [by apply isoformat_py_lt|].
  rewrite isoformat_seconds. unfold stamp_of_seconds.
  destruct (civil_from_days _) as [[y m] d]. reflexivity.
Qed.

Lemma isoformat_chronological_witness :
  valid_datetime jan1 ∧ valid_datetime jan2 ∧
  py_lt (JStr (isoformat jan1)) (JStr (isoformat jan2)) = Ok true.
Proof.
  assert (valid_datetime jan1) as H1 by (unfold valid_datetime; done).
  assert (valid_datetime jan2) as H2 by (unfold valid_datetime; done).
  split; [exact H1|]. split; [exact H2|].
  exact (proj1 (isoformat_chronological jan1 jan2 H1 H2)).
Defined.

(** ** A merged history is in chronological order *)

Lemma sort_insert_fmap {A B} (f : A → B) (key : B → json) reverse x l r :
  sort_insert (key ∘ f) reverse x l = Ok r →
  sort_insert key reverse (f x) (f <$> l) = Ok (f <$> r).
Proof.
  revert r. induction l as [|y l IH]; intros r.
  - by intros [= <-].
  - rewrite fmap_cons. cbn [sort_insert].
    change ((key ∘ f) x) with (key (f x)). change ((key ∘ f) y) with (key (f y)).
    destruct (if reverse then _ else _) as [[]|]; cbn [mbind result_bind];
      [|by intros [= <-]|done].
    destruct (sort_insert (key ∘ f) reverse x l) as [r'|]; cbn [mbind result_bind];
      [|done].
    intros [= <-]. by rewrite (IH r' eq_refl).
Qed.

Lemma py_sorted_fmap {A B} (f : A → B) (key : B → json) reverse l r :
  py_sorted (key ∘ f) reverse l = Ok r →
  py_sorted key reverse (f <$> l) = Ok (f <$> r).
Proof.
  revert r. induction l as [|x l IH]; intros r.
  - by intros [= <-].
  - rewrite fmap_cons. cbn [py_sorted].
    destruct (py_sorted (key ∘ f) reverse l) as [r'|]; cbn [mbind result_bind]; [|done].
    rewrite (IH r' eq_refl). cbn [mbind result_bind]. apply sort_insert_fmap.
Qed.

Lemma StronglySorted_mono_in {A} (R R' : A → A → Prop) l :
  (∀ a b, a ∈ l → b ∈ l → R a b → R' a b) →
  StronglySorted R l → StronglySorted R' l.
Proof.
  intros Himpl Hsorted. induction Hsorted as [|x l Hl IH Hx]; constructor.
  - apply IH. intros a b Ha Hb. apply Himpl; by right.
  - rewrite Forall_forall in Hx |- *. intros y Hy.
    apply Himpl; [by left|by right|by apply Hx].
Qed.

(** X19. Merging trades with valid [closed_at] into the empty history
    returns, and the stored records are those of the appended trades in
    chronological order of [closed_at], second by second: the sort by the
    stored strings is a sort by time. *)
Theorem merge_history_chronological trades :
  Forall (λ trade, valid_datetime (nt_closed_at trade)) trades →
  ∃ history stored,
    merge_history empty_history trades [] = Ok history ∧
    h_trades history = serialize_trade <$> stored ∧
    stored ≡ₚ appended_trades empty_history trades ∧
    StronglySorted
      (λ a b, nt_closed_at a / 1000000 ≤ nt_closed_at b / 1000000) stored.
Proof.
  intros Hvalid. rewrite merge_history_unfold.
  set (news := appended_trades empty_history trades).
  assert (appended_snapshots empty_history [] = []) as -> by done.
  cbn [h_trades h_snapshots empty_history app fmap list_fmap].
  rewrite sort_if_appended_nil.
  assert (∀ trade, trade ∈ news → valid_datetime (nt_closed_at trade)) as Hnews.
  { intros trade (_ & _ & Hin)%accepted_truthy.
    rewrite Forall_forall in Hvalid. by apply Hvalid. }
  destruct (py_sorted_total (trade_sort_key ∘ serialize_trade) false news)
    as [stored Hsort].
  { intros a b _ _. by eexists. }
  pose proof (py_sorted_perm _ _ _ _ Hsort) as Hperm.
  assert (StronglySorted
    (λ a b, nt_closed_at a / 1000000 ≤ nt_closed_at b / 1000000) stored) as Hsorted.
  { eapply StronglySorted_mono_in; [|by eapply py_sorted_sorted].
    intros a b Ha Hb. unfold sort_order, key_le.
    change ((trade_sort_key ∘ serialize_trade) a)
      with (JStr (isoformat (nt_closed_at a))).
    change ((trade_sort_key ∘ serialize_trade) b)
      with (JStr (isoformat (nt_closed_at b))).
    rewrite isoformat_py_lt by (apply Hnews; by rewrite <- Hperm).
    intros [= Hlt]. by apply Z.ltb_ge in Hlt. }
  unfold sort_if_appended. case_bool_decide as Hne.
  - rewrite (py_sorted_fmap _ _ _ _ _ Hsort). cbn [mbind result_bind].
    by eexists _, stored.
  - cbn [mbind result_bind].
    eexists _, []. split; [done|]. rewrite Hne. split_and!; [done..|constructor].
Qed.

Lemma merge_history_chronological_witness :
  Forall (λ trade, valid_datetime (nt_closed_at trade)) sample_trades ∧
  ∃ history, merge_history empty_history sample_trades [] = Ok history.
Proof.
  assert (Forall (λ trade, valid_datetime (nt_closed_at trade)) sample_trades) as Hvalid.
  { repeat constructor; done. }
  split; [exact Hvalid|].
  destruct (merge_history_chronological sample_trades Hvalid) as (history & _ & Hrun & _).
  exists history. exact Hrun.
Defined.

(** ** The account statement *)

Lemma column_row_idx_None rows idx :
  column_row_idx rows idx = None ↔ Forall (λ cells, is_header cells = false) rows.
Proof.
  revert idx. induction rows as [|cells rows IH]; intros idx; simpl; [done|].
  rewrite Forall_cons. destruct (is_header cells); [naive_solver|].
  rewrite IH. naive_solver.
Qed.

Lemma column_row_idx_first before header after idx :
  Forall (λ cells, is_header cells = false) before →
  is_header header = true →
  column_row_idx (before ++ header :: after) idx = Some (idx + length before)%nat.
Proof.
  intros Hbefore Hheader. revert idx.
  induction Hbefore as [|cells before Hcells _ IH]; intros idx; simpl.
  - rewrite Hheader. f_equal. lia.
  - rewrite Hcells, IH. f_equal. lia.
Qed.

Lemma omap_cons_match {A B} (f : A → option B) x l :
  omap f (x :: l) = match f x with Some y => y :: omap f l | None => omap f l end.
Proof. reflexivity. Qed.

Lemma statement_rows_section rt strptime rows trades :
  statement_rows rt strptime rows trades
    = trades ++ omap (statement_trade rt strptime) (trade_section rows).
Proof.
  revert trades. induction rows as [|cells rows IH]; intros trades.
  { by rewrite app_nil_r. }
  cbn [statement_rows trade_section].
  destruct cells as [|first cells]; [by rewrite app_nil_r|].
  cbn [ends_trades].
  destruct (String.prefix "Ergebnisse" first || String.prefix "Balanceoperationen" first)
    eqn:Hend; [by rewrite app_nil_r|].
  rewrite omap_cons_match. unfold statement_trade at 1.
  destruct (length (first :: cells) <? 14)%nat eqn:Hlen.
  - apply Nat.ltb_lt in Hlen. rewrite decide_False by lia. apply IH.
  - apply Nat.ltb_ge in Hlen. rewrite decide_True by lia.
    change (default "" ((first :: cells) !! 0%nat)) with first.
    destruct (strptime first) as [opened_at|]; [|apply IH].
    destruct (strptime (default "" ((first :: cells) !! 9%nat))) as [closed_at|];
      [|apply IH].
    rewrite IH, <- app_assoc. done.
Qed.

(** X20. [parse_statement_html] raises [ValueError] when the report has
    no table, and with a table exactly when no row passes the column-row
    test.  Otherwise it returns, in order, the trades of the rows below the
    first column row up to the first empty row or results or balance
    caption; rows with fewer than 14 cells or with a time that does not
    parse are skipped, and no row below the caption is read. *)
Theorem parse_statement_html_section rt strptime rows :
  parse_statement_html rt strptime None = Raise ValueError ∧
  (parse_statement_html rt strptime (Some rows) = Raise ValueError ↔
   Forall (λ cells, is_header cells = false) rows) ∧
  (∀ before header after,
     rows = before ++ header :: after →
     Forall (λ cells, is_header cells = false) before →
     is_header header = true →
     parse_statement_html rt strptime (Some rows)
       = Ok (omap (statement_trade rt strptime) (trade_section after))).
Proof.
  split; [done|]. split.
  - unfold parse_statement_html. rewrite <- (column_row_idx_None rows 0).
    destruct (column_row_idx rows 0); naive_solver.
  - intros before header after -> Hbefore Hheader. unfold parse_statement_html.
    rewrite (column_row_idx_first _ _ _ _ Hbefore Hheader).
    rewrite statement_rows_section. cbn [app]. do 2 f_equal.
    change (S (0 + length before)) with (S (length before)).
    rewrite cons_middle, app_assoc.
    rewrite (drop_app_length' _ _ (S (length before))); [done|].
    rewrite length_app. simpl. lia.
Qed.

(** ** The payload *)

Lemma build_symbol_lists_total trades :
  ∃ top bottom, build_symbol_lists trades = Ok (top, bottom) ∧
    (length top ≤ 5)%nat ∧ (length bottom ≤ 5)%nat.
Proof.
  destruct (py_sorted_total (λ item, JFloat (b_profit item)) true (symbol_groups trades))
    as [ordered Hord].
  { intros a b _ _. by eexists. }
  rewrite (build_symbol_lists_ok _ _ Hord). eexists _, _. split; [done|].
  rewrite length_take, length_drop. unfold rank_all. rewrite length_imap. lia.
Qed.

Lemma build_daily_breakdown_total now trades days :
  ∃ buckets, build_daily_breakdown now trades days = Ok buckets.
Proof.
  apply py_sorted_total. intros a b _ _. by eexists.
Qed.

(** X21. [build_payload] returns for every input.  The history is passed
    through unchanged, the overall summary is that of all trades, the
    feed has at most 10 entries and each symbol list at most 5; the account
    shows the last snapshot rounded to 2 decimals, or zeros and no
    timestamp when there is none, and [meta] repeats its timestamp; the
    status [paused] is set exactly when trading is not active, then with the
    generation time as [pause_since] and a non-empty pause message. *)
Theorem build_payload_returns history trades snapshots project trade_active
    pause_message now now_windows now_daily :
  ∃ payload,
    build_payload history trades snapshots project trade_active pause_message
      now now_windows now_daily = Ok payload ∧
    p_history payload = history ∧
    p_overall payload = summary_reference trades ∧
    (length (p_recent_trades payload) ≤ 10)%nat ∧
    (length (p_top_symbols payload) ≤ 5)%nat ∧
    (length (p_bottom_symbols payload) ≤ 5)%nat ∧
    meta_snapshot_at (p_meta payload) = a_snapshot_at (p_account payload) ∧
    (snapshots = [] →
     p_account payload
       = {| a_balance := 0; a_equity := 0; a_floating := 0; a_snapshot_at := None |}) ∧
    (∀ snap, last snapshots = Some snap →
     p_account payload
       = {| a_balance := py_round (ns_balance snap) 2;
            a_equity := py_round (ns_equity snap) 2;
            a_floating := py_round (ns_floating snap) 2;
            a_snapshot_at := Some (isoformat (ns_timestamp snap)) |}) ∧
    (meta_status (p_meta payload) = Some "paused" ↔ trade_active = false) ∧
    (trade_active = false →
     meta_pause_since (p_meta payload) = Some (meta_generated_at (p_meta payload)) ∧
     ∃ message, meta_pause_message (p_meta payload) = Some message ∧
                truthy message = true).
Proof.
  unfold build_payload. cbv zeta.
  rewrite summarize_trades_ok, build_windows_ok. cbn [mbind result_bind].
  destruct (build_symbol_lists_total trades) as (top & bottom & -> & Htop & Hbottom).
  destruct (build_daily_breakdown_total now_daily trades 7) as [daily ->].
  cbn [mbind result_bind]. eexists. split; [reflexivity|].
  cbn [p_history p_overall p_recent_trades p_top_symbols p_bottom_symbols p_meta
       p_account meta_snapshot_at a_snapshot_at meta_status meta_pause_since
       meta_pause_message meta_generated_at fst snd].
  split_and!; [done|done| |done|done|done|by intros ->| | |].
  - destruct (build_recent_trades_lookup trades 10 0) as [-> _].
    unfold py_slice_from. rewrite length_drop.
    destruct (Z.ltb_spec (- (10)) 0); lia.
  - by intros snap ->.
  - by destruct trade_active.
  - intros ->. split; [done|]. eexists. split; [done|].
    unfold py_or. by destruct (truthy pause_message) eqn:Htr.
Qed.

(** ** Rows of the recent-trade feed *)

Lemma chunked_from {A} (items : list A) (size : Z) (count : nat) (start : Z) :
  0 < size → 0 ≤ start ≤ Z.of_nat (length items) →
  Z.of_nat count = (Z.of_nat (length items) - start + size - 1) / size →
  let rows := (λ idx, py_slice items idx (idx + size)) <$> range_from count start size in
  concat rows = drop (Z.to_nat start) items ∧
  Forall (λ row, (0 < length row)%nat ∧ Z.of_nat (length row) ≤ size) rows ∧
  (∀ i row, rows !! i = Some row → (S i < length rows)%nat →
            Z.of_nat (length row) = size).
Proof.
  intros Hsize. revert start. induction count as [|count IH]; intros start Hstart Hcount.
  - cbn. split; [|split; [done|by intros]].
    rewrite drop_ge; [done|]. Z.div_mod_to_equations. lia.
  - cbn [range_from]. cbv zeta. rewrite fmap_cons. cbn [concat].
    assert (start < Z.of_nat (length items)) as Hlt by (Z.div_mod_to_equations; lia).
    set (n := Z.of_nat (length items)) in *.
    assert (py_slice items start (start + size)
            = take (Z.to_nat size) (drop (Z.to_nat start) items)) as Hrow.
    { unfold py_slice. fold n. rewrite (proj2 (Z.ltb_ge _ _)) by lia.
      destruct (decide (start + size ≤ n)).
      - rewrite Z.min_l by done. f_equal. lia.
      - rewrite Z.min_r by lia. rewrite !take_ge; [done|rewrite length_drop; lia..]. }
    destruct (decide (start + size ≤ n)) as [Hfull|Hpart].
    + destruct (IH (start + size)) as (Hcat & Hall & Heach).
      { lia. }
      { replace (n - (start + size) + size - 1) with (n - start + size - 1 + (-1) * size)
          by lia.
        rewrite Z.div_add by lia. lia. }
      cbv zeta in Hcat, Hall, Heach. rewrite Hcat, Hrow. split_and!.
      * replace (Z.to_nat (start + size)) with (Z.to_nat start + Z.to_nat size)%nat
          by lia.
        rewrite <- drop_drop. apply take_drop.
      * constructor; [|done]. rewrite length_take, length_drop. unfold n in *. lia.
      * intros [|i] row; cbn.
        -- intros [= <-] _. rewrite length_take, length_drop. unfold n in *. lia.
        -- intros Hrow' Hi. apply (Heach i); [done|lia].
    + assert (count = 0%nat) as ->.
      { assert (1 = (n - start + size - 1) / size) as Hone
          by (apply (Z.div_unique _ _ 1 (n - start - 1)); lia).
        lia. }
      cbn. rewrite Hrow, app_nil_r. split_and!.
      * rewrite take_ge; [done|]. rewrite length_drop. unfold n in *. lia.
      * constructor; [|done]. rewrite length_take, length_drop. unfold n in *. lia.
      * intros [|i] row; cbn; [lia|done].
Qed.

(** X22. For a positive [size], [chunked] returns rows whose
    concatenation is the list of items: nothing is lost, repeated or
    reordered; no row is empty or longer than [size], and every row but the
    last has exactly [size] items. *)
Theorem chunked_rows {A} (items : list A) (size : Z) :
  0 < size →
  ∃ rows, chunked items size = Ok rows ∧
    concat rows = items ∧
    Forall (λ row, (0 < length row)%nat ∧ Z.of_nat (length row) ≤ size) rows ∧
    (∀ i row, rows !! i = Some row → (S i < length rows)%nat →
              Z.of_nat (length row) = size).
Proof.
  intros Hsize. unfold chunked, py_range.
  rewrite (proj2 (Z.eqb_neq size 0)) by lia.
  rewrite (proj2 (Z.ltb_lt 0 size)) by done.
  eexists. split; [reflexivity|].
  apply (chunked_from items size _ 0 Hsize); [lia|].
  rewrite Z2Nat.id; [done|]. Z.div_mod_to_equations. lia.
Qed.

Lemma chunked_rows_witness :
  0 < 5 ∧
  ∃ rows, chunked [1; 2; 3; 4; 5; 6; 7] 5 = Ok rows ∧
          concat rows = [1; 2; 3; 4; 5; 6; 7].
Proof.
  split; [lia|].
  destruct (chunked_rows [1; 2; 3; 4; 5; 6; 7] 5) as (rows & Hrun & Hcat & _); [lia|].
  exists rows. split; [exact Hrun|exact Hcat].
Defined.
